(** * GitHub activity orchestrator: rate-limit wrapper, merge manager, analytics

  A shallow embedding of [githubClient.ts], [mergeManager.ts],
  [commentManager.ts] (the part the merge manager calls) and
  [analytics.ts], and the properties of the design document proved or
  refuted on it.

  Conventions.
  - JavaScript numbers that the code only counts, compares or subtracts
    (HTTP status codes, counters, epoch milliseconds) are integers of [Z];
    the averages of the report are exact rationals of [Q].  A number read
    from text by [parseInt], and its product with 1000, is rounded to the
    nearest IEEE-754 double as the runtime does; counters, timestamps and
    averages stay within the range where integers are exact and are not
    rounded.
  - A string holds the code units below 256, one per character.
  - Asynchronous code is sequential here: every [await] is a bind of a
    state-and-exception monad, and the monad also collects the trace of
    sleeps and remote requests the code issues, in program order.
  - An ISO-8601 timestamp string is the instant it denotes, in
    milliseconds since the epoch.
  - Logging ([log.debug], [log.info], [log.warn]) has no effect on control
    flow or state and is left out. *)

Set Warnings "-register-all".

From Stdlib Require Import ZArith String Ascii List Bool Lia.
From Stdlib Require Import QArith Qround DecimalString.
Import ListNotations.

Local Open Scope Z_scope.

(* ===================================================================== *)
(** ** JavaScript values                                                  *)
(* ===================================================================== *)

Module Js.

(** The values an [unknown] caught by [catch (err: unknown)] can be.
    An object is its list of own properties in insertion order. *)
Inductive JsValue : Type :=
| JUndefined
| JNull
| JBool (b : bool)
| JNum (z : Z)
| JStr (s : string)
| JObj (fields : list (string * JsValue)).

(** [typeof v === "object"]: objects and [null]. *)
Definition typeof_object (v : JsValue) : bool :=
  match v with
  | JObj _ | JNull => true
  | _ => false
  end.

Definition is_null (v : JsValue) : bool :=
  match v with JNull => true | _ => false end.

Fixpoint lookup (key : string) (fields : list (string * JsValue)) : JsValue :=
  match fields with
  | [] => JUndefined
  | (k, v) :: rest => if String.eqb k key then v else lookup key rest
  end.

(** Property read [v[key]] for the keys the client reads ([status],
    [response], [retry-after]): present on an object that has it,
    [undefined] on every other value that can be read at all. *)
Definition get (v : JsValue) (key : string) : JsValue :=
  match v with
  | JObj fields => lookup key fields
  | _ => JUndefined
  end.

(** ToBoolean. *)
Definition truthy (v : JsValue) : bool :=
  match v with
  | JUndefined | JNull => false
  | JBool b => b
  | JNum z => negb (z =? 0)
  | JStr s => negb (String.eqb s "")
  | JObj _ => true
  end.

(** [v === n] for a number literal [n]. *)
Definition strict_eq_num (v : JsValue) (n : Z) : bool :=
  match v with
  | JNum z => z =? n
  | _ => false
  end.

(** [new Error(msg)], as far as the callers of this code can see it. *)
Definition Error (msg : string) : JsValue :=
  JObj [("message"%string, JStr msg)].

(** *** [parseInt(s, 10)] and [Number.isFinite] *)

(** StrWhiteSpaceChar among the code units below 256. *)
Definition is_white (c : ascii) : bool :=
  let n := nat_of_ascii c in
  (Nat.leb 9 n && Nat.leb n 13) || Nat.eqb n 32 || Nat.eqb n 160.

Fixpoint trimStart (s : string) : string :=
  match s with
  | String c rest => if is_white c then trimStart rest else s
  | EmptyString => s
  end.

Definition digit_of (c : ascii) : option Z :=
  let n := nat_of_ascii c in
  if Nat.leb 48 n && Nat.leb n 57 then Some (Z.of_nat (n - 48)) else None.

(** The value of the longest prefix of decimal digits; [None] when the
    prefix is empty. *)
Fixpoint digits_prefix (s : string) (acc : option Z) : option Z :=
  match s with
  | String c rest =>
      match digit_of c with
      | Some d =>
          digits_prefix rest
            (Some (10 * match acc with Some a => a | None => 0 end + d))
      | None => acc
      end
  | EmptyString => acc
  end.

(** The integer that the text denotes for [parseInt(s, 10)]: leading white
    space, an optional sign, then the longest run of digits; [None] when
    there is no digit. *)
Definition mathInt (s : string) : option Z :=
  let s1 := trimStart s in
  let '(neg, s2) :=
    match s1 with
    | String "-"%char rest => (true, rest)
    | String "+"%char rest => (false, rest)
    | _ => (false, s1)
    end in
  match digits_prefix s2 None with
  | Some n => Some (if neg then - n else n)
  | None => None
  end.

(** The Number value of an integer: the nearest number with a 53-bit
    significand, a tie going to the even significand. Integers up to
    [2 ^ 53] in magnitude are Number values themselves. *)
Definition to_Number (n : Z) : Z :=
  let a := Z.abs n in
  if a <=? 2 ^ 53 then n
  else
    let e := Z.log2 a - 52 in
    let q := a / 2 ^ e in
    let r := a mod 2 ^ e in
    let half := 2 ^ (e - 1) in
    let q' :=
      if r <? half then q
      else if half <? r then q + 1
      else if Z.even q then q else q + 1 in
    Z.sgn n * (q' * 2 ^ e).

(** [parseInt(s, 10)]: the Number value of the integer denoted; [None] is
    [NaN]. *)
Definition parseInt (s : string) : option Z :=
  match mathInt s with
  | Some n => Some (to_Number n)
  | None => None
  end.

(** A Number value this large or larger is [Infinity]: integers from here
    on round to [2 ^ 1024] or beyond. *)
Definition overflow_threshold : Z := 2 ^ 1024 - 2 ^ 970.

(** [Number.isFinite] of the result of [parseInt]. *)
Definition Number_isFinite (n : option Z) : bool :=
  match n with
  | Some z => Z.abs z <? overflow_threshold
  | None => false
  end.

(** Template-literal rendering [`${n}`] of an integer. *)
Definition string_of_Z (z : Z) : string :=
  NilZero.string_of_int (Z.to_int z).

End Js.

(* ===================================================================== *)
(** ** The monad of remote calls                                          *)
(* ===================================================================== *)

Module Async.
Import Js.

(** A settled promise: fulfilled with a value or rejected with whatever
    was thrown. *)
Inductive Outcome (A : Type) : Type :=
| Ok (a : A)
| Throw (e : JsValue).
Arguments Ok {A} a.
Arguments Throw {A} e.

(** The requests the merge and comment managers send through Octokit. *)
Inductive Request : Type :=
| IssuesCreateComment (issue_number : Z) (body : string)
| PullsMerge (pull_number : Z)
    (merge_method commit_title commit_message : string)
| PullsGet (pull_number : Z)
| GitDeleteRef (ref : string).

(** What an observer of a run sees, in program order. [EvEnter] and
    [EvExit] bracket a call of the comment-posting collaborator. *)
Inductive Event : Type :=
| EvSleep (ms : Z)
| EvRequest (r : Request)
| EvEnter (callee : string) (arg : Z)
| EvExit (callee : string) (arg : Z).

Section Monad.
Variable S : Type.

(** A computation takes the state of the outside world (the remote
    repository, the clock) and yields its outcome, the new state and
    the events it caused. *)
Definition M (A : Type) : Type := S -> Outcome A * S * list Event.

Definition ret {A} (a : A) : M A := fun s => (Ok a, s, []).

Definition throw {A} (e : JsValue) : M A := fun s => (Throw e, s, []).

Definition bind {A B} (m : M A) (k : A -> M B) : M B :=
  fun s =>
    match m s with
    | (Ok a, s1, t1) =>
        let '(r, s2, t2) := k a s1 in (r, s2, t1 ++ t2)
    | (Throw e, s1, t1) => (Throw e, s1, t1)
    end.

(** [try { m } catch (err) { h err }]. *)
Definition try_catch {A} (m : M A) (h : JsValue -> M A) : M A :=
  fun s =>
    match m s with
    | (Ok a, s1, t1) => (Ok a, s1, t1)
    | (Throw e, s1, t1) =>
        let '(r, s2, t2) := h e s1 in (r, s2, t1 ++ t2)
    end.

Definition emit (ev : Event) : M unit := fun s => (Ok tt, s, [ev]).

End Monad.

Arguments ret {S A} a.
Arguments throw {S A} e.
Arguments bind {S A B} m k.
Arguments try_catch {S A} m h.
Arguments emit {S} ev.

Declare Scope async_scope.
Delimit Scope async_scope with async.
Notation "x <- m ;; k" := (bind m (fun x => k))
  (at level 61, m at next level, right associativity) : async_scope.
Notation "m ;; k" := (bind m (fun _ => k))
  (at level 61, right associativity) : async_scope.

Definition outcome {S A} (r : Outcome A * S * list Event) : Outcome A :=
  fst (fst r).
Definition final {S A} (r : Outcome A * S * list Event) : S :=
  snd (fst r).
Definition trace {S A} (r : Outcome A * S * list Event) : list Event :=
  snd r.

End Async.

(* ===================================================================== *)
(** ** The outside world                                                  *)
(* ===================================================================== *)

Module World.
Import Js Async.

(** An ISO-8601 timestamp string ([created_at], [new Date().toISOString()]),
    represented by the instant it denotes, in milliseconds since the epoch:
    what [new Date(s).getTime()] returns for it. A string that [Date] cannot
    parse denotes no instant and is not a timestamp. *)
Definition ISOTimestamp : Type := Z.

Definition Date_getTime (t : ISOTimestamp) : Z := t.

(** Response payloads ([data]) of the endpoints used. *)
Record CommentData : Type := {
  data_id : Z;
  data_created_at : option ISOTimestamp   (* [created_at ?? ...] *)
}.

Record MergeData : Type := { data_sha : string }.

(** [mergeable] is [true], [false] or [null]. *)
Record PullData : Type := { data_mergeable : option bool }.

(** Everything outside the program, over a state [S]: the Octokit endpoints
    (each may reject), the passage of time during a [setTimeout], the clock
    and [Math.random]. *)
Record Env (S : Type) : Type := {
  issues_createComment : Z -> string -> S -> Outcome CommentData * S;
  pulls_merge : Z -> string -> string -> string -> S -> Outcome MergeData * S;
  pulls_get : Z -> S -> Outcome PullData * S;
  git_deleteRef : string -> S -> Outcome unit * S;
  elapse : Z -> S -> S;
  clock : S -> ISOTimestamp;
  (** [Math.floor(Math.random() * n)] *)
  random_below : nat -> S -> nat * S
}.

Arguments issues_createComment {S} _ _ _ _.
Arguments pulls_merge {S} _ _ _ _ _ _.
Arguments pulls_get {S} _ _ _.
Arguments git_deleteRef {S} _ _ _.
Arguments elapse {S} _ _ _.
Arguments clock {S} _ _.
Arguments random_below {S} _ _ _.

(** The process-wide configuration, as far as the merge manager reads it. *)
Record OrchestratorConfig : Type := {
  autoMerge : bool;
  yoloMode : bool
}.

End World.

(* ===================================================================== *)
(** ** utils.ts                                                           *)
(* ===================================================================== *)

Module Utils.
Import Js Async World.
Local Open Scope string_scope.
Local Open Scope async_scope.

Section Utils.
Context {S : Type} (env : Env S).

(** [sleep(ms)]: resolves after [ms] milliseconds. *)
Definition sleep (ms : Z) : M S unit :=
  fun s => (Ok tt, elapse env ms s, [EvSleep ms]).

(** [nowISO()] *)
Definition nowISO : M S ISOTimestamp :=
  fun s => (Ok (clock env s), s, []).

Definition COMMENTS : list string :=
  [ "Looks good to me — clean implementation. Nice work!";
    "I reviewed the changes and everything looks solid. Ready to merge.";
    "Thanks for tackling this. The refactor makes the code much easier to follow.";
    "One minor thought: we might want to add a comment explaining the retry ceiling, but it's fine as-is too.";
    "LGTM. The validation messages are really helpful for onboarding new contributors.";
    "Tested locally and confirmed the fix works as expected. Ship it!";
    "Appreciate the thorough PR description — makes the review a breeze.";
    "Great improvement to the logging output. This will save debugging time." ].

(** [pickRandom(items)]; the index drawn is below [items.length]. *)
Definition pickRandom (items : list string) : M S string :=
  match items with
  | [] => throw (Error "pickRandom called with empty array")
  | _ =>
      fun s =>
        let '(i, s1) := random_below env (List.length items) s in
        (Ok (nth i items ""), s1, [])
  end.

Definition getRandomComment : M S string := pickRandom COMMENTS.

End Utils.
End Utils.

(* ===================================================================== *)
(** ** githubClient.ts                                                    *)
(* ===================================================================== *)

Module GithubClient.
Import Js Async World Utils.
Local Open Scope string_scope.
Local Open Scope async_scope.

(** Check whether an Octokit error is a rate-limit response. *)
Definition isRateLimited (err : JsValue) : bool :=
  if negb (typeof_object err) || is_null err then false
  else
    let status := get err "status" in
    strict_eq_num status 403 || strict_eq_num status 429.

Definition DEFAULT_WAIT : Z := 60000.

(** Extract Retry-After (or a sensible default) from a rate-limit error. *)
Definition retryAfterMs (err : JsValue) : Z :=
  if negb (typeof_object err) || is_null err then DEFAULT_WAIT
  else
    let headers := get err "response" in
    if negb (truthy headers) then DEFAULT_WAIT
    else
      let raw := get headers "retry-after" in
      match raw with
      | JStr raw_s =>
          let seconds := parseInt raw_s in
          if Number_isFinite seconds
          then match seconds with
               | Some n => to_Number (n * 1000)
               | None => DEFAULT_WAIT
               end
          else DEFAULT_WAIT
      | _ => DEFAULT_WAIT
      end.

Section Client.
Context {S : Type} (env : Env S).

(** Execute a call; on a rate-limit failure wait and retry once. *)
Definition withRateLimit {T : Type} (label : string) (fn : M S T) : M S T :=
  try_catch fn (fun err =>
    if isRateLimited err then
      let waitMs := retryAfterMs err in
      sleep env waitMs ;;
      fn (* single retry *)
    else throw err).

(** The Octokit endpoints as computations: one request event each. *)
Definition octokit_issues_createComment (issue_number : Z) (body : string)
  : M S CommentData :=
  fun s =>
    let '(r, s1) := issues_createComment env issue_number body s in
    (r, s1, [EvRequest (IssuesCreateComment issue_number body)]).

Definition octokit_pulls_merge (pull_number : Z)
    (merge_method commit_title commit_message : string) : M S MergeData :=
  fun s =>
    let '(r, s1) :=
      pulls_merge env pull_number merge_method commit_title commit_message s in
    (r, s1,
     [EvRequest (PullsMerge pull_number merge_method commit_title commit_message)]).

Definition octokit_pulls_get (pull_number : Z) : M S PullData :=
  fun s =>
    let '(r, s1) := pulls_get env pull_number s in
    (r, s1, [EvRequest (PullsGet pull_number)]).

Definition octokit_git_deleteRef (ref : string) : M S unit :=
  fun s =>
    let '(r, s1) := git_deleteRef env ref s in
    (r, s1, [EvRequest (GitDeleteRef ref)]).

(** Delete a branch; failures are swallowed. *)
Definition deleteBranch (branchName : string) : M S unit :=
  try_catch (octokit_git_deleteRef ("heads/" ++ branchName))
    (fun _ => ret tt).

End Client.
End GithubClient.

(* ===================================================================== *)
(** ** commentManager.ts                                                  *)
(* ===================================================================== *)

Module CommentManager.
Import Js Async World Utils GithubClient.
Local Open Scope string_scope.
Local Open Scope async_scope.

(** Metadata returned after posting a comment. *)
Record PostedComment : Type := {
  id : Z;
  targetNumber : Z;
  isPR : bool;
  createdAt : ISOTimestamp
}.

(** Marks the events of one call of a collaborator: entered, then whatever
    the body does, then left (by returning or by throwing). *)
Definition bracket {S A : Type} (callee : string) (arg : Z) (body : M S A)
  : M S A :=
  fun s =>
    let '(r, s1, t) := body s in
    (r, s1, EvEnter callee arg :: t ++ [EvExit callee arg]).

Section Comments.
Context {S : Type} (env : Env S).

(** Post a review comment on a pull request (as a regular issue comment). *)
Definition commentOnPR (prNumber : Z) : M S PostedComment :=
  bracket "commentOnPR" prNumber (
    body <- getRandomComment env ;;
    data <- withRateLimit env "comment-pr"
              (octokit_issues_createComment env prNumber body) ;;
    created <- match data_created_at data with
               | Some t => ret t
               | None => nowISO env
               end ;;
    ret {| id := data_id data;
           targetNumber := prNumber;
           isPR := true;
           createdAt := created |}).

End Comments.
End CommentManager.

(* ===================================================================== *)
(** ** mergeManager.ts                                                    *)
(* ===================================================================== *)

Module MergeManager.
Import Js Async World Utils GithubClient CommentManager.
Local Open Scope string_scope.
Local Open Scope async_scope.

(** Result metadata after a merge operation. *)
Record MergeResult : Type := {
  prNumber : Z;
  mergeSha : string;
  yolo : bool;
  mergedAt : ISOTimestamp;
  deletedBranch : string
}.

Definition MAX_ATTEMPTS : nat := 5.
Definition DELAY_MS : Z := 3000.

Section Merge.
Context {S : Type} (env : Env S) (config : OrchestratorConfig).

(** Merge a pull request, optionally exercising the YOLO path.
    [yolo_arg] is the optional third argument: [None] when omitted. *)
Definition mergePullRequest (prNumber : Z) (branchName : string)
    (yolo_arg : option bool) : M S MergeResult :=
  let useYolo := match yolo_arg with
                 | Some b => b
                 | None => yoloMode config
                 end in
  (if negb useYolo then
     sleep env 1500 ;;
     _ <- commentOnPR env prNumber ;;
     ret tt
   else ret tt) ;;
  sleep env 1000 ;;
  data <- withRateLimit env "merge-pr"
            (octokit_pulls_merge env prNumber "squash"
               ("merge: PR #" ++ string_of_Z prNumber)
               (if useYolo then "Merged without review (YOLO)."
                else "Merged after review.")) ;;
  deleteBranch env branchName ;;
  now <- nowISO env ;;
  ret {| prNumber := prNumber;
         mergeSha := data_sha data;
         yolo := useYolo;
         mergedAt := now;
         deletedBranch := branchName |}.

(** The body of the [for] loop of [isMergeable] with [remaining] attempts
    left, [remaining = MAX_ATTEMPTS + 1 - attempt]; with none left the loop
    is over and the conservative default is returned. *)
Fixpoint isMergeable_loop (remaining : nat) (prNumber : Z) : M S bool :=
  match remaining with
  | O => ret false
  | Datatypes.S remaining' =>
      data <- withRateLimit env "check-mergeable"
                (octokit_pulls_get env prNumber) ;;
      match data_mergeable data with
      | Some true => ret true
      | Some false => ret false
      | None =>
          sleep env DELAY_MS ;;
          isMergeable_loop remaining' prNumber
      end
  end.

(** Check whether a PR is currently mergeable. *)
Definition isMergeable (prNumber : Z) : M S bool :=
  isMergeable_loop MAX_ATTEMPTS prNumber.

End Merge.
End MergeManager.

(* ===================================================================== *)
(** ** analytics.ts                                                       *)
(* ===================================================================== *)

Module Analytics.
Import Js Async World.

(** Mutable counters populated during the current orchestrator run. *)
Module RunAccumulator.
Record t : Type := mk {
  startedAt : ISOTimestamp;
  issuesCreated : Z;
  issuesClosed : Z;
  prsOpened : Z;
  prsMerged : Z;
  yoloMerges : Z;
  commentsPosted : Z;
  coAuthoredCommits : Z;
  issueToFirstCommentMs : list Z;
  prOpenToMergeMs : list Z
}.
End RunAccumulator.

(** A single orchestrated run's record. *)
Module RunRecord.
Record t : Type := mk {
  startedAt : ISOTimestamp;
  finishedAt : ISOTimestamp;
  issuesCreated : Z;
  issuesClosed : Z;
  prsOpened : Z;
  prsMerged : Z;
  yoloMerges : Z;
  commentsPosted : Z;
  coAuthoredCommits : Z;
  issueToFirstCommentMs : list Z;
  prOpenToMergeMs : list Z
}.
End RunRecord.

(** Root analytics structure persisted to disk. *)
Record AnalyticsData : Type := {
  version : Z;
  runs : list RunRecord.t
}.

(** What the file at [config.analyticsPath] holds when it exists: text that
    parses to the schema, or anything else (unreadable, not JSON, [runs] not
    an array). *)
Inductive FileContent : Type :=
| Json (parsed : AnalyticsData)
| Garbage.

(** The module-level variable [current] and the analytics file. *)
Record State : Type := {
  current : option RunAccumulator.t;
  file : option FileContent
}.

(** *** Lifecycle *)

Definition emptyData : AnalyticsData := {| version := 1; runs := [] |}.

Definition loadPersistedData (st : State) : AnalyticsData :=
  match file st with
  | Some (Json parsed) =>
      if negb (version parsed =? 0) then parsed else emptyData
  | Some Garbage => emptyData
  | None => emptyData
  end.

Definition savePersistedData (data : AnalyticsData) (st : State) : State :=
  {| current := current st; file := Some (Json data) |}.

(** Begin tracking a new run. [now] is the clock reading
    [new Date().toISOString()] of the call. *)
Definition startRun (now : ISOTimestamp) (st : State) : Outcome unit * State :=
  (Ok tt,
   {| current := Some (RunAccumulator.mk now 0 0 0 0 0 0 0 [] []);
      file := file st |}).

(** Finalise the current run, persist, and return the record. *)
Definition endRun (now : ISOTimestamp) (st : State)
  : Outcome RunRecord.t * State :=
  match current st with
  | None => (Throw (Error "endRun called before startRun"%string), st)
  | Some c =>
      let record :=
        RunRecord.mk
          (RunAccumulator.startedAt c) now
          (RunAccumulator.issuesCreated c) (RunAccumulator.issuesClosed c)
          (RunAccumulator.prsOpened c) (RunAccumulator.prsMerged c)
          (RunAccumulator.yoloMerges c) (RunAccumulator.commentsPosted c)
          (RunAccumulator.coAuthoredCommits c)
          (RunAccumulator.issueToFirstCommentMs c)
          (RunAccumulator.prOpenToMergeMs c) in
      let allData := loadPersistedData st in
      let allData :=
        {| version := version allData; runs := runs allData ++ [record] |} in
      let st := savePersistedData allData st in
      (Ok record, {| current := None; file := file st |})
  end.

(** *** Recording helpers *)

Import RunAccumulator.

Definition ensureRunning (st : State) : Outcome RunAccumulator.t :=
  match current st with
  | None =>
      Throw (Error
        "Analytics: no run in progress. Call startRun() first."%string)
  | Some c => Ok c
  end.

(** [ensureRunning().f ...]: the update [upd] is applied in place to the
    in-flight accumulator, or the error of [ensureRunning] propagates. *)
Definition on_current (upd : RunAccumulator.t -> RunAccumulator.t)
    (st : State) : Outcome unit * State :=
  match ensureRunning st with
  | Ok acc => (Ok tt, {| current := Some (upd acc); file := file st |})
  | Throw e => (Throw e, st)
  end.

Definition incr_issuesCreated (a : RunAccumulator.t) : RunAccumulator.t :=
  mk (startedAt a) (issuesCreated a + 1) (issuesClosed a) (prsOpened a)
     (prsMerged a) (yoloMerges a) (commentsPosted a) (coAuthoredCommits a)
     (issueToFirstCommentMs a) (prOpenToMergeMs a).

Definition incr_issuesClosed (a : RunAccumulator.t) : RunAccumulator.t :=
  mk (startedAt a) (issuesCreated a) (issuesClosed a + 1) (prsOpened a)
     (prsMerged a) (yoloMerges a) (commentsPosted a) (coAuthoredCommits a)
     (issueToFirstCommentMs a) (prOpenToMergeMs a).

Definition incr_prsOpened (a : RunAccumulator.t) : RunAccumulator.t :=
  mk (startedAt a) (issuesCreated a) (issuesClosed a) (prsOpened a + 1)
     (prsMerged a) (yoloMerges a) (commentsPosted a) (coAuthoredCommits a)
     (issueToFirstCommentMs a) (prOpenToMergeMs a).

Definition incr_prsMerged (a : RunAccumulator.t) : RunAccumulator.t :=
  mk (startedAt a) (issuesCreated a) (issuesClosed a) (prsOpened a)
     (prsMerged a + 1) (yoloMerges a) (commentsPosted a) (coAuthoredCommits a)
     (issueToFirstCommentMs a) (prOpenToMergeMs a).

Definition incr_yoloMerges (a : RunAccumulator.t) : RunAccumulator.t :=
  mk (startedAt a) (issuesCreated a) (issuesClosed a) (prsOpened a)
     (prsMerged a) (yoloMerges a + 1) (commentsPosted a) (coAuthoredCommits a)
     (issueToFirstCommentMs a) (prOpenToMergeMs a).

Definition incr_commentsPosted (a : RunAccumulator.t) : RunAccumulator.t :=
  mk (startedAt a) (issuesCreated a) (issuesClosed a) (prsOpened a)
     (prsMerged a) (yoloMerges a) (commentsPosted a + 1) (coAuthoredCommits a)
     (issueToFirstCommentMs a) (prOpenToMergeMs a).

Definition incr_coAuthoredCommits (a : RunAccumulator.t) : RunAccumulator.t :=
  mk (startedAt a) (issuesCreated a) (issuesClosed a) (prsOpened a)
     (prsMerged a) (yoloMerges a) (commentsPosted a) (coAuthoredCommits a + 1)
     (issueToFirstCommentMs a) (prOpenToMergeMs a).

Definition push_issueToFirstCommentMs (x : Z) (a : RunAccumulator.t)
  : RunAccumulator.t :=
  mk (startedAt a) (issuesCreated a) (issuesClosed a) (prsOpened a)
     (prsMerged a) (yoloMerges a) (commentsPosted a) (coAuthoredCommits a)
     (issueToFirstCommentMs a ++ [x]) (prOpenToMergeMs a).

Definition push_prOpenToMergeMs (x : Z) (a : RunAccumulator.t)
  : RunAccumulator.t :=
  mk (startedAt a) (issuesCreated a) (issuesClosed a) (prsOpened a)
     (prsMerged a) (yoloMerges a) (commentsPosted a) (coAuthoredCommits a)
     (issueToFirstCommentMs a) (prOpenToMergeMs a ++ [x]).

Definition recordIssueCreated : State -> Outcome unit * State :=
  on_current incr_issuesCreated.

Definition recordIssueClosed : State -> Outcome unit * State :=
  on_current incr_issuesClosed.

Definition recordPROpened : State -> Outcome unit * State :=
  on_current incr_prsOpened.

Definition recordPRMerged (yolo : bool) : State -> Outcome unit * State :=
  on_current (fun acc =>
    let acc := incr_prsMerged acc in
    if yolo then incr_yoloMerges acc else acc).

Definition recordCommentPosted : State -> Outcome unit * State :=
  on_current incr_commentsPosted.

Definition recordCoAuthoredCommit : State -> Outcome unit * State :=
  on_current incr_coAuthoredCommits.

(** Record the latency between issue creation and first comment. *)
Definition recordIssueToComment (issueCreatedAt commentCreatedAt : ISOTimestamp)
  : State -> Outcome unit * State :=
  let ms := Date_getTime commentCreatedAt - Date_getTime issueCreatedAt in
  on_current (push_issueToFirstCommentMs (Z.max ms 0)).

(** Record the latency between PR open and merge. *)
Definition recordPRToMerge (prCreatedAt mergedAt : ISOTimestamp)
  : State -> Outcome unit * State :=
  let ms := Date_getTime mergedAt - Date_getTime prCreatedAt in
  on_current (push_prOpenToMergeMs (Z.max ms 0)).

(** *** Reporting *)

(** Aggregate statistics across all historical runs. *)
Record AggregateStats : Type := {
  totalRuns : Z;
  totalIssuesCreated : Z;
  totalIssuesClosed : Z;
  totalPRsOpened : Z;
  totalPRsMerged : Z;
  totalYoloMerges : Z;
  totalComments : Z;
  totalCoAuthoredCommits : Z;
  avgIssueToCommentMs : Q;
  avgPRToMergeMs : Q
}.

(** [nums.reduce((a, b) => a + b, 0)] *)
Definition sum (nums : list Z) : Z :=
  fold_left (fun a b => a + b) nums 0.

Definition avg (nums : list Z) : Q :=
  if Nat.eqb (List.length nums) 0 then 0%Q
  else Qdiv (inject_Z (sum nums)) (inject_Z (Z.of_nat (List.length nums))).

(** Compute aggregate stats from persisted data. *)
Definition getAggregateStats (st : State) : AggregateStats :=
  let data := loadPersistedData st in
  let runs := runs data in
  let allIssueToComment := flat_map RunRecord.issueToFirstCommentMs runs in
  let allPRToMerge := flat_map RunRecord.prOpenToMergeMs runs in
  {| totalRuns := Z.of_nat (List.length runs);
     totalIssuesCreated := sum (map RunRecord.issuesCreated runs);
     totalIssuesClosed := sum (map RunRecord.issuesClosed runs);
     totalPRsOpened := sum (map RunRecord.prsOpened runs);
     totalPRsMerged := sum (map RunRecord.prsMerged runs);
     totalYoloMerges := sum (map RunRecord.yoloMerges runs);
     totalComments := sum (map RunRecord.commentsPosted runs);
     totalCoAuthoredCommits := sum (map RunRecord.coAuthoredCommits runs);
     avgIssueToCommentMs := avg allIssueToComment;
     avgPRToMergeMs := avg allPRToMerge |}.

(** [Math.round]: the nearest integer, halves towards plus infinity. *)
Definition Math_round (x : Q) : Z := Qfloor (Qplus x (1 # 2)).

Definition formatMs (ms : Q) : string :=
  if Qeq_bool ms 0 then "n/a"%string
  else
    let seconds := Math_round (Qdiv ms (inject_Z 1000)) in
    if seconds <? 60 then (string_of_Z seconds ++ "s")%string
    else
      let minutes := seconds / 60 in
      let remaining := Z.rem seconds 60 in
      (string_of_Z minutes ++ "m " ++ string_of_Z remaining ++ "s")%string.



End Analytics.

(* ===================================================================== *)
(** ** Vocabulary of the properties                                       *)
(* ===================================================================== *)

Module Props.
Import Js Async World Utils GithubClient CommentManager MergeManager.

(** A throttling signal: the failure has a [status] field equal to 403 or
    to 429. *)
Definition throttling (e : JsValue) : Prop :=
  get e "status" = JNum 403 \/ get e "status" = JNum 429.

(** *** Observations on traces *)

Definition is_sleep (ev : Event) : bool :=
  match ev with EvSleep _ => true | _ => false end.

Definition is_poll (ev : Event) : bool :=
  match ev with EvRequest (PullsGet _) => true | _ => false end.

Definition is_merge_request (ev : Event) : bool :=
  match ev with EvRequest (PullsMerge _ _ _ _) => true | _ => false end.

(** The comment-posting collaborator is entered. *)
Definition is_comment_call (ev : Event) : bool :=
  match ev with
  | EvEnter callee _ => String.eqb callee "commentOnPR"
  | _ => false
  end.

(** Any sign of comment posting: the collaborator entered or left, or a
    comment request sent. *)
Definition is_comment_event (ev : Event) : bool :=
  match ev with
  | EvEnter callee _ | EvExit callee _ => String.eqb callee "commentOnPR"
  | EvRequest (IssuesCreateComment _ _) => true
  | _ => false
  end.

Definition count (p : Event -> bool) (tr : list Event) : nat :=
  List.length (filter p tr).

Definition absent (p : Event -> bool) (tr : list Event) : Prop :=
  filter p tr = [].

(** The policy in force for one call of [mergePullRequest]: the call-site
    flag when given, else the process-wide default. *)
Definition effective_yolo (yolo_arg : option bool)
    (config : OrchestratorConfig) : bool :=
  match yolo_arg with
  | Some b => b
  | None => yoloMode config
  end.

(** The tri-state of one poll. *)
Inductive Mergeability : Type := Mergeable | NotMergeable | Unknown.

Definition mergeability_of (d : PullData) : Mergeability :=
  match data_mergeable d with
  | Some true => Mergeable
  | Some false => NotMergeable
  | None => Unknown
  end.

Definition decisive (m : Mergeability) : Prop := m <> Unknown.

Definition answer (m : Mergeability) : bool :=
  match m with Mergeable => true | _ => false end.

Section Polls.
Context {S : Type} (env : Env S).

(** From state [s], successive polls of pull request [pr], each followed
    by the pause the poller makes after an undecided poll, yield the
    results [l] in this order. *)
Fixpoint polls_yield (pr : Z) (l : list Mergeability) (s : S) : Prop :=
  match l with
  | [] => True
  | m :: l' =>
      exists d s1,
        pulls_get env pr s = (Ok d, s1) /\
        mergeability_of d = m /\
        polls_yield pr l' (elapse env DELAY_MS s1)
  end.

End Polls.

(** The events of [k] undecided polls of [pr]: a request, then the pause. *)
Fixpoint undecided_rounds (pr : Z) (k : nat) : list Event :=
  match k with
  | O => []
  | Datatypes.S k' =>
      EvRequest (PullsGet pr) :: EvSleep DELAY_MS :: undecided_rounds pr k'
  end.

(** No run of [m] causes an event selected by [p]. *)
Definition quiet {S A : Type} (p : Event -> bool) (m : M S A) : Prop :=
  forall s, absent p (trace (m s)).

End Props.

(* ===================================================================== *)
(** ** A scripted remote, for concrete runs                               *)
(* ===================================================================== *)

Module Scripted.
Import Js Async World.

(** What the remote answers to the next request, whatever it is. *)
Inductive Reply : Type :=
| Accept (mergeable : option bool)
| Reject (e : JsValue).

(** The state of the scripted remote: the replies still to give, and the
    time slept so far. Once the script is used up every request is
    accepted. *)
Record Remote : Type := {
  script : list Reply;
  slept : Z
}.

Definition next {A : Type} (payload : option bool -> A) (s : Remote)
  : Outcome A * Remote :=
  match script s with
  | [] => (Ok (payload None), s)
  | Accept m :: rest => (Ok (payload m), {| script := rest; slept := slept s |})
  | Reject e :: rest => (Throw e, {| script := rest; slept := slept s |})
  end.

Definition env : Env Remote := {|
  issues_createComment := fun _ _ =>
    next (fun _ => {| data_id := 1; data_created_at := None |});
  pulls_merge := fun _ _ _ _ =>
    next (fun _ => {| data_sha := "0a1b2c"%string |});
  pulls_get := fun _ => next (fun m => {| data_mergeable := m |});
  git_deleteRef := fun _ => next (fun _ => tt);
  elapse := fun ms s => {| script := script s; slept := slept s + ms |};
  clock := fun s => slept s;
  random_below := fun _ s => (0%nat, s)
|}.

Definition start (replies : list Reply) : Remote :=
  {| script := replies; slept := 0 |}.

(** An Octokit request error as the HTTP client builds it: the response,
    with its headers, sits under [response]. *)
Definition request_error (status : Z) (headers : list (string * JsValue))
  : JsValue :=
  JObj [ ("name"%string, JStr "HttpError");
         ("status"%string, JNum status);
         ("response"%string,
            JObj [ ("status"%string, JNum status);
                   ("headers"%string, JObj headers) ]) ].

(** The failure of a throttled request whose response says, in its
    headers, to retry after 30 seconds. *)
Definition throttled_retry_after_30 : JsValue :=
  request_error 429 [("retry-after"%string, JStr "30")].

End Scripted.

Module AnalyticsProps.
Import Js Async World Analytics.
Import RunAccumulator.

(** The [record*] operations, with their arguments. *)
Inductive RecordOp : Type :=
| IssueCreated
| IssueClosed
| PROpened
| PRMerged (yolo : bool)
| CommentPosted
| CoAuthoredCommit
| IssueToComment (issueCreatedAt commentCreatedAt : ISOTimestamp)
| PRToMerge (prCreatedAt mergedAt : ISOTimestamp).

Definition record (op : RecordOp) : State -> Outcome unit * State :=
  match op with
  | IssueCreated => recordIssueCreated
  | IssueClosed => recordIssueClosed
  | PROpened => recordPROpened
  | PRMerged yolo => recordPRMerged yolo
  | CommentPosted => recordCommentPosted
  | CoAuthoredCommit => recordCoAuthoredCommit
  | IssueToComment t1 t2 => recordIssueToComment t1 t2
  | PRToMerge t1 t2 => recordPRToMerge t1 t2
  end.

(** The state after a sequence of recording calls, in order. *)
Definition record_all (ops : list RecordOp) (st : State) : State :=
  fold_left (fun st op => snd (record op st)) ops st.

(** The fields of the in-flight run record. *)
Inductive Field : Type :=
| FStartedAt
| FIssuesCreated
| FIssuesClosed
| FPrsOpened
| FPrsMerged
| FYoloMerges
| FCommentsPosted
| FCoAuthoredCommits
| FIssueToFirstCommentMs
| FPrOpenToMergeMs.

Definition all_fields : list Field :=
  [ FStartedAt; FIssuesCreated; FIssuesClosed; FPrsOpened; FPrsMerged;
    FYoloMerges; FCommentsPosted; FCoAuthoredCommits;
    FIssueToFirstCommentMs; FPrOpenToMergeMs ].

Definition list_eqb (l1 l2 : list Z) : bool :=
  if list_eq_dec Z.eq_dec l1 l2 then true else false.

(** Field [f] holds the same value in [a] and in [b]. *)
Definition same (f : Field) (a b : RunAccumulator.t) : bool :=
  match f with
  | FStartedAt => startedAt a =? startedAt b
  | FIssuesCreated => issuesCreated a =? issuesCreated b
  | FIssuesClosed => issuesClosed a =? issuesClosed b
  | FPrsOpened => prsOpened a =? prsOpened b
  | FPrsMerged => prsMerged a =? prsMerged b
  | FYoloMerges => yoloMerges a =? yoloMerges b
  | FCommentsPosted => commentsPosted a =? commentsPosted b
  | FCoAuthoredCommits => coAuthoredCommits a =? coAuthoredCommits b
  | FIssueToFirstCommentMs =>
      list_eqb (issueToFirstCommentMs a) (issueToFirstCommentMs b)
  | FPrOpenToMergeMs => list_eqb (prOpenToMergeMs a) (prOpenToMergeMs b)
  end.

(** The fields whose value differs between [a] and [b]. *)
Definition changed (a b : RunAccumulator.t) : list Field :=
  filter (fun f => negb (same f a b)) all_fields.

(** The fields an operation writes. *)
Definition written (op : RecordOp) : list Field :=
  match op with
  | IssueCreated => [FIssuesCreated]
  | IssueClosed => [FIssuesClosed]
  | PROpened => [FPrsOpened]
  | PRMerged false => [FPrsMerged]
  | PRMerged true => [FPrsMerged; FYoloMerges]
  | CommentPosted => [FCommentsPosted]
  | CoAuthoredCommit => [FCoAuthoredCommits]
  | IssueToComment _ _ => [FIssueToFirstCommentMs]
  | PRToMerge _ _ => [FPrOpenToMergeMs]
  end.

(** What an operation writes into the fields it writes: [b] has 1 more than
    [a] in the counter, or the latency of the call, clamped at 0, as one
    more entry at the end of the sequence. *)
Definition effect (op : RecordOp) (a b : RunAccumulator.t) : Prop :=
  match op with
  | IssueCreated => issuesCreated b = issuesCreated a + 1
  | IssueClosed => issuesClosed b = issuesClosed a + 1
  | PROpened => prsOpened b = prsOpened a + 1
  | PRMerged false => prsMerged b = prsMerged a + 1
  | PRMerged true =>
      prsMerged b = prsMerged a + 1 /\ yoloMerges b = yoloMerges a + 1
  | CommentPosted => commentsPosted b = commentsPosted a + 1
  | CoAuthoredCommit => coAuthoredCommits b = coAuthoredCommits a + 1
  | IssueToComment issueCreatedAt commentCreatedAt =>
      issueToFirstCommentMs b
        = issueToFirstCommentMs a
            ++ [Z.max (Date_getTime commentCreatedAt
                         - Date_getTime issueCreatedAt) 0]
  | PRToMerge prCreatedAt mergedAt =>
      prOpenToMergeMs b
        = prOpenToMergeMs a
            ++ [Z.max (Date_getTime mergedAt - Date_getTime prCreatedAt) 0]
  end.

(** Every counter and every latency of the record is non-negative. *)
Definition nonneg (a : RunAccumulator.t) : Prop :=
  0 <= issuesCreated a /\ 0 <= issuesClosed a /\ 0 <= prsOpened a /\
  0 <= prsMerged a /\ 0 <= yoloMerges a /\ 0 <= commentsPosted a /\
  0 <= coAuthoredCommits a /\
  Forall (fun x => 0 <= x) (issueToFirstCommentMs a) /\
  Forall (fun x => 0 <= x) (prOpenToMergeMs a).

(** The sum of a field over the run records. *)
Fixpoint total (f : RunRecord.t -> Z) (rs : list RunRecord.t) : Z :=
  match rs with
  | [] => 0
  | r :: rs' => f r + total f rs'
  end.

Fixpoint sigma (l : list Z) : Z :=
  match l with
  | [] => 0
  | x :: l' => x + sigma l'
  end.

(** [q] is the arithmetic mean of [l], and 0 when [l] is empty. *)
Definition mean_of (l : list Z) (q : Q) : Prop :=
  match l with
  | [] => Qeq q 0
  | _ => Qeq (Qmult q (inject_Z (Z.of_nat (List.length l))))
             (inject_Z (sigma l))
  end.

(** The statistics [a] are those of the run records [rs]. *)
Definition stats_of (rs : list RunRecord.t) (a : AggregateStats) : Prop :=
  totalRuns a = Z.of_nat (List.length rs) /\
  totalIssuesCreated a = total RunRecord.issuesCreated rs /\
  totalIssuesClosed a = total RunRecord.issuesClosed rs /\
  totalPRsOpened a = total RunRecord.prsOpened rs /\
  totalPRsMerged a = total RunRecord.prsMerged rs /\
  totalYoloMerges a = total RunRecord.yoloMerges rs /\
  totalComments a = total RunRecord.commentsPosted rs /\
  totalCoAuthoredCommits a = total RunRecord.coAuthoredCommits rs /\
  mean_of (concat (map RunRecord.issueToFirstCommentMs rs))
          (avgIssueToCommentMs a) /\
  mean_of (concat (map RunRecord.prOpenToMergeMs rs)) (avgPRToMergeMs a).

(** The run record [r] carries the counters and latencies of the
    accumulator [c]. *)
Definition finalises (c : RunAccumulator.t) (r : RunRecord.t) : Prop :=
  RunRecord.startedAt r = startedAt c /\
  RunRecord.issuesCreated r = issuesCreated c /\
  RunRecord.issuesClosed r = issuesClosed c /\
  RunRecord.prsOpened r = prsOpened c /\
  RunRecord.prsMerged r = prsMerged c /\
  RunRecord.yoloMerges r = yoloMerges c /\
  RunRecord.commentsPosted r = commentsPosted c /\
  RunRecord.coAuthoredCommits r = coAuthoredCommits c /\
  RunRecord.issueToFirstCommentMs r = issueToFirstCommentMs c /\
  RunRecord.prOpenToMergeMs r = prOpenToMergeMs c.

(** A state with nothing on disk and a run in flight that has seen one
    issue. *)
Definition one_issue_in_flight : State :=
  snd (recordIssueCreated
         (snd (startRun 1000 {| current := None; file := None |}))).

(** A state with nothing on disk and a run just started. *)
Definition fresh_run : State :=
  snd (startRun 1000 {| current := None; file := None |}).

(** A store of two runs, the second without any latency. *)
Definition two_runs : AnalyticsData :=
  {| version := 1;
     runs := [ RunRecord.mk 1000 9000 2 2 2 2 1 4 0 [1200; 800] [3000];
               RunRecord.mk 20000 21000 1 0 1 0 0 2 1 [] [] ] |}.

End AnalyticsProps.

From Stdlib Require Import DecimalPos.

(* ===================================================================== *)
(** ** String helpers of the JavaScript runtime                           *)
(* ===================================================================== *)

(** A string is a sequence of code units; the strings of this development
    hold the code units below 256 (ASCII and the Latin-1 supplement), one
    per character. On these, [trim] and [toLowerCase] below are those of
    the runtime. *)
Module Text.
Import Js.

Definition chars (s : string) : list ascii := list_ascii_of_string s.
Definition of_chars (l : list ascii) : string := string_of_list_ascii l.

Fixpoint drop_while (p : ascii -> bool) (l : list ascii) : list ascii :=
  match l with
  | c :: rest => if p c then drop_while p rest else l
  | [] => []
  end.

(** [l] without its longest suffix of characters selected by [p]. *)
Definition drop_while_end (p : ascii -> bool) (l : list ascii) : list ascii :=
  rev (drop_while p (rev l)).

(** [s.trim()] *)
Definition trim (s : string) : string :=
  of_chars (drop_while_end is_white (drop_while is_white (chars s))).

(** The lower-case mapping of a code unit below 256: the letters A to Z
    and the Latin-1 capitals U+00C0 to U+00DE (the multiplication sign
    U+00D7 apart) move up by 32; every other code unit is kept. *)
Definition lower (c : ascii) : ascii :=
  let n := nat_of_ascii c in
  if (Nat.leb 65 n && Nat.leb n 90)
     || (Nat.leb 192 n && Nat.leb n 222 && negb (Nat.eqb n 215))
  then ascii_of_nat (n + 32) else c.

(** [s.toLowerCase()]. Code units from 256 on are outside these strings;
    among them the runtime maps a few to ASCII letters (U+212A to k) or to
    two code units (U+0130), so the length of the result is that of the
    lowered text, not of the text. *)
Definition toLowerCase (s : string) : string :=
  of_chars (map lower (chars s)).

(** [s.substring(0, n)] *)
Definition substring_to (n : nat) (s : string) : string :=
  of_chars (firstn n (chars s)).

(** [words.includes(s)] *)
Definition includes (words : list string) (s : string) : bool :=
  existsb (String.eqb s) words.

End Text.

(* ===================================================================== *)
(** ** config.ts                                                          *)
(* ===================================================================== *)

Module Config.
Import Js Async Text.
Local Open Scope string_scope.

(** [process.env] once dotenv has run: a variable is unset or has a
    value. *)
Definition ProcessEnv : Type := string -> option string.

Record OrchestratorConfig : Type := {
  githubToken : string;
  owner : string;
  repo : string;
  coAuthorName : string;
  coAuthorEmail : string;
  branchPrefix : string;
  maxIssuesPerRun : Z;
  maxPrsPerRun : Z;
  autoMerge : bool;
  yoloMode : bool;
  analyticsPath : string;
  logLevel : string
}.

Section Env.
Variable process_env : ProcessEnv.

(** Read an env var, returning [fallback] when the var is unset or empty.
    The second argument is optional in the source and defaults to the empty
    string. *)
Definition env (key : string) (fallback : string) : string :=
  match process_env key with
  | Some v =>
      let value := trim v in
      if negb (String.eqb value "") && Nat.ltb 0 (String.length value)
      then value else fallback
  | None => fallback
  end.

(** Parse a boolean-ish env var ("true", "1", "yes" give true). *)
Definition envBool (key : string) (fallback : bool) : bool :=
  let raw := env key "" in
  if String.eqb raw "" then fallback
  else includes ["true"; "1"; "yes"] (toLowerCase raw).

(** Parse a positive integer env var. *)
Definition envInt (key : string) (fallback : Z) : Z :=
  let raw := env key "" in
  if String.eqb raw "" then fallback
  else
    let parsed := parseInt raw in
    match parsed with
    | Some n => if Number_isFinite parsed && (0 <? n)%Z then n else fallback
    | None => fallback
    end.

(** Build the config, validating that required vars are present.
    [default_analytics_path] is [path.resolve(__dirname, "..", "data",
    "analytics.json")], which depends on where the program is installed. *)
Definition loadConfig (default_analytics_path : string)
  : Outcome OrchestratorConfig :=
  let githubToken := env "GITHUB_TOKEN" "" in
  let owner := env "GITHUB_OWNER" "" in
  let repo := env "GITHUB_REPO" "" in
  if String.eqb githubToken "" then
    Throw (Error
      "GITHUB_TOKEN is required. Set it in .env or as a repository secret.")
  else if String.eqb owner "" || String.eqb repo "" then
    Throw (Error
      "GITHUB_OWNER and GITHUB_REPO must be set. See .env.example.")
  else
    let logLevel := env "LOG_LEVEL" "info" in
    if negb (includes ["debug"; "info"; "warn"; "error"] logLevel) then
      Throw (Error ("Invalid LOG_LEVEL " ++ String (ascii_of_nat 34) logLevel
                      ++ String (ascii_of_nat 34) "."))
    else
      Ok {| githubToken := githubToken;
            owner := owner;
            repo := repo;
            coAuthorName := env "CO_AUTHOR_NAME" "";
            coAuthorEmail := env "CO_AUTHOR_EMAIL" "";
            branchPrefix := env "BRANCH_PREFIX" "orchestrator/";
            maxIssuesPerRun := envInt "MAX_ISSUES_PER_RUN" 1;
            maxPrsPerRun := envInt "MAX_PRS_PER_RUN" 1;
            autoMerge := envBool "AUTO_MERGE" true;
            yoloMode := envBool "YOLO_MODE" false;
            analyticsPath := env "ANALYTICS_PATH" default_analytics_path;
            logLevel := logLevel |}.

End Env.

(** The part of the configuration the merge manager reads. *)
Definition merge_view (c : OrchestratorConfig) : World.OrchestratorConfig :=
  {| World.autoMerge := autoMerge c; World.yoloMode := yoloMode c |}.

End Config.

(* ===================================================================== *)
(** ** utils.ts: slugs, paths, trailers                                   *)
(* ===================================================================== *)

Module Slug.
Import Js Text.
Local Open Scope string_scope.

(** A character of the class [a-z0-9]. *)
Definition is_slug_char (c : ascii) : bool :=
  let n := nat_of_ascii c in
  (Nat.leb 97 n && Nat.leb n 122) || (Nat.leb 48 n && Nat.leb n 57).

Definition dash : ascii := "-"%char.

Definition is_dash (c : ascii) : bool := Ascii.eqb c dash.

(** [.replace(/[^a-z0-9]+/g, "-")]: every maximal run of other characters
    becomes one dash. [in_run] tells that the previous character was
    already part of such a run. *)
Fixpoint replace_runs (in_run : bool) (l : list ascii) : list ascii :=
  match l with
  | [] => []
  | c :: rest =>
      if is_slug_char c then c :: replace_runs false rest
      else if in_run then replace_runs true rest
      else dash :: replace_runs true rest
  end.

(** [.replace(/^-+|-+$/g, "")] *)
Definition strip_dashes (l : list ascii) : list ascii :=
  drop_while_end is_dash (drop_while is_dash l).

(** Convert a human-readable string into a URL/branch-safe slug. *)
Definition slugify (text : string) : string :=
  of_chars
    (firstn 60
       (strip_dashes (replace_runs false (map lower (chars text))))).

(** Deterministic, meaningful file path for the orchestrator to commit. *)
Definition generatedFilePath (slug : string) : string :=
  "src/generated/" ++ slug ++ ".ts".

Definition ISSUE_TITLES : list string :=
  [ "Refactor utility functions for readability";
    "Add input validation to configuration loader";
    "Improve error messages in API client";
    "Document analytics output format";
    "Add retry logic for transient network failures";
    "Normalise date handling across modules";
    "Extract shared constants into a dedicated file";
    "Add integration test scaffold";
    "Improve logging granularity in orchestrator loop";
    "Review and tighten TypeScript strict mode settings";
    "Add health-check endpoint for monitoring";
    "Reduce cyclomatic complexity in merge manager";
    "Standardise branch naming convention";
    "Update dependencies to latest stable versions";
    "Add CONTRIBUTING.md with development guidelines" ].

(** Builds a Git "Co-authored-by" trailer; empty when co-author info is
    not configured. *)
Definition coAuthorTrailer (config : Config.OrchestratorConfig) : string :=
  let coAuthorName := Config.coAuthorName config in
  let coAuthorEmail := Config.coAuthorEmail config in
  if String.eqb coAuthorName "" || String.eqb coAuthorEmail "" then ""
  else
    String (ascii_of_nat 10) (String (ascii_of_nat 10)
      ("Co-authored-by: " ++ coAuthorName ++ " <" ++ coAuthorEmail ++ ">")).

End Slug.

(* ===================================================================== *)
(** ** utils.ts: logging levels and random integers                       *)
(* ===================================================================== *)

Module Logging.
Import Js.

Definition LOG_LEVELS : list (string * Z) :=
  [ ("debug"%string, 0); ("info"%string, 1); ("warn"%string, 2);
    ("error"%string, 3) ].

Fixpoint level_of (table : list (string * Z)) (name : string) : option Z :=
  match table with
  | [] => None
  | (k, v) :: rest => if String.eqb k name then Some v else level_of rest name
  end.

(** [LOG_LEVELS[config.logLevel] ?? 1] *)
Definition currentLevel (config : Config.OrchestratorConfig) : Z :=
  match level_of LOG_LEVELS (Config.logLevel config) with
  | Some n => n
  | None => 1
  end.

(** The four methods of [log]. *)
Inductive Method : Type := debug | info | warn | error.

(** The guard of each method: whether a call prints. *)
Definition prints (config : Config.OrchestratorConfig) (m : Method) : bool :=
  match m with
  | debug => currentLevel config <=? 0
  | info => currentLevel config <=? 1
  | warn => currentLevel config <=? 2
  | error => currentLevel config <=? 3
  end.

(** The severity of a method and of a level name. *)
Definition severity (m : Method) : Z :=
  match m with debug => 0 | info => 1 | warn => 2 | error => 3 end.

(** Return a random integer in [min, max] (inclusive); [r] is the value of
    [Math.random()]. *)
Definition randomInt (r : Q) (min max : Z) : Z :=
  Qfloor (Qmult r (inject_Z (max - min + 1))) + min.

End Logging.

(* ===================================================================== *)
(** ** commentManager.ts: comments on issues                              *)
(* ===================================================================== *)

Module IssueComments.
Import Js Async World Utils GithubClient CommentManager.
Local Open Scope string_scope.
Local Open Scope async_scope.

Section Comments.
Context {S : Type} (env : Env S).

(** Post a comment on an issue. *)
Definition commentOnIssue (issueNumber : Z) : M S PostedComment :=
  bracket "commentOnIssue" issueNumber (
    body <- getRandomComment env ;;
    data <- withRateLimit env "comment-issue"
              (octokit_issues_createComment env issueNumber body) ;;
    created <- match data_created_at data with
               | Some t => ret t
               | None => nowISO env
               end ;;
    ret {| id := data_id data;
           targetNumber := issueNumber;
           isPR := false;
           createdAt := created |}).

(** Post a "quick response" comment; [delayMs] is optional and defaults
    to 0. *)
Definition quickResponseComment (issueNumber : Z) (delayMs : option Z)
  : M S PostedComment :=
  let delayMs := match delayMs with Some d => d | None => 0 end in
  (if (0 <? delayMs)%Z then sleep env delayMs else ret tt) ;;
  commentOnIssue issueNumber.

End Comments.
End IssueComments.

(* ===================================================================== *)
(** ** index.ts: the orchestrator                                         *)
(* ===================================================================== *)

Module Orchestrator.
Import Js Async World Utils GithubClient CommentManager MergeManager.
Import IssueComments Analytics.
Local Open Scope string_scope.
Local Open Scope async_scope.

(** What [createIssue] returns, as far as the orchestrator reads it. *)
Record CreatedIssue : Type := {
  issue_number : Z;
  issue_title : string;
  issue_createdAt : ISOTimestamp
}.

(** Metadata about a newly opened pull request ([prManager.ts]). *)
Record CreatedPR : Type := {
  pr_number : Z;
  pr_branch : string;
  pr_createdAt : ISOTimestamp;
  pr_htmlUrl : string;
  pr_closesIssue : Z
}.

Section Run.
Context {S : Type} (env : Env S) (config : Config.OrchestratorConfig).

(** The two creation pipelines, [createIssue] of [issueManager.ts] and
    [createPullRequest] of [prManager.ts]: any computations on the remote.
    Neither touches the analytics module. *)
Variable createIssue : M S CreatedIssue.
Variable createPullRequest : Z -> string -> M S CreatedPR.

(** The state of a run: the outside world and the analytics module. *)
Definition RunState : Type := (S * State)%type.

(** A remote computation, run inside the orchestrator. *)
Definition remote {A : Type} (m : M S A) : M RunState A :=
  fun w =>
    let '(r, s1, t) := m (fst w) in (r, (s1, snd w), t).

(** A call into the analytics module. *)
Definition analytics {A : Type} (f : State -> Outcome A * State)
  : M RunState A :=
  fun w =>
    let '(r, st1) := f (snd w) in (r, (fst w, st1), []).

(** A call into the analytics module that reads the clock
    ([new Date().toISOString()]). *)
Definition analytics_now {A : Type}
    (f : ISOTimestamp -> State -> Outcome A * State) : M RunState A :=
  fun w =>
    let '(r, st1) := f (clock env (fst w)) (snd w) in (r, (fst w, st1), []).

(** Single workflow: Issue, Comment, Branch, Commit, PR, Merge. *)
Definition runSingleWorkflow : M RunState unit :=
  issue <- remote createIssue ;;
  analytics recordIssueCreated ;;
  comment <- remote (quickResponseComment env (issue_number issue) None) ;;
  analytics recordCommentPosted ;;
  analytics (recordIssueToComment (issue_createdAt issue) (createdAt comment)) ;;
  remote (sleep env 2000) ;;
  pr <- remote (createPullRequest (issue_number issue) (issue_title issue)) ;;
  analytics recordPROpened ;;
  (if negb (String.eqb (Config.coAuthorName config) "")
      && negb (String.eqb (Config.coAuthorEmail config) "")
   then analytics recordCoAuthoredCommit
   else ret tt) ;;
  remote (sleep env 1500) ;;
  _ <- remote (commentOnPR env (pr_number pr)) ;;
  analytics recordCommentPosted ;;
  if Config.autoMerge config then
    remote (sleep env 3000) ;;
    canMerge <- remote (isMergeable env (pr_number pr)) ;;
    if (canMerge : bool) then
      mergeResult <- remote (mergePullRequest env (Config.merge_view config)
                               (pr_number pr) (pr_branch pr)
                               (Some (Config.yoloMode config))) ;;
      analytics (recordPRMerged (yolo mergeResult)) ;;
      analytics recordIssueClosed ;;
      analytics (recordPRToMerge (pr_createdAt pr) (mergedAt mergeResult))
    else ret tt
  else ret tt.

(** The [for] loop of [main] with [remaining] iterations to go
    ([remaining = iterations - i]): one workflow whose failure is caught,
    then a pause unless this was the last iteration. *)
Fixpoint main_loop (remaining : nat) : M RunState unit :=
  match remaining with
  | O => ret tt
  | Datatypes.S remaining' =>
      try_catch runSingleWorkflow (fun _ => ret tt) ;;
      (if Nat.ltb 0 remaining' then remote (sleep env 3000) else ret tt) ;;
      main_loop remaining'
  end.

(** [Math.min(config.maxIssuesPerRun, config.maxPrsPerRun)] *)
Definition iterations : Z :=
  Z.min (Config.maxIssuesPerRun config) (Config.maxPrsPerRun config).

(** The main orchestration. The console summary and the Markdown report
    that follow [endRun] read the store and write elsewhere; a failure to
    write the report is caught. *)
Definition main : M RunState unit :=
  analytics_now startRun ;;
  main_loop (Z.to_nat iterations) ;;
  record <- analytics_now endRun ;;
  ret tt.

End Run.
End Orchestrator.

(* ===================================================================== *)
(** ** Vocabulary of the further properties                               *)
(* ===================================================================== *)

Module MoreProps.
Import Js Async World Text.

(** [s] neither starts nor ends with white space. *)
Definition trimmed (s : string) : Prop :=
  (forall c rest, chars s = c :: rest -> is_white c = false) /\
  (forall c front, chars s = front ++ [c] -> is_white c = false).

(** No two dashes in a row. *)
Fixpoint no_double_dash (l : list ascii) : Prop :=
  match l with
  | c1 :: rest =>
      match rest with
      | c2 :: _ => ~ (c1 = Slug.dash /\ c2 = Slug.dash)
      | [] => True
      end /\ no_double_dash rest
  | [] => True
  end.

(** A lower-case letter, a digit or a dash. *)
Definition branch_safe (c : ascii) : Prop :=
  Slug.is_slug_char c = true \/ c = Slug.dash.

(** The remote [env] with a log of its polls: [pulls_get] notes the pull
    request asked about and the state of the remote at that moment, then
    answers as [env] does. Everything else is [env] on the first
    component. *)
Definition Log (S : Type) : Type := list (Z * S).

Definition recording {S : Type} (env : Env S) : Env (S * Log S) :=
  {| issues_createComment := fun n body w =>
       let '(r, s1) := issues_createComment env n body (fst w) in
       (r, (s1, snd w));
     pulls_merge := fun n a b c w =>
       let '(r, s1) := pulls_merge env n a b c (fst w) in
       (r, (s1, snd w));
     pulls_get := fun n w =>
       let '(r, s1) := pulls_get env n (fst w) in
       (r, (s1, snd w ++ [(n, fst w)]));
     git_deleteRef := fun ref w =>
       let '(r, s1) := git_deleteRef env ref (fst w) in
       (r, (s1, snd w));
     elapse := fun ms w => (elapse env ms (fst w), snd w);
     clock := fun w => clock env (fst w);
     random_below := fun n w =>
       let '(i, s1) := random_below env n (fst w) in
       (i, (s1, snd w)) |}.

(** The polls that a call of [isMergeable] on [env] from [s] performs, in
    order: the log of the same call on the recording remote. *)
Definition polls_of_isMergeable {S : Type} (env : Env S) (pr : Z) (s : S)
  : Log S :=
  snd (final (MergeManager.isMergeable (recording env) pr (s, []))).

Definition is_delete_request (ev : Event) : bool :=
  match ev with EvRequest (GitDeleteRef _) => true | _ => false end.

Definition is_request (ev : Event) : bool :=
  match ev with EvRequest _ => true | _ => false end.

(** The result of a YOLO merge of pull request 7 on the scripted remote with
    nothing scripted: one second has passed. *)
Definition sample_merge_result : MergeManager.MergeResult :=
  {| MergeManager.prNumber := 7;
     MergeManager.mergeSha := "0a1b2c";
     MergeManager.yolo := true;
     MergeManager.mergedAt := 1000;
     MergeManager.deletedBranch := "orchestrator/fix" |}.

(** How many operations of [ops] are selected by [p]. *)
Definition tally (p : AnalyticsProps.RecordOp -> bool)
    (ops : list AnalyticsProps.RecordOp) : Z :=
  Z.of_nat (List.length (filter p ops)).

Definition is_IssueCreated (op : AnalyticsProps.RecordOp) : bool :=
  match op with AnalyticsProps.IssueCreated => true | _ => false end.
Definition is_IssueClosed (op : AnalyticsProps.RecordOp) : bool :=
  match op with AnalyticsProps.IssueClosed => true | _ => false end.
Definition is_PROpened (op : AnalyticsProps.RecordOp) : bool :=
  match op with AnalyticsProps.PROpened => true | _ => false end.
Definition is_PRMerged (op : AnalyticsProps.RecordOp) : bool :=
  match op with AnalyticsProps.PRMerged _ => true | _ => false end.
Definition is_YoloMerged (op : AnalyticsProps.RecordOp) : bool :=
  match op with AnalyticsProps.PRMerged true => true | _ => false end.
Definition is_CommentPosted (op : AnalyticsProps.RecordOp) : bool :=
  match op with AnalyticsProps.CommentPosted => true | _ => false end.
Definition is_CoAuthoredCommit (op : AnalyticsProps.RecordOp) : bool :=
  match op with AnalyticsProps.CoAuthoredCommit => true | _ => false end.

(** The issue-to-comment latencies that [ops] report, in order, each
    negative difference replaced by 0. *)
Definition issue_latencies (ops : list AnalyticsProps.RecordOp) : list Z :=
  flat_map (fun op =>
              match op with
              | AnalyticsProps.IssueToComment t1 t2 => [Z.max (t2 - t1) 0]
              | _ => []
              end) ops.

(** The same for the open-to-merge latencies. *)
Definition merge_latencies (ops : list AnalyticsProps.RecordOp) : list Z :=
  flat_map (fun op =>
              match op with
              | AnalyticsProps.PRToMerge t1 t2 => [Z.max (t2 - t1) 0]
              | _ => []
              end) ops.

(** Both co-author settings are present: the condition under which the
    orchestrator counts a co-authored commit. *)
Definition coauthor_configured (config : Config.OrchestratorConfig) : bool :=
  negb (String.eqb (Config.coAuthorName config) "")
  && negb (String.eqb (Config.coAuthorEmail config) "").

(** What one workflow records when it gets through [k] of its five stages
    (issue created; first comment posted; pull request opened; pull request
    commented; merged). *)
Definition stage_ops (coauthor yolo : bool) (k : nat) (t1 t2 t3 t4 : Z)
  : list AnalyticsProps.RecordOp :=
  let s1 := [AnalyticsProps.IssueCreated] in
  let s2 := s1 ++ [AnalyticsProps.CommentPosted;
                   AnalyticsProps.IssueToComment t1 t2] in
  let s3 := s2 ++ AnalyticsProps.PROpened
                    :: (if coauthor then [AnalyticsProps.CoAuthoredCommit]
                        else []) in
  let s4 := s3 ++ [AnalyticsProps.CommentPosted] in
  let s5 := s4 ++ [AnalyticsProps.PRMerged yolo; AnalyticsProps.IssueClosed;
                   AnalyticsProps.PRToMerge t3 t4] in
  match k with
  | 0%nat => []
  | 1%nat => s1
  | 2%nat => s2
  | 3%nat => s3
  | 4%nat => s4
  | _ => s5
  end.

(** The relations between the numbers of a run of at most [n] iterations. *)
Definition run_bounds (coauthor autoMerge yolo : bool) (n : Z)
    (issuesCreated issuesClosed prsOpened prsMerged yoloMerges
       commentsPosted coAuthoredCommits : Z)
    (issueToFirstCommentMs prOpenToMergeMs : list Z) : Prop :=
  let firstComments := Z.of_nat (List.length issueToFirstCommentMs) in
  0 <= prsMerged /\
  issuesClosed = prsMerged /\
  Z.of_nat (List.length prOpenToMergeMs) = prsMerged /\
  prsMerged <= prsOpened /\
  prsOpened <= firstComments /\
  firstComments <= issuesCreated /\
  issuesCreated <= n /\
  firstComments + prsMerged <= commentsPosted /\
  commentsPosted <= firstComments + prsOpened /\
  yoloMerges = (if yolo then prsMerged else 0) /\
  coAuthoredCommits = (if coauthor then prsOpened else 0) /\
  (autoMerge = false -> prsMerged = 0).

(** [run_bounds] on the accumulator of a run in flight. *)
Definition bounds_at (config : Config.OrchestratorConfig) (n : Z)
    (a : Analytics.RunAccumulator.t) : Prop :=
  run_bounds (coauthor_configured config) (Config.autoMerge config)
    (Config.yoloMode config) n
    (Analytics.RunAccumulator.issuesCreated a)
    (Analytics.RunAccumulator.issuesClosed a)
    (Analytics.RunAccumulator.prsOpened a)
    (Analytics.RunAccumulator.prsMerged a)
    (Analytics.RunAccumulator.yoloMerges a)
    (Analytics.RunAccumulator.commentsPosted a)
    (Analytics.RunAccumulator.coAuthoredCommits a)
    (Analytics.RunAccumulator.issueToFirstCommentMs a)
    (Analytics.RunAccumulator.prOpenToMergeMs a).

(** The numbers of a run of [n] iterations in which every step of every
    iteration succeeded. *)
Definition run_exact (coauthor autoMerge yolo : bool) (n : Z)
    (issuesCreated issuesClosed prsOpened prsMerged yoloMerges
       commentsPosted coAuthoredCommits : Z)
    (issueToFirstCommentMs prOpenToMergeMs : list Z) : Prop :=
  let merged := if autoMerge then n else 0 in
  issuesCreated = n /\
  prsOpened = n /\
  commentsPosted = 2 * n /\
  Z.of_nat (List.length issueToFirstCommentMs) = n /\
  coAuthoredCommits = (if coauthor then n else 0) /\
  prsMerged = merged /\
  issuesClosed = merged /\
  Z.of_nat (List.length prOpenToMergeMs) = merged /\
  yoloMerges = (if yolo then merged else 0).

Definition exact_at (config : Config.OrchestratorConfig) (n : Z)
    (a : Analytics.RunAccumulator.t) : Prop :=
  run_exact (coauthor_configured config) (Config.autoMerge config)
    (Config.yoloMode config) n
    (Analytics.RunAccumulator.issuesCreated a)
    (Analytics.RunAccumulator.issuesClosed a)
    (Analytics.RunAccumulator.prsOpened a)
    (Analytics.RunAccumulator.prsMerged a)
    (Analytics.RunAccumulator.yoloMerges a)
    (Analytics.RunAccumulator.commentsPosted a)
    (Analytics.RunAccumulator.coAuthoredCommits a)
    (Analytics.RunAccumulator.issueToFirstCommentMs a)
    (Analytics.RunAccumulator.prOpenToMergeMs a).

(** Wherever the computation [m] stops when started with the analytics
    state [st], the analytics state then satisfies [P]. *)
Definition lands {S A : Type} (P : Analytics.State -> Prop)
    (m : M (S * Analytics.State) A) (st : Analytics.State) : Prop :=
  forall s, P (snd (final (m (s, st)))).

(** The computation [m] succeeds from every state. *)
Definition always_ok {S A : Type} (m : M S A) : Prop :=
  forall s, exists a s1 t, m s = (Ok a, s1, t).

(** A remote on which every request is accepted and every pull request is
    mergeable at the first poll; its state counts the milliseconds slept. *)
Definition agreeable : Env Z := {|
  issues_createComment := fun _ _ s =>
    (Ok {| data_id := 1; data_created_at := Some (s + 40) |}, s);
  pulls_merge := fun _ _ _ _ s => (Ok {| data_sha := "0a1b2c"%string |}, s);
  pulls_get := fun _ s => (Ok {| data_mergeable := Some true |}, s);
  git_deleteRef := fun _ s => (Ok tt, s);
  elapse := fun ms s => s + ms;
  clock := fun s => s;
  random_below := fun _ s => (0%nat, s)
|}.

(** Creation pipelines that always succeed on it. *)
Definition agreeable_createIssue : M Z Orchestrator.CreatedIssue :=
  fun s =>
    (Ok {| Orchestrator.issue_number := 11;
           Orchestrator.issue_title := "Add integration test scaffold";
           Orchestrator.issue_createdAt := s |}, s, []).

Definition agreeable_createPullRequest (issueNumber : Z) (title : string)
  : M Z Orchestrator.CreatedPR :=
  fun s =>
    (Ok {| Orchestrator.pr_number := issueNumber + 1;
           Orchestrator.pr_branch := "orchestrator/" ++ Slug.slugify title;
           Orchestrator.pr_createdAt := s;
           Orchestrator.pr_htmlUrl := "";
           Orchestrator.pr_closesIssue := issueNumber |}, s, []).

(** Two iterations, auto-merge on, YOLO off, no co-author. *)
Definition two_reviewed_iterations : Config.OrchestratorConfig :=
  {| Config.githubToken := "ghp_abc123";
     Config.owner := "octocat";
     Config.repo := "playground";
     Config.coAuthorName := "";
     Config.coAuthorEmail := "";
     Config.branchPrefix := "orchestrator/";
     Config.maxIssuesPerRun := 2;
     Config.maxPrsPerRun := 2;
     Config.autoMerge := true;
     Config.yoloMode := false;
     Config.analyticsPath := "/data/analytics.json";
     Config.logLevel := "info" |}.

(** An environment as a [.env] file would give it: padded values, an
    unusable PR cap, YOLO switched on in capitals. *)
Definition sample_env : Config.ProcessEnv :=
  fun key =>
    if String.eqb key "GITHUB_TOKEN" then Some " ghp_abc123 "%string
    else if String.eqb key "GITHUB_OWNER" then Some "octocat"%string
    else if String.eqb key "GITHUB_REPO" then Some "playground"%string
    else if String.eqb key "MAX_ISSUES_PER_RUN" then Some "2"%string
    else if String.eqb key "MAX_PRS_PER_RUN" then Some "3 per day"%string
    else if String.eqb key "YOLO_MODE" then Some "TRUE"%string
    else if String.eqb key "CO_AUTHOR_NAME" then Some "Mona"%string
    else None.

(** What [loadConfig] makes of it. *)
Definition sample_config : Config.OrchestratorConfig :=
  {| Config.githubToken := "ghp_abc123";
     Config.owner := "octocat";
     Config.repo := "playground";
     Config.coAuthorName := "Mona";
     Config.coAuthorEmail := "";
     Config.branchPrefix := "orchestrator/";
     Config.maxIssuesPerRun := 2;
     Config.maxPrsPerRun := 3;
     Config.autoMerge := true;
     Config.yoloMode := true;
     Config.analyticsPath := "/data/analytics.json";
     Config.logLevel := "info" |}.

End MoreProps.

(* ===================================================================== *)
(** * Properties of the analytics accumulator                             *)
(* ===================================================================== *)

Import Js Async World Analytics AnalyticsProps.

Lemma sum_from (l : list Z) (a : Z) :
  fold_left (fun x y => x + y) l a = a + sigma l.
Proof.
  revert a. induction l as [|x l IH]; intros a; simpl.
  - lia.
  - rewrite IH. lia.
Qed.

Lemma sum_sigma (l : list Z) : sum l = sigma l.
Proof. unfold sum. rewrite sum_from. lia. Qed.

Lemma sigma_map_total (f : RunRecord.t -> Z) (rs : list RunRecord.t) :
  sigma (map f rs) = total f rs.
Proof.
  induction rs as [|r rs IH]; simpl; [reflexivity | now rewrite IH].
Qed.

Lemma sum_map_total (f : RunRecord.t -> Z) (rs : list RunRecord.t) :
  sum (map f rs) = total f rs.
Proof. rewrite sum_sigma. apply sigma_map_total. Qed.

Lemma avg_is_mean (l : list Z) : mean_of l (avg l).
Proof.
  destruct l as [|x l].
  - reflexivity.
  - unfold mean_of, avg. set (l0 := x :: l).
    assert (Hlen : Nat.eqb (List.length l0) 0 = false) by reflexivity.
    rewrite Hlen, sum_sigma.
    assert (Hnz : ~ Qeq (inject_Z (Z.of_nat (List.length l0))) 0).
    { unfold Qeq. simpl. lia. }
    field. exact Hnz.
Qed.

Lemma load_version (st : State) : version (loadPersistedData st) <> 0.
Proof.
  unfold loadPersistedData.
  destruct (file st) as [[d|]|]; simpl; try discriminate.
  destruct (version d =? 0) eqn:E; simpl; [discriminate|].
  now apply Z.eqb_neq.
Qed.

Lemma load_valid (st : State) (d : AnalyticsData) :
  file st = Some (Json d) -> version d <> 0 -> loadPersistedData st = d.
Proof.
  intros Hf Hv. unfold loadPersistedData. rewrite Hf.
  apply Z.eqb_neq in Hv. now rewrite Hv.
Qed.

Lemma stats_of_loaded (st : State) :
  stats_of (runs (loadPersistedData st)) (getAggregateStats st).
Proof.
  unfold stats_of, getAggregateStats; simpl.
  rewrite !sum_map_total, !flat_map_concat_map.
  repeat split; try reflexivity; apply avg_is_mean.
Qed.

Lemma stats_of_valid_file (st : State) (d : AnalyticsData) :
  file st = Some (Json d) -> version d <> 0 ->
  stats_of (runs d) (getAggregateStats st).
Proof.
  intros Hf Hv. rewrite <- (load_valid st d Hf Hv) at 1.
  apply stats_of_loaded.
Qed.

(** C6. The aggregate statistics are those of the persisted run records:
    each total is the sum of its counter over all of them, each average the
    arithmetic mean of the latencies of all of them taken together, and 0
    when there are none. The record [endRun] has just finalised is among
    them: it is appended to the store and persisted before anything is
    reported. *)
Theorem aggregate_stats_of_persisted_runs :
  (forall st d,
      file st = Some (Json d) -> version d <> 0 ->
      stats_of (runs d) (getAggregateStats st)) /\
  (forall now st c,
      current st = Some c ->
      exists record st',
        endRun now st = (Ok record, st') /\
        finalises c record /\
        RunRecord.finishedAt record = now /\
        current st' = None /\
        stats_of (runs (loadPersistedData st) ++ [record])
                 (getAggregateStats st')).
Proof.
  split.
  - exact stats_of_valid_file.
  - intros now st c Hc. unfold endRun. rewrite Hc.
    eexists; eexists. split; [reflexivity|].
    split; [repeat split|].
    split; [reflexivity|]. split; [reflexivity|].
    match goal with
    | |- stats_of (runs ?old ++ [?r]) _ =>
        apply (stats_of_valid_file _
                 {| version := version old; runs := runs old ++ [r] |})
    end.
    + reflexivity.
    + apply load_version.
Qed.

Lemma aggregate_stats_witness :
  (file {| current := None; file := Some (Json two_runs) |}
     = Some (Json two_runs) /\
   version two_runs <> 0 /\
   stats_of (runs two_runs)
     (getAggregateStats {| current := None; file := Some (Json two_runs) |}))
  /\
  (exists record st',
      endRun 2000 one_issue_in_flight = (Ok record, st') /\
      finalises (RunAccumulator.mk 1000 1 0 0 0 0 0 0 [] []) record /\
      RunRecord.finishedAt record = 2000 /\
      current st' = None /\
      stats_of (runs (loadPersistedData one_issue_in_flight) ++ [record])
               (getAggregateStats st')).
Proof.
  split.
  - split; [reflexivity|]. split; [discriminate|].
    apply (proj1 aggregate_stats_of_persisted_runs); [reflexivity|discriminate].
  - apply (proj2 aggregate_stats_of_persisted_runs 2000 one_issue_in_flight).
    reflexivity.
Defined.

(** C4 fails on the code. With a run in flight that has recorded one issue,
    a second [startRun] returns normally and leaves a fresh record: the
    earlier one is gone. *)
Lemma startRun_in_flight_counterexample :
  current one_issue_in_flight
    = Some (RunAccumulator.mk 1000 1 0 0 0 0 0 0 [] []) /\
  ~ (exists e, fst (startRun 2000 one_issue_in_flight) = Throw e) /\
  current (snd (startRun 2000 one_issue_in_flight))
    = Some (RunAccumulator.mk 2000 0 0 0 0 0 0 0 [] []).
Proof.
  split; [reflexivity|]. split; [|reflexivity].
  intros [e He]. discriminate He.
Qed.

(** C4, amended. [startRun] never raises, whether or not a run is in
    flight: it returns normally, the in-flight record becomes a fresh one
    started now, with every counter 0 and both latency sequences empty, and
    the persisted store is untouched. *)
Theorem startRun_always_replaces :
  forall now st,
    fst (startRun now st) = Ok tt /\
    current (snd (startRun now st))
      = Some (RunAccumulator.mk now 0 0 0 0 0 0 0 [] []) /\
    file (snd (startRun now st)) = file st.
Proof. intros now st. repeat split. Qed.

Lemma Z_eqb_succ (n : Z) : (n =? n + 1) = false.
Proof. apply Z.eqb_neq. lia. Qed.

Lemma list_eqb_refl (l : list Z) : list_eqb l l = true.
Proof. unfold list_eqb. destruct (list_eq_dec Z.eq_dec l l); congruence. Qed.

Lemma list_eqb_push (l : list Z) (x : Z) : list_eqb l (l ++ [x]) = false.
Proof.
  unfold list_eqb. destruct (list_eq_dec Z.eq_dec l (l ++ [x])) as [E|E].
  - apply (f_equal (@List.length Z)) in E.
    rewrite length_app in E. simpl in E. lia.
  - reflexivity.
Qed.

Lemma on_current_running (upd : RunAccumulator.t -> RunAccumulator.t)
    (st : State) (a : RunAccumulator.t) :
  current st = Some a ->
  on_current upd st = (Ok tt, {| current := Some (upd a); file := file st |}).
Proof. intros H. unfold on_current, ensureRunning. now rewrite H. Qed.

Lemma record_effect (op : RecordOp) (st : State) (a b : RunAccumulator.t) :
  current st = Some a ->
  current (snd (record op st)) = Some b ->
  effect op a b.
Proof.
  intros H Hb.
  destruct op as [| | |[|]| | |t1 t2|t1 t2]; simpl in Hb;
    unfold recordIssueCreated, recordIssueClosed, recordPROpened,
      recordPRMerged, recordCommentPosted, recordCoAuthoredCommit,
      recordIssueToComment, recordPRToMerge in Hb;
    rewrite (on_current_running _ st a H) in Hb; simpl in Hb;
    injection Hb as <-; simpl; try split; reflexivity.
Qed.

Lemma record_running (op : RecordOp) (st : State) (a : RunAccumulator.t) :
  current st = Some a ->
  exists b,
    record op st = (Ok tt, {| current := Some b; file := file st |}) /\
    changed a b = written op /\
    (nonneg a -> nonneg b).
Proof.
  intros H.
  destruct op as [| | |[|]| | |t1 t2|t1 t2]; simpl;
    unfold recordIssueCreated, recordIssueClosed, recordPROpened,
      recordPRMerged, recordCommentPosted, recordCoAuthoredCommit,
      recordIssueToComment, recordPRToMerge;
    rewrite (on_current_running _ st a H);
    eexists; (split; [reflexivity|]); split.
  all: try (unfold changed, all_fields, same; simpl;
      rewrite ?Z.eqb_refl, ?list_eqb_refl, ?Z_eqb_succ, ?list_eqb_push;
      reflexivity).
  all: unfold nonneg; simpl; intros (?&?&?&?&?&?&?&?&?);
      repeat (apply conj); try lia; try assumption.
  all: apply Forall_app; split; try assumption;
      constructor; [lia | constructor].
Qed.

(** C5 fails on the code. On a fresh run, [recordPRMerged(true)] changes two
    fields of the in-flight record, [prsMerged] and [yoloMerges], not one. *)
Lemma recordPRMerged_yolo_counterexample :
  current fresh_run = Some (RunAccumulator.mk 1000 0 0 0 0 0 0 0 [] []) /\
  current (snd (record (PRMerged true) fresh_run))
    = Some (RunAccumulator.mk 1000 0 0 0 1 1 0 0 [] []) /\
  changed (RunAccumulator.mk 1000 0 0 0 0 0 0 0 [] [])
          (RunAccumulator.mk 1000 0 0 0 1 1 0 0 [] [])
    = [FPrsMerged; FYoloMerges] /\
  ~ (exists b,
        current (snd (record (PRMerged true) fresh_run)) = Some b /\
        List.length (changed (RunAccumulator.mk 1000 0 0 0 0 0 0 0 [] []) b)
          = 1%nat).
Proof.
  split; [reflexivity|]. split; [reflexivity|]. split; [reflexivity|].
  intros [b [Hb Hlen]]. simpl in Hb. injection Hb as <-.
  vm_compute in Hlen. discriminate Hlen.
Qed.

(** C5, amended. With a run in flight, every [record*] operation other than
    [recordPRMerged(true)] changes exactly one field of the in-flight record
    (it adds 1 to one counter or appends one entry to one latency sequence)
    and leaves every other field as it was; [recordPRMerged(true)] changes
    exactly two, adding 1 to [prsMerged] and 1 to [yoloMerges]. No operation
    touches the persisted store. [changed] lists the fields whose value
    differs after the call, and [effect] gives the new value of each field
    written: the old counter plus 1, or the old sequence with one entry
    more. *)
Theorem record_writes_its_fields :
  forall op st a,
    current st = Some a ->
    exists b,
      record op st = (Ok tt, {| current := Some b; file := file st |}) /\
      changed a b = written op /\
      effect op a b /\
      (op <> PRMerged true -> List.length (changed a b) = 1%nat) /\
      (op = PRMerged true ->
       changed a b = [FPrsMerged; FYoloMerges] /\
       RunAccumulator.prsMerged b = RunAccumulator.prsMerged a + 1 /\
       RunAccumulator.yoloMerges b = RunAccumulator.yoloMerges a + 1).
Proof.
  intros op st a H.
  destruct (record_running op st a H) as [b [Hr [Hc _]]].
  assert (He : effect op a b).
  { apply (record_effect op st a b H). now rewrite Hr. }
  exists b. split; [exact Hr|]. split; [exact Hc|]. split; [exact He|].
  rewrite Hc. split.
  - destruct op as [| | |[|]| | |? ?|? ?]; intros Hne;
      try reflexivity; congruence.
  - intros ->. split; [reflexivity | exact He].
Qed.

Lemma record_writes_its_fields_witness :
  exists b,
    record (IssueToComment 5000 4000) one_issue_in_flight
      = (Ok tt, {| current := Some b; file := file one_issue_in_flight |}) /\
    changed (RunAccumulator.mk 1000 1 0 0 0 0 0 0 [] []) b
      = written (IssueToComment 5000 4000) /\
    effect (IssueToComment 5000 4000)
      (RunAccumulator.mk 1000 1 0 0 0 0 0 0 [] []) b /\
    (IssueToComment 5000 4000 <> PRMerged true ->
     List.length (changed (RunAccumulator.mk 1000 1 0 0 0 0 0 0 [] []) b)
       = 1%nat) /\
    (IssueToComment 5000 4000 = PRMerged true ->
     changed (RunAccumulator.mk 1000 1 0 0 0 0 0 0 [] []) b
       = [FPrsMerged; FYoloMerges] /\
     RunAccumulator.prsMerged b
       = RunAccumulator.prsMerged
           (RunAccumulator.mk 1000 1 0 0 0 0 0 0 [] []) + 1 /\
     RunAccumulator.yoloMerges b
       = RunAccumulator.yoloMerges
           (RunAccumulator.mk 1000 1 0 0 0 0 0 0 [] []) + 1).
Proof.
  apply (record_writes_its_fields (IssueToComment 5000 4000)
           one_issue_in_flight).
  reflexivity.
Defined.

Lemma record_all_running (ops : list RecordOp) (st : State)
    (a : RunAccumulator.t) :
  current st = Some a -> nonneg a ->
  exists b,
    record_all ops st = {| current := Some b; file := file st |} /\ nonneg b.
Proof.
  revert st a. induction ops as [|op ops IH]; intros st a Hc Hn.
  - exists a. split; [|exact Hn]. destruct st; simpl in *. now subst.
  - destruct (record_running op st a Hc) as [b [Hr [_ Hb]]].
    unfold record_all in *. simpl. rewrite Hr. simpl.
    destruct (IH {| current := Some b; file := file st |} b eq_refl (Hb Hn))
      as [c [Hrun Hcn]].
    exists c. split; [exact Hrun | exact Hcn].
Qed.

(** C7. The duration [recordIssueToComment] and [recordPRToMerge] append is
    the difference of the two timestamps when that is positive and 0
    otherwise, at the end of their own latency sequence; and whatever is
    recorded after [startRun], every counter and every latency of the
    in-flight record is at least 0. *)
Theorem latencies_clamped_counts_nonneg :
  (forall issueCreatedAt commentCreatedAt st a,
      current st = Some a ->
      exists b,
        recordIssueToComment issueCreatedAt commentCreatedAt st
          = (Ok tt, {| current := Some b; file := file st |}) /\
        RunAccumulator.issueToFirstCommentMs b
          = RunAccumulator.issueToFirstCommentMs a
              ++ [Z.max (commentCreatedAt - issueCreatedAt) 0] /\
        (commentCreatedAt - issueCreatedAt < 0 ->
         RunAccumulator.issueToFirstCommentMs b
           = RunAccumulator.issueToFirstCommentMs a ++ [0])) /\
  (forall prCreatedAt mergedAt st a,
      current st = Some a ->
      exists b,
        recordPRToMerge prCreatedAt mergedAt st
          = (Ok tt, {| current := Some b; file := file st |}) /\
        RunAccumulator.prOpenToMergeMs b
          = RunAccumulator.prOpenToMergeMs a
              ++ [Z.max (mergedAt - prCreatedAt) 0] /\
        (mergedAt - prCreatedAt < 0 ->
         RunAccumulator.prOpenToMergeMs b
           = RunAccumulator.prOpenToMergeMs a ++ [0])) /\
  (forall st a ops,
      current st = Some a -> nonneg a ->
      exists b, current (record_all ops st) = Some b /\ nonneg b) /\
  (forall now st ops,
      exists b,
        current (record_all ops (snd (startRun now st))) = Some b /\
        nonneg b).
Proof.
  split; [|split; [|split]].
  - intros t1 t2 st a H. unfold recordIssueToComment, Date_getTime.
    rewrite (on_current_running _ st a H).
    eexists. split; [reflexivity|]. split; [reflexivity|].
    intros Hneg. simpl. now rewrite Z.max_r by lia.
  - intros t1 t2 st a H. unfold recordPRToMerge, Date_getTime.
    rewrite (on_current_running _ st a H).
    eexists. split; [reflexivity|]. split; [reflexivity|].
    intros Hneg. simpl. now rewrite Z.max_r by lia.
  - intros st a ops Hc Hn.
    destruct (record_all_running ops st a Hc Hn) as [b [Hr Hb]].
    exists b. rewrite Hr. split; [reflexivity | exact Hb].
  - intros now st ops.
    destruct (record_all_running ops (snd (startRun now st))
                (RunAccumulator.mk now 0 0 0 0 0 0 0 [] []) eq_refl)
      as [b [Hr Hb]].
    + unfold nonneg; simpl. repeat (apply conj); try lia; constructor.
    + exists b. rewrite Hr. split; [reflexivity | exact Hb].
Qed.

Lemma latencies_clamped_witness :
  (exists b,
      recordIssueToComment 5000 4000 one_issue_in_flight
        = (Ok tt, {| current := Some b; file := file one_issue_in_flight |}) /\
      RunAccumulator.issueToFirstCommentMs b = [] ++ [Z.max (4000 - 5000) 0] /\
      (4000 - 5000 < 0 ->
       RunAccumulator.issueToFirstCommentMs b = [] ++ [0])) /\
  (exists b,
      recordPRToMerge 4000 9000 one_issue_in_flight
        = (Ok tt, {| current := Some b; file := file one_issue_in_flight |}) /\
      RunAccumulator.prOpenToMergeMs b = [] ++ [Z.max (9000 - 4000) 0] /\
      (9000 - 4000 < 0 -> RunAccumulator.prOpenToMergeMs b = [] ++ [0])) /\
  (exists b,
      current (record_all [PRMerged true; IssueToComment 5000 4000]
                 one_issue_in_flight) = Some b /\
      nonneg b).
Proof.
  split; [|split].
  - apply (proj1 latencies_clamped_counts_nonneg 5000 4000
             one_issue_in_flight (RunAccumulator.mk 1000 1 0 0 0 0 0 0 [] [])).
    reflexivity.
  - apply (proj1 (proj2 latencies_clamped_counts_nonneg) 4000 9000
             one_issue_in_flight (RunAccumulator.mk 1000 1 0 0 0 0 0 0 [] [])).
    reflexivity.
  - apply (proj1 (proj2 (proj2 latencies_clamped_counts_nonneg))
             one_issue_in_flight (RunAccumulator.mk 1000 1 0 0 0 0 0 0 [] [])).
    + reflexivity.
    + unfold nonneg; simpl. repeat (apply conj); try lia; constructor.
Defined.

(** C8. With no run in progress, every [record*] operation and [endRun]
    throw an error, and they leave the in-flight slot and the persisted
    store exactly as they were. *)
Theorem no_run_fails_loudly :
  forall st,
    current st = None ->
    (forall op,
        record op st
          = (Throw (Error
               "Analytics: no run in progress. Call startRun() first."), st))
    /\
    (forall now,
        endRun now st = (Throw (Error "endRun called before startRun"), st)).
Proof.
  intros st H. split.
  - intros op.
    destruct op; simpl;
      unfold recordIssueCreated, recordIssueClosed, recordPROpened,
        recordPRMerged, recordCommentPosted, recordCoAuthoredCommit,
        recordIssueToComment, recordPRToMerge, on_current, ensureRunning;
      rewrite H; reflexivity.
  - intros now. unfold endRun. rewrite H. reflexivity.
Qed.

Lemma no_run_fails_loudly_witness :
  (forall op,
      record op {| current := None; file := Some (Json two_runs) |}
        = (Throw (Error
             "Analytics: no run in progress. Call startRun() first."),
           {| current := None; file := Some (Json two_runs) |}))
  /\
  (forall now,
      endRun now {| current := None; file := Some (Json two_runs) |}
        = (Throw (Error "endRun called before startRun"),
           {| current := None; file := Some (Json two_runs) |})).
Proof.
  apply (no_run_fails_loudly
           {| current := None; file := Some (Json two_runs) |}).
  reflexivity.
Defined.


Lemma formatMs_zero (ms : Q) : Qeq ms 0 -> formatMs ms = "n/a"%string.
Proof.
  intros H. unfold formatMs.
  apply Qeq_bool_iff in H. now rewrite H.
Qed.





(* ===================================================================== *)
(** * Properties of the rate-limited executor                             *)
(* ===================================================================== *)

Import Utils GithubClient CommentManager MergeManager Props.

Lemma isRateLimited_throttling (e : JsValue) :
  isRateLimited e = true <-> throttling e.
Proof.
  unfold isRateLimited, throttling.
  destruct e as [| | | | |fields]; simpl;
    try (split; [discriminate | intros [H|H]; discriminate H]).
  destruct (lookup "status" fields) as [| | |z| |]; simpl;
    try (split; [discriminate | intros [H|H]; discriminate H]).
  rewrite orb_true_iff, !Z.eqb_eq.
  split; intros [H|H]; [left | right | left | right]; congruence.
Qed.

Lemma isRateLimited_not_throttling (e : JsValue) :
  ~ throttling e -> isRateLimited e = false.
Proof.
  intros H. destruct (isRateLimited e) eqn:E; [|reflexivity].
  apply isRateLimited_throttling in E. contradiction.
Qed.

Section RateLimit.
Context {S : Type} (env : Env S).

Lemma withRateLimit_first_try {T : Type} (label : string) (fn : M S T)
    (s s1 : S) (v : T) (t1 : list Event) :
  fn s = (Ok v, s1, t1) -> withRateLimit env label fn s = (Ok v, s1, t1).
Proof. intros H. unfold withRateLimit, try_catch. now rewrite H. Qed.

Lemma withRateLimit_retry {T : Type} (label : string) (fn : M S T)
    (s s1 s2 : S) (e1 : JsValue) (t1 t2 : list Event) (r : Outcome T) :
  fn s = (Throw e1, s1, t1) ->
  throttling e1 ->
  fn (elapse env (retryAfterMs e1) s1) = (r, s2, t2) ->
  withRateLimit env label fn s
    = (r, s2, t1 ++ EvSleep (retryAfterMs e1) :: t2).
Proof.
  intros H1 Hth H2. apply isRateLimited_throttling in Hth.
  unfold withRateLimit, try_catch. rewrite H1, Hth.
  unfold bind, sleep. rewrite H2. destruct r; reflexivity.
Qed.

Lemma withRateLimit_other {T : Type} (label : string) (fn : M S T)
    (s s1 : S) (e : JsValue) (t1 : list Event) :
  fn s = (Throw e, s1, t1) ->
  ~ throttling e ->
  withRateLimit env label fn s = (Throw e, s1, t1).
Proof.
  intros H1 Hth. apply isRateLimited_not_throttling in Hth.
  unfold withRateLimit, try_catch. rewrite H1, Hth.
  unfold throw. now rewrite app_nil_r.
Qed.

End RateLimit.

(** C1. Let the first execution of the thunk fail with [e1]. If [e1] is a
    throttling signal, the wrapper sleeps once, runs the thunk once more and
    settles as that second execution does: with its value when it succeeds,
    with its failure when it fails, throttled or not; the events are those
    of the first execution, the one sleep, those of the second execution,
    and nothing after. If [e1] is not a throttling signal, the wrapper
    fails with [e1] at once: no sleep, no second execution. *)
Theorem withRateLimit_retries_once :
  forall (S : Type) (env : Env S) (T : Type) (label : string) (fn : M S T)
         (s s1 : S) (e1 : JsValue) (t1 : list Event),
    fn s = (Throw e1, s1, t1) ->
    (throttling e1 ->
     forall v s2 t2,
       fn (elapse env (retryAfterMs e1) s1) = (Ok v, s2, t2) ->
       withRateLimit env label fn s
         = (Ok v, s2, t1 ++ [EvSleep (retryAfterMs e1)] ++ t2)) /\
    (throttling e1 ->
     forall e2 s2 t2,
       throttling e2 ->
       fn (elapse env (retryAfterMs e1) s1) = (Throw e2, s2, t2) ->
       withRateLimit env label fn s
         = (Throw e2, s2, t1 ++ [EvSleep (retryAfterMs e1)] ++ t2)) /\
    (~ throttling e1 ->
     withRateLimit env label fn s = (Throw e1, s1, t1)).
Proof.
  intros S env T label fn s s1 e1 t1 H1. split; [|split].
  - intros Hth v s2 t2 H2.
    exact (withRateLimit_retry env label fn s s1 s2 e1 t1 t2 _ H1 Hth H2).
  - intros Hth e2 s2 t2 _ H2.
    exact (withRateLimit_retry env label fn s s1 s2 e1 t1 t2 _ H1 Hth H2).
  - intros Hth. exact (withRateLimit_other env label fn s s1 e1 t1 H1 Hth).
Qed.

Lemma withRateLimit_retries_once_witness :
  (* throttled once, then accepted: one sleep, two requests *)
  withRateLimit Scripted.env "check-mergeable"
      (octokit_pulls_get Scripted.env 7)
      (Scripted.start [Scripted.Reject (Scripted.request_error 429 []);
                       Scripted.Accept (Some true)])
    = (Ok {| data_mergeable := Some true |},
       {| Scripted.script := []; Scripted.slept := 60000 |},
       [EvRequest (PullsGet 7); EvSleep 60000; EvRequest (PullsGet 7)]) /\
  (* throttled twice: the second failure, and the third reply is not asked *)
  withRateLimit Scripted.env "check-mergeable"
      (octokit_pulls_get Scripted.env 7)
      (Scripted.start [Scripted.Reject (Scripted.request_error 429 []);
                       Scripted.Reject (Scripted.request_error 403 []);
                       Scripted.Accept (Some true)])
    = (Throw (Scripted.request_error 403 []),
       {| Scripted.script := [Scripted.Accept (Some true)];
          Scripted.slept := 60000 |},
       [EvRequest (PullsGet 7); EvSleep 60000; EvRequest (PullsGet 7)]) /\
  (* a failure that is not throttling *)
  withRateLimit Scripted.env "check-mergeable"
      (octokit_pulls_get Scripted.env 7)
      (Scripted.start [Scripted.Reject (Scripted.request_error 404 []);
                       Scripted.Accept (Some true)])
    = (Throw (Scripted.request_error 404 []),
       {| Scripted.script := [Scripted.Accept (Some true)];
          Scripted.slept := 0 |},
       [EvRequest (PullsGet 7)]).
Proof.
  split; [|split].
  - apply (proj1 (withRateLimit_retries_once _ Scripted.env _
                    "check-mergeable"%string
                    (octokit_pulls_get Scripted.env 7)
                    (Scripted.start
                       [Scripted.Reject (Scripted.request_error 429 []);
                        Scripted.Accept (Some true)])
                    {| Scripted.script := [Scripted.Accept (Some true)];
                       Scripted.slept := 0 |}
                    (Scripted.request_error 429 [])
                    [EvRequest (PullsGet 7)] eq_refl)).
    + right. reflexivity.
    + reflexivity.
  - apply (proj1 (proj2 (withRateLimit_retries_once _ Scripted.env _
                    "check-mergeable"%string
                    (octokit_pulls_get Scripted.env 7)
                    (Scripted.start
                       [Scripted.Reject (Scripted.request_error 429 []);
                        Scripted.Reject (Scripted.request_error 403 []);
                        Scripted.Accept (Some true)])
                    {| Scripted.script :=
                         [Scripted.Reject (Scripted.request_error 403 []);
                          Scripted.Accept (Some true)];
                       Scripted.slept := 0 |}
                    (Scripted.request_error 429 [])
                    [EvRequest (PullsGet 7)] eq_refl))).
    + right. reflexivity.
    + left. reflexivity.
    + reflexivity.
  - apply (proj2 (proj2 (withRateLimit_retries_once _ Scripted.env _
                    "check-mergeable"%string
                    (octokit_pulls_get Scripted.env 7)
                    (Scripted.start
                       [Scripted.Reject (Scripted.request_error 404 []);
                        Scripted.Accept (Some true)])
                    {| Scripted.script := [Scripted.Accept (Some true)];
                       Scripted.slept := 0 |}
                    (Scripted.request_error 404 [])
                    [EvRequest (PullsGet 7)] eq_refl))).
    intros [H|H]; discriminate H.
Defined.

(** What [retryAfterMs] computes: it looks for the hint under the key
    [retry-after] of the value under [response], and nowhere else. *)
Lemma retryAfterMs_reads_response_key (e : JsValue) :
  retryAfterMs e =
    match get (get e "response") "retry-after" with
    | JStr raw =>
        match parseInt raw with
        | Some n =>
            if Z.abs n <? overflow_threshold then to_Number (n * 1000)
            else 60000
        | None => 60000
        end
    | _ => 60000
    end.
Proof.
  unfold retryAfterMs, DEFAULT_WAIT.
  destruct e as [| | | | |fields]; simpl; try reflexivity.
  destruct (lookup "response" fields) as [| |b|z|str|resp]; simpl;
    try reflexivity.
  - destruct b; reflexivity.
  - destruct (z =? 0); reflexivity.
  - destruct (String.eqb str ""); reflexivity.
  - destruct (lookup "retry-after" resp); try reflexivity.
    unfold Number_isFinite. destruct (parseInt s); reflexivity.
Qed.

(** C9 fails on the failures the HTTP client produces. A throttled request
    whose response carries the header [retry-after: 30] is a throttling
    signal with a hint that parses to 30, yet [retryAfterMs] answers the
    default 60000 and the wrapper sleeps 60000 ms before its retry: the
    code reads [response["retry-after"]], and the header sits one level
    below, under [response.headers]. *)
Theorem retryAfterMs_misses_response_headers :
  throttling Scripted.throttled_retry_after_30 /\
  get (get (get Scripted.throttled_retry_after_30 "response") "headers")
      "retry-after" = JStr "30" /\
  parseInt "30" = Some 30 /\
  Number_isFinite (parseInt "30") = true /\
  retryAfterMs Scripted.throttled_retry_after_30 = 60000 /\
  trace (withRateLimit Scripted.env "merge-pr"
           (octokit_pulls_get Scripted.env 7)
           (Scripted.start
              [Scripted.Reject Scripted.throttled_retry_after_30]))
    = [EvRequest (PullsGet 7); EvSleep 60000; EvRequest (PullsGet 7)].
Proof.
  split; [right; reflexivity|].
  repeat split; reflexivity.
Qed.

(* ===================================================================== *)
(** * Properties of the mergeability poller                               *)
(* ===================================================================== *)

Section Poller.
Context {S : Type} (env : Env S).

Lemma poll_accepted (pr : Z) (s s1 : S) (d : PullData) :
  pulls_get env pr s = (Ok d, s1) ->
  withRateLimit env "check-mergeable" (octokit_pulls_get env pr) s
    = (Ok d, s1, [EvRequest (PullsGet pr)]).
Proof.
  intros H. apply withRateLimit_first_try.
  unfold octokit_pulls_get. now rewrite H.
Qed.

Lemma loop_step_unknown (n : nat) (pr : Z) (s s1 : S) (d : PullData) :
  pulls_get env pr s = (Ok d, s1) ->
  mergeability_of d = Unknown ->
  isMergeable_loop env (Datatypes.S n) pr s =
    let '(r, s2, t2) := isMergeable_loop env n pr (elapse env DELAY_MS s1) in
    (r, s2, EvRequest (PullsGet pr) :: EvSleep DELAY_MS :: t2).
Proof.
  intros Hp Hm. cbn [isMergeable_loop]. unfold bind at 1.
  rewrite (poll_accepted pr s s1 d Hp).
  unfold mergeability_of in Hm.
  destruct (data_mergeable d) as [[|]|]; try discriminate Hm.
  unfold bind, sleep.
  destruct (isMergeable_loop env n pr (elapse env DELAY_MS s1))
    as [[r s2] t2].
  destruct r; reflexivity.
Qed.

Lemma loop_step_decisive (n : nat) (pr : Z) (s s1 : S) (d : PullData) :
  pulls_get env pr s = (Ok d, s1) ->
  decisive (mergeability_of d) ->
  isMergeable_loop env (Datatypes.S n) pr s
    = (Ok (answer (mergeability_of d)), s1, [EvRequest (PullsGet pr)]).
Proof.
  intros Hp Hm. cbn [isMergeable_loop]. unfold bind at 1.
  rewrite (poll_accepted pr s s1 d Hp).
  unfold decisive, mergeability_of in *.
  destruct (data_mergeable d) as [[|]|]; try reflexivity.
  now contradiction Hm.
Qed.

Lemma loop_decides (k : nat) :
  forall (n : nat) (pr : Z) (s : S) (m : Mergeability),
    (k < n)%nat -> decisive m ->
    polls_yield env pr (repeat Unknown k ++ [m]) s ->
    exists s',
      isMergeable_loop env n pr s
        = (Ok (answer m), s',
           undecided_rounds pr k ++ [EvRequest (PullsGet pr)]).
Proof.
  induction k as [|k IH]; intros n pr s m Hlt Hm Hy;
    destruct n as [|n]; try lia;
    simpl in Hy; destruct Hy as [d [s1 [Hp [Hd Hrest]]]].
  - exists s1. subst m. now apply loop_step_decisive.
  - destruct (IH n pr (elapse env DELAY_MS s1) m) as [s' Hloop];
      [lia | exact Hm | exact Hrest |].
    exists s'. rewrite (loop_step_unknown n pr s s1 d Hp Hd), Hloop.
    reflexivity.
Qed.

Lemma loop_gives_up (n : nat) :
  forall (pr : Z) (s : S),
    polls_yield env pr (repeat Unknown n) s ->
    exists s',
      isMergeable_loop env n pr s = (Ok false, s', undecided_rounds pr n).
Proof.
  induction n as [|n IH]; intros pr s Hy.
  - exists s. reflexivity.
  - simpl in Hy. destruct Hy as [d [s1 [Hp [Hd Hrest]]]].
    destruct (IH pr (elapse env DELAY_MS s1) Hrest) as [s' Hloop].
    exists s'. rewrite (loop_step_unknown n pr s s1 d Hp Hd), Hloop.
    reflexivity.
Qed.

Lemma polls_of_rounds (pr : Z) (k : nat) (tl : list Event) :
  count is_poll (undecided_rounds pr k ++ tl) = (k + count is_poll tl)%nat.
Proof.
  unfold count. induction k as [|k IH]; simpl; [reflexivity|].
  now rewrite IH.
Qed.

End Poller.

(** C2. When the polls of a pull request yield [k] times unknown (k < 5) and
    then a decided state, the poller returns true if that state is
    mergeable and false if it is not mergeable, having polled exactly
    [k + 1] times with a pause after each undecided poll and nothing after
    the deciding one. When five polls in a row yield unknown it returns
    false after exactly 5 polls. For unknown, unknown, mergeable it returns
    true after exactly 3 polls. *)
Theorem isMergeable_polls_until_decided :
  forall (S : Type) (env : Env S) (pr : Z) (s : S),
    (forall k m,
        (k < 5)%nat -> decisive m ->
        polls_yield env pr (repeat Unknown k ++ [m]) s ->
        outcome (isMergeable env pr s) = Ok (answer m) /\
        trace (isMergeable env pr s)
          = undecided_rounds pr k ++ [EvRequest (PullsGet pr)] /\
        count is_poll (trace (isMergeable env pr s)) = Datatypes.S k) /\
    (polls_yield env pr [Unknown; Unknown; Mergeable] s ->
     outcome (isMergeable env pr s) = Ok true /\
     count is_poll (trace (isMergeable env pr s)) = 3%nat) /\
    (polls_yield env pr (repeat Unknown 5) s ->
     outcome (isMergeable env pr s) = Ok false /\
     trace (isMergeable env pr s) = undecided_rounds pr 5 /\
     count is_poll (trace (isMergeable env pr s)) = 5%nat).
Proof.
  intros S env pr s.
  assert (Hdec : forall k m,
             (k < 5)%nat -> decisive m ->
             polls_yield env pr (repeat Unknown k ++ [m]) s ->
             outcome (isMergeable env pr s) = Ok (answer m) /\
             trace (isMergeable env pr s)
               = undecided_rounds pr k ++ [EvRequest (PullsGet pr)] /\
             count is_poll (trace (isMergeable env pr s)) = Datatypes.S k).
  { intros k m Hk Hm Hy. unfold isMergeable, MAX_ATTEMPTS.
    destruct (loop_decides env k 5 pr s m Hk Hm Hy) as [s' ->].
    split; [reflexivity|]. split; [reflexivity|].
    unfold trace; simpl. rewrite polls_of_rounds. unfold count; simpl. lia. }
  split; [exact Hdec | split].
  - intros Hy.
    destruct (Hdec 2%nat Mergeable) as [Ho [_ Hc]];
      [lia | discriminate | exact Hy |].
    split; assumption.
  - intros Hy. unfold isMergeable, MAX_ATTEMPTS.
    destruct (loop_gives_up env 5 pr s Hy) as [s' ->].
    repeat split.
Qed.

Lemma isMergeable_polls_witness :
  (outcome (isMergeable Scripted.env 7
              (Scripted.start [Scripted.Accept None;
                               Scripted.Accept (Some false);
                               Scripted.Accept (Some true)]))
     = Ok false /\
   count is_poll
     (trace (isMergeable Scripted.env 7
               (Scripted.start [Scripted.Accept None;
                                Scripted.Accept (Some false);
                                Scripted.Accept (Some true)])))
     = 2%nat) /\
  (outcome (isMergeable Scripted.env 7
              (Scripted.start [Scripted.Accept None; Scripted.Accept None;
                               Scripted.Accept (Some true)]))
     = Ok true /\
   count is_poll
     (trace (isMergeable Scripted.env 7
               (Scripted.start [Scripted.Accept None; Scripted.Accept None;
                                Scripted.Accept (Some true)])))
     = 3%nat) /\
  (outcome (isMergeable Scripted.env 7
              (Scripted.start [Scripted.Accept None; Scripted.Accept None;
                               Scripted.Accept None; Scripted.Accept None;
                               Scripted.Accept None;
                               Scripted.Accept (Some true)]))
     = Ok false /\
   count is_poll
     (trace (isMergeable Scripted.env 7
               (Scripted.start [Scripted.Accept None; Scripted.Accept None;
                                Scripted.Accept None; Scripted.Accept None;
                                Scripted.Accept None;
                                Scripted.Accept (Some true)])))
     = 5%nat).
Proof.
  split; [|split].
  - destruct (proj1 (isMergeable_polls_until_decided _ Scripted.env 7
               (Scripted.start [Scripted.Accept None;
                                Scripted.Accept (Some false);
                                Scripted.Accept (Some true)]))
               1%nat NotMergeable) as [Ho [_ Hc]].
    + lia.
    + discriminate.
    + simpl.
      repeat (do 2 eexists; split; [reflexivity | split; [reflexivity|]]).
      exact I.
    + split; [exact Ho | exact Hc].
  - apply (proj1 (proj2 (isMergeable_polls_until_decided _ Scripted.env 7
               (Scripted.start [Scripted.Accept None; Scripted.Accept None;
                                Scripted.Accept (Some true)])))).
    simpl.
    repeat (do 2 eexists; split; [reflexivity | split; [reflexivity|]]).
    exact I.
  - destruct (proj2 (proj2 (isMergeable_polls_until_decided _ Scripted.env 7
               (Scripted.start [Scripted.Accept None; Scripted.Accept None;
                                Scripted.Accept None; Scripted.Accept None;
                                Scripted.Accept None;
                                Scripted.Accept (Some true)]))))
      as [Ho [_ Hc]].
    + simpl.
      repeat (do 2 eexists; split; [reflexivity | split; [reflexivity|]]).
      exact I.
    + split; [exact Ho | exact Hc].
Defined.

(* ===================================================================== *)
(** * Properties of the merge coordinator                                 *)
(* ===================================================================== *)

Lemma absent_app (p : Event -> bool) (t1 t2 : list Event) :
  absent p t1 -> absent p t2 -> absent p (t1 ++ t2).
Proof. unfold absent. intros H1 H2. now rewrite filter_app, H1, H2. Qed.

Lemma count_app (p : Event -> bool) (t1 t2 : list Event) :
  count p (t1 ++ t2) = (count p t1 + count p t2)%nat.
Proof. unfold count. now rewrite filter_app, length_app. Qed.

Lemma absent_count (p : Event -> bool) (t : list Event) :
  absent p t -> count p t = 0%nat.
Proof. unfold absent, count. now intros ->. Qed.

Section Quiet.
Context {S : Type} (env : Env S) (p : Event -> bool).

Lemma trace_bind {A B : Type} (m : M S A) (k : A -> M S B) (s : S) :
  trace (bind m k s) =
    trace (m s) ++
    match outcome (m s) with
    | Ok a => trace (k a (final (m s)))
    | Throw _ => []
    end.
Proof.
  unfold bind, trace, outcome, final.
  destruct (m s) as [[[a|e] s1] t1]; simpl.
  - destruct (k a s1) as [[r s2] t2]. reflexivity.
  - now rewrite app_nil_r.
Qed.

Lemma trace_try_catch {A : Type} (m : M S A) (h : JsValue -> M S A) (s : S) :
  trace (try_catch m h s) =
    trace (m s) ++
    match outcome (m s) with
    | Ok _ => []
    | Throw e => trace (h e (final (m s)))
    end.
Proof.
  unfold try_catch, trace, outcome, final.
  destruct (m s) as [[[a|e] s1] t1]; simpl.
  - now rewrite app_nil_r.
  - destruct (h e s1) as [[r s2] t2]. reflexivity.
Qed.

Lemma quiet_ret {A : Type} (a : A) : quiet p (ret (S := S) a).
Proof. intros s. reflexivity. Qed.

Lemma quiet_throw {A : Type} (e : JsValue) : quiet p (throw (S := S) (A := A) e).
Proof. intros s. reflexivity. Qed.

Lemma quiet_bind {A B : Type} (m : M S A) (k : A -> M S B) :
  quiet p m -> (forall a, quiet p (k a)) -> quiet p (bind m k).
Proof.
  intros Hm Hk s. rewrite trace_bind. apply absent_app; [apply Hm|].
  destruct (outcome (m s)); [apply Hk | reflexivity].
Qed.

Lemma quiet_try_catch {A : Type} (m : M S A) (h : JsValue -> M S A) :
  quiet p m -> (forall e, quiet p (h e)) -> quiet p (try_catch m h).
Proof.
  intros Hm Hh s. rewrite trace_try_catch. apply absent_app; [apply Hm|].
  destruct (outcome (m s)); [reflexivity | apply Hh].
Qed.

Lemma quiet_sleep (ms : Z) :
  (forall n, p (EvSleep n) = false) -> quiet p (sleep env ms).
Proof. intros Hp s. unfold absent; simpl. now rewrite Hp. Qed.

Lemma quiet_nowISO : quiet p (nowISO env).
Proof. intros s. reflexivity. Qed.

Lemma quiet_getRandomComment : quiet p (getRandomComment env).
Proof.
  intros s. unfold getRandomComment, pickRandom, COMMENTS.
  cbv beta iota. destruct (random_below env _ s). reflexivity.
Qed.

Lemma quiet_withRateLimit {T : Type} (label : string) (fn : M S T) :
  (forall n, p (EvSleep n) = false) -> quiet p fn ->
  quiet p (withRateLimit env label fn).
Proof.
  intros Hp Hfn. unfold withRateLimit. apply quiet_try_catch; [exact Hfn|].
  intros e. destruct (isRateLimited e).
  - apply quiet_bind; [now apply quiet_sleep | intros _; exact Hfn].
  - apply quiet_throw.
Qed.

Lemma quiet_createComment (n : Z) (body : string) :
  p (EvRequest (IssuesCreateComment n body)) = false ->
  quiet p (octokit_issues_createComment env n body).
Proof.
  intros Hp s. unfold octokit_issues_createComment.
  destruct (issues_createComment env n body s). unfold absent; simpl.
  now rewrite Hp.
Qed.

Lemma quiet_merge (n : Z) (a b c : string) :
  p (EvRequest (PullsMerge n a b c)) = false ->
  quiet p (octokit_pulls_merge env n a b c).
Proof.
  intros Hp s. unfold octokit_pulls_merge.
  destruct (pulls_merge env n a b c s). unfold absent; simpl.
  now rewrite Hp.
Qed.

Lemma quiet_deleteBranch (b : string) :
  (forall r, p (EvRequest (GitDeleteRef r)) = false) ->
  quiet p (deleteBranch env b).
Proof.
  intros Hp. unfold deleteBranch. apply quiet_try_catch.
  - intros s. unfold octokit_git_deleteRef.
    destruct (git_deleteRef env _ s). unfold absent; simpl. now rewrite Hp.
  - intros e. apply quiet_ret.
Qed.

End Quiet.

Section MergeCoordinator.
Context {S : Type} (env : Env S) (config : OrchestratorConfig).

Lemma bracket_trace {A : Type} (callee : string) (arg : Z) (body : M S A)
    (s : S) :
  trace (bracket callee arg body s)
    = EvEnter callee arg :: trace (body s) ++ [EvExit callee arg].
Proof.
  unfold bracket, trace. destruct (body s) as [[r s1] t]. reflexivity.
Qed.

Lemma bracket_outcome {A : Type} (callee : string) (arg : Z) (body : M S A)
    (s : S) :
  outcome (bracket callee arg body s) = outcome (body s) /\
  final (bracket callee arg body s) = final (body s).
Proof.
  unfold bracket, outcome, final. destruct (body s) as [[r s1] t].
  split; reflexivity.
Qed.

(** What [commentOnPR] does between being entered and being left: no merge
    request, and no nested call of itself. *)
Lemma commentOnPR_trace (pr : Z) (s : S) :
  exists body,
    trace (commentOnPR env pr s)
      = EvEnter "commentOnPR" pr :: body ++ [EvExit "commentOnPR" pr] /\
    absent is_merge_request body /\
    absent is_comment_call body.
Proof.
  unfold commentOnPR. rewrite bracket_trace.
  eexists. split; [reflexivity|].
  split;
    match goal with
    | |- absent ?p (trace (?m s)) => revert s; change (quiet p m)
    end;
    (apply quiet_bind; [apply quiet_getRandomComment | intros body];
     apply quiet_bind;
     [ apply quiet_withRateLimit; [reflexivity|];
       now apply quiet_createComment
     | intros data; apply quiet_bind;
       [ destruct (data_created_at data);
           [apply quiet_ret | apply quiet_nowISO]
       | intros created; apply quiet_ret ] ]).
Qed.

(** The shape of a run of [mergePullRequest] under either policy. *)
Lemma mergePullRequest_trace (pr : Z) (branch : string)
    (yolo_arg : option bool) (s : S) :
  (effective_yolo yolo_arg config = true ->
   absent is_comment_event
     (trace (mergePullRequest env config pr branch yolo_arg s))) /\
  (effective_yolo yolo_arg config = false ->
   exists body post,
     trace (mergePullRequest env config pr branch yolo_arg s)
       = [EvSleep 1500]
           ++ EvEnter "commentOnPR" pr :: body
           ++ EvExit "commentOnPR" pr :: post /\
     absent is_merge_request body /\
     absent is_comment_call body /\
     absent is_comment_event post).
Proof.
  unfold mergePullRequest, effective_yolo.
  destruct (match yolo_arg with Some b => b | None => yoloMode config end);
    cbn [negb]; (split; [intros Hy | intros Hy]); try discriminate Hy.
  - revert s. apply quiet_bind; [apply quiet_ret | intros _].
    apply quiet_bind; [now apply quiet_sleep | intros _].
    apply quiet_bind.
    { apply quiet_withRateLimit; [reflexivity|]. now apply quiet_merge. }
    intros data.
    apply quiet_bind; [now apply quiet_deleteBranch | intros _].
    apply quiet_bind; [apply quiet_nowISO | intros now; apply quiet_ret].
  - rewrite trace_bind.
    match goal with
    | |- context [trace ?first ++ match outcome ?first with
                                  | Ok a => trace (@?k a)
                                  | Throw _ => [] end] =>
        assert (Hpost : absent is_comment_event
                          match outcome first with
                          | Ok a => trace (k a)
                          | Throw _ => []
                          end);
        [ destruct (outcome first); [|reflexivity];
          generalize (final first)
        | set (post := match outcome first with
                       | Ok a => trace (k a)
                       | Throw _ => []
                       end) in * ]
    end.
    { apply quiet_bind; [now apply quiet_sleep | intros _].
      apply quiet_bind.
      { apply quiet_withRateLimit; [reflexivity|]. now apply quiet_merge. }
      intros data.
      apply quiet_bind; [now apply quiet_deleteBranch | intros _].
      apply quiet_bind; [apply quiet_nowISO | intros now; apply quiet_ret]. }
    rewrite trace_bind.
    cbn [sleep trace outcome final fst snd].
    rewrite trace_bind.
    destruct (commentOnPR_trace pr (elapse env 1500 s))
      as [body [Hbody [Hbm Hbc]]].
    unfold trace in Hbody at 1. unfold trace at 1. rewrite Hbody.
    exists body, post.
    split; [|split; [exact Hbm | split; [exact Hbc | exact Hpost]]].
    destruct (outcome (commentOnPR env pr (elapse env 1500 s)));
      cbn [trace ret snd app]; rewrite ?app_nil_r, <- ?app_assoc; reflexivity.
Qed.

End MergeCoordinator.

(** C3. Under the YOLO policy (the call-site flag when given, else
    [config.yoloMode]) a run of [mergePullRequest] never enters the
    comment-posting collaborator and sends no comment request. Under the
    reviewed policy it enters the collaborator exactly once, and every merge
    request of the run comes after the collaborator has been left: there is
    none before it is entered and none while it runs. *)
Theorem mergePullRequest_comment_before_merge :
  forall (S : Type) (env : Env S) (config : OrchestratorConfig)
         (pr : Z) (branch : string) (yolo_arg : option bool) (s : S),
    (effective_yolo yolo_arg config = true ->
     count is_comment_call
       (trace (mergePullRequest env config pr branch yolo_arg s)) = 0%nat /\
     absent is_comment_event
       (trace (mergePullRequest env config pr branch yolo_arg s))) /\
    (effective_yolo yolo_arg config = false ->
     count is_comment_call
       (trace (mergePullRequest env config pr branch yolo_arg s)) = 1%nat /\
     exists pre body post,
       trace (mergePullRequest env config pr branch yolo_arg s)
         = pre ++ EvEnter "commentOnPR" pr :: body
               ++ EvExit "commentOnPR" pr :: post /\
       absent is_merge_request pre /\
       absent is_merge_request body /\
       absent is_comment_event post).
Proof.
  intros S env config pr branch yolo_arg s.
  destruct (mergePullRequest_trace env config pr branch yolo_arg s)
    as [Hyolo Hreviewed].
  split; intros Hpolicy.
  - specialize (Hyolo Hpolicy). split; [|exact Hyolo].
    unfold absent in Hyolo. unfold count.
    assert (Hsub : forall tr, filter is_comment_event tr = [] ->
                              filter is_comment_call tr = []).
    { induction tr as [|ev tr IH]; [reflexivity|]. simpl.
      destruct ev as [ms|r|callee arg|callee arg]; simpl; try exact IH.
      - destruct r; simpl; try exact IH; discriminate.
      - destruct (String.eqb callee "commentOnPR"); [discriminate | exact IH].
      - destruct (String.eqb callee "commentOnPR"); [discriminate | exact IH]. }
    now rewrite (Hsub _ Hyolo).
  - destruct (Hreviewed Hpolicy) as [body [post [Htr [Hbm [Hbc Hpost]]]]].
    split.
    + rewrite Htr.
      change (EvEnter "commentOnPR" pr :: body ++ EvExit "commentOnPR" pr :: post)
        with ([EvEnter "commentOnPR" pr]
                ++ body ++ [EvExit "commentOnPR" pr] ++ post).
      rewrite !count_app, (absent_count _ _ Hbc).
      assert (Hp : count is_comment_call post = 0%nat).
      { unfold absent in Hpost. unfold count.
        clear - Hpost. induction post as [|ev tr IH]; [reflexivity|].
        simpl in *. destruct ev as [ms|r|callee arg|callee arg]; simpl in *.
        - exact (IH Hpost).
        - destruct r; simpl in *; try exact (IH Hpost); discriminate.
        - destruct (String.eqb callee "commentOnPR");
            [discriminate | exact (IH Hpost)].
        - destruct (String.eqb callee "commentOnPR");
            [discriminate | exact (IH Hpost)]. }
      rewrite Hp. reflexivity.
    + exists [EvSleep 1500], body, post.
      split; [exact Htr|]. split; [reflexivity|]. split; assumption.
Qed.

Lemma mergePullRequest_comment_witness :
  (count is_comment_call
     (trace (mergePullRequest Scripted.env
               {| autoMerge := true; yoloMode := false |}
               7 "orchestrator/fix" (Some true) (Scripted.start []))) = 0%nat /\
   absent is_comment_event
     (trace (mergePullRequest Scripted.env
               {| autoMerge := true; yoloMode := false |}
               7 "orchestrator/fix" (Some true) (Scripted.start [])))) /\
  (count is_comment_call
     (trace (mergePullRequest Scripted.env
               {| autoMerge := true; yoloMode := false |}
               7 "orchestrator/fix" None
               (Scripted.start
                  [Scripted.Reject (Scripted.request_error 429 [])])))
     = 1%nat /\
   exists pre body post,
     trace (mergePullRequest Scripted.env
              {| autoMerge := true; yoloMode := false |}
              7 "orchestrator/fix" None
              (Scripted.start
                 [Scripted.Reject (Scripted.request_error 429 [])]))
       = pre ++ EvEnter "commentOnPR" 7 :: body
             ++ EvExit "commentOnPR" 7 :: post /\
     absent is_merge_request pre /\
     absent is_merge_request body /\
     absent is_comment_event post).
Proof.
  split.
  - apply (proj1 (mergePullRequest_comment_before_merge _ Scripted.env
                    {| autoMerge := true; yoloMode := false |}
                    7 "orchestrator/fix"%string (Some true)
                    (Scripted.start []))).
    reflexivity.
  - apply (proj2 (mergePullRequest_comment_before_merge _ Scripted.env
                    {| autoMerge := true; yoloMode := false |}
                    7 "orchestrator/fix"%string None
                    (Scripted.start
                       [Scripted.Reject (Scripted.request_error 429 [])]))).
    reflexivity.
Defined.

(** A reviewed run in full: the first comment request is throttled and
    retried inside the single call of the collaborator, and the merge
    request follows it. *)
Example reviewed_merge_run :
  trace (mergePullRequest Scripted.env
           {| autoMerge := true; yoloMode := false |}
           7 "orchestrator/fix" None
           (Scripted.start [Scripted.Reject (Scripted.request_error 429 [])]))
  = [ EvSleep 1500;
      EvEnter "commentOnPR" 7;
      EvRequest (IssuesCreateComment 7
        "Looks good to me — clean implementation. Nice work!");
      EvSleep 60000;
      EvRequest (IssuesCreateComment 7
        "Looks good to me — clean implementation. Nice work!");
      EvExit "commentOnPR" 7;
      EvSleep 1000;
      EvRequest (PullsMerge 7 "squash" "merge: PR #7" "Merged after review.");
      EvRequest (GitDeleteRef "heads/orchestrator/fix") ].
Proof. reflexivity. Qed.

(* ===================================================================== *)
(** * Properties of the configuration loader                              *)
(* ===================================================================== *)

Import Text.

Lemma chars_of_chars (l : list ascii) : chars (of_chars l) = l.
Proof. apply list_ascii_of_string_of_list_ascii. Qed.

Lemma of_chars_chars (s : string) : of_chars (chars s) = s.
Proof. apply string_of_list_ascii_of_string. Qed.

Lemma eqb_empty (s : string) : String.eqb s "" = true <-> s = EmptyString.
Proof. apply String.eqb_eq. Qed.

Lemma eqb_not_empty (s : string) :
  String.eqb s "" = false <-> s <> EmptyString.
Proof. apply String.eqb_neq. Qed.

Lemma envInt_pos (penv : Config.ProcessEnv) (key : string) (fallback : Z) :
  0 < fallback -> 0 < Config.envInt penv key fallback.
Proof.
  intros Hpos. unfold Config.envInt.
  destruct (String.eqb (Config.env penv key "") ""); [exact Hpos|].
  destruct (parseInt (Config.env penv key "")) as [n|]; [|exact Hpos].
  destruct (Number_isFinite (Some n) && (0 <? n)) eqn:E; [|exact Hpos].
  apply andb_true_iff in E. destruct E as [_ E]. now apply Z.ltb_lt.
Qed.

(** X1. [envInt] never yields zero, a negative number or [NaN]: with a
    positive fallback its result is positive whatever the variable holds,
    and it is the fallback whenever the variable is unset or blank. *)
Theorem envInt_positive :
  forall (process_env : Config.ProcessEnv) (key : string) (fallback : Z),
    0 < fallback ->
    0 < Config.envInt process_env key fallback /\
    (Config.env process_env key "" = EmptyString ->
     Config.envInt process_env key fallback = fallback).
Proof.
  intros penv key fallback Hpos. split.
  - now apply envInt_pos.
  - unfold Config.envInt. intros ->. reflexivity.
Qed.

Lemma envInt_positive_witness :
  0 < Config.envInt
        (fun k => if String.eqb k "MAX_PRS_PER_RUN" then Some "-3"%string
                  else None)
        "MAX_PRS_PER_RUN" 1 /\
  (Config.env
     (fun k => if String.eqb k "MAX_PRS_PER_RUN" then Some "-3"%string
               else None)
     "MAX_ISSUES_PER_RUN" "" = EmptyString ->
   Config.envInt
     (fun k => if String.eqb k "MAX_PRS_PER_RUN" then Some "-3"%string
               else None)
     "MAX_ISSUES_PER_RUN" 1 = 1).
Proof.
  split.
  - apply (proj1 (envInt_positive _ "MAX_PRS_PER_RUN"%string 1 eq_refl)).
  - apply (proj2 (envInt_positive _ "MAX_ISSUES_PER_RUN"%string 1 eq_refl)).
Defined.

Lemma includes_In (words : list string) (s : string) :
  includes words s = true <-> In s words.
Proof.
  unfold includes. rewrite existsb_exists. split.
  - intros [w [Hin Heq]]. apply String.eqb_eq in Heq. now subst.
  - intros Hin. exists s. split; [exact Hin | apply String.eqb_refl].
Qed.

Lemma env_unset (penv : Config.ProcessEnv) (key fallback : string) :
  penv key = None -> Config.env penv key fallback = fallback.
Proof. intros H. unfold Config.env. now rewrite H. Qed.

Lemma env_set (penv : Config.ProcessEnv) (key fallback v : string) :
  penv key = Some v ->
  Config.env penv key fallback
    = if String.eqb (trim v) "" then fallback else trim v.
Proof.
  intros H. unfold Config.env. rewrite H.
  destruct (trim v) as [|c rest]; reflexivity.
Qed.

(** X2. [envBool] uses the fallback only when the variable is unset or
    blank. Once the variable holds anything else the fallback plays no
    part: the result is true exactly when the value, trimmed and in lower
    case, is "true", "1" or "yes", and false for every other value. *)
Theorem envBool_fallback_only_when_blank :
  forall (process_env : Config.ProcessEnv) (key : string),
    ((process_env key = None \/
      exists v, process_env key = Some v /\ trim v = EmptyString) ->
     forall fallback, Config.envBool process_env key fallback = fallback) /\
    (forall v,
        process_env key = Some v -> trim v <> EmptyString ->
        Config.envBool process_env key true
          = Config.envBool process_env key false /\
        (Config.envBool process_env key true = true <->
         In (toLowerCase (trim v)) ["true"; "1"; "yes"]%string)).
Proof.
  intros penv key. unfold Config.envBool. split.
  - intros [Hnone | [v [Hv Hblank]]] fallback.
    + now rewrite (env_unset penv key "" Hnone).
    + rewrite (env_set penv key "" v Hv), Hblank. reflexivity.
  - intros v Hv Hne. rewrite (env_set penv key "" v Hv).
    apply eqb_not_empty in Hne. rewrite !Hne.
    split; [reflexivity | apply includes_In].
Qed.

Lemma envBool_witness :
  (forall fallback,
     Config.envBool (fun _ => Some "   "%string) "AUTO_MERGE" fallback
       = fallback) /\
  (Config.envBool (fun _ => Some " Yes "%string) "AUTO_MERGE" true
     = Config.envBool (fun _ => Some " Yes "%string) "AUTO_MERGE" false /\
   (Config.envBool (fun _ => Some " Yes "%string) "AUTO_MERGE" true = true
    <-> In (toLowerCase (trim " Yes ")) ["true"; "1"; "yes"]%string)).
Proof.
  split.
  - apply (proj1 (envBool_fallback_only_when_blank
                    (fun _ => Some "   "%string) "AUTO_MERGE"%string)).
    right. exists "   "%string. split; reflexivity.
  - apply (proj2 (envBool_fallback_only_when_blank
                    (fun _ => Some " Yes "%string) "AUTO_MERGE"%string)
             " Yes "%string); [reflexivity | discriminate].
Defined.

Lemma drop_while_head (p : ascii -> bool) (l : list ascii) (c : ascii)
    (rest : list ascii) :
  drop_while p l = c :: rest -> p c = false.
Proof.
  induction l as [|x l IH]; simpl; [discriminate|].
  destruct (p x) eqn:E; [exact IH|].
  intros H. injection H as <- _. exact E.
Qed.

Lemma drop_while_app_keep (p : ascii -> bool) (xs ys : list ascii)
    (c : ascii) :
  p c = false ->
  drop_while p (xs ++ c :: ys) = drop_while p xs ++ c :: ys.
Proof.
  intros Hc. induction xs as [|x xs IH]; simpl.
  - now rewrite Hc.
  - destruct (p x); [exact IH | reflexivity].
Qed.

Lemma drop_while_end_cons (p : ascii -> bool) (c : ascii) (l : list ascii) :
  p c = false -> drop_while_end p (c :: l) = c :: drop_while_end p l.
Proof.
  intros Hc. unfold drop_while_end. simpl.
  rewrite (drop_while_app_keep p (rev l) [] c Hc), rev_app_distr.
  reflexivity.
Qed.

Lemma drop_while_end_last (p : ascii -> bool) (l front : list ascii)
    (c : ascii) :
  drop_while_end p l = front ++ [c] -> p c = false.
Proof.
  unfold drop_while_end. intros H.
  apply (f_equal (@rev ascii)) in H.
  rewrite rev_involutive, rev_app_distr in H. simpl in H.
  exact (drop_while_head p (rev l) c (rev front) H).
Qed.

Lemma trim_trimmed (s : string) : MoreProps.trimmed (trim s).
Proof.
  unfold MoreProps.trimmed, trim. rewrite chars_of_chars. split.
  - intros c rest H.
    destruct (drop_while is_white (chars s)) as [|c0 r] eqn:E.
    + discriminate H.
    + pose proof (drop_while_head _ _ _ _ E) as Hc0.
      rewrite (drop_while_end_cons is_white c0 r Hc0) in H.
      injection H as <- _. exact Hc0.
  - intros c front H. exact (drop_while_end_last _ _ _ _ H).
Qed.

Lemma env_required (penv : Config.ProcessEnv) (key : string) :
  Config.env penv key "" <> EmptyString ->
  exists v, penv key = Some v /\ Config.env penv key "" = trim v.
Proof.
  intros Hne. destruct (penv key) as [v|] eqn:E.
  - exists v. split; [reflexivity|].
    rewrite (env_set penv key "" v E) in *.
    destruct (String.eqb (trim v) ""); [now contradiction Hne | reflexivity].
  - rewrite (env_unset penv key "" E) in Hne. now contradiction Hne.
Qed.

Lemma env_required_trimmed (penv : Config.ProcessEnv) (key : string) :
  Config.env penv key "" <> EmptyString ->
  MoreProps.trimmed (Config.env penv key "").
Proof.
  intros Hne. destruct (env_required penv key Hne) as [v [_ ->]].
  apply trim_trimmed.
Qed.

(** X3. A configuration that [loadConfig] returns is validated: token,
    owner and repository are non-empty and carry no white space at either
    end, both per-run caps are at least 1 (so the orchestrator runs at least
    one iteration), and the log level is one of the four known ones.
    [loadConfig] throws exactly when the token, the owner or the repository
    is unset or blank, or the log level is none of the four. *)
Theorem loadConfig_validates :
  forall (process_env : Config.ProcessEnv) (default_analytics_path : string),
    (forall c,
        Config.loadConfig process_env default_analytics_path = Ok c ->
        Config.githubToken c <> EmptyString /\
        Config.owner c <> EmptyString /\
        Config.repo c <> EmptyString /\
        MoreProps.trimmed (Config.githubToken c) /\
        MoreProps.trimmed (Config.owner c) /\
        MoreProps.trimmed (Config.repo c) /\
        1 <= Config.maxIssuesPerRun c /\
        1 <= Config.maxPrsPerRun c /\
        1 <= Orchestrator.iterations c /\
        In (Config.logLevel c) ["debug"; "info"; "warn"; "error"]%string) /\
    ((exists e,
         Config.loadConfig process_env default_analytics_path = Throw e) <->
     (Config.env process_env "GITHUB_TOKEN" "" = EmptyString \/
      Config.env process_env "GITHUB_OWNER" "" = EmptyString \/
      Config.env process_env "GITHUB_REPO" "" = EmptyString \/
      ~ In (Config.env process_env "LOG_LEVEL" "info")
           ["debug"; "info"; "warn"; "error"]%string)).
Proof.
  intros penv path. unfold Config.loadConfig.
  destruct (String.eqb (Config.env penv "GITHUB_TOKEN" "") "") eqn:Et.
  { apply eqb_empty in Et. split; [discriminate|].
    split; [intros _; now left | intros _; eexists; reflexivity]. }
  destruct (String.eqb (Config.env penv "GITHUB_OWNER" "") "") eqn:Eo.
  { apply eqb_empty in Eo. split; [discriminate|].
    split; [intros _; right; now left | intros _; eexists; reflexivity]. }
  destruct (String.eqb (Config.env penv "GITHUB_REPO" "") "") eqn:Er.
  { apply eqb_empty in Er. split; [discriminate|].
    split; [intros _; right; right; now left
           | intros _; eexists; reflexivity]. }
  cbn [orb].
  apply eqb_not_empty in Et, Eo, Er.
  destruct (includes ["debug"; "info"; "warn"; "error"]%string
              (Config.env penv "LOG_LEVEL" "info")) eqn:El; cbn [negb].
  - apply includes_In in El. split.
    + intros c H. injection H as <-. cbn.
      assert (Hi : 0 < Config.envInt penv "MAX_ISSUES_PER_RUN" 1)
        by (apply envInt_pos; lia).
      assert (Hp : 0 < Config.envInt penv "MAX_PRS_PER_RUN" 1)
        by (apply envInt_pos; lia).
      repeat (apply conj); try assumption;
        try (now apply env_required_trimmed); try lia.
      unfold Orchestrator.iterations. cbn. lia.
    + split.
      * intros [e He]. discriminate He.
      * intros [H|[H|[H|H]]]; contradiction.
  - split; [discriminate|].
    split; [| intros _; eexists; reflexivity].
    intros _. right; right; right. intros Hin.
    apply includes_In in Hin. rewrite Hin in El. discriminate El.
Qed.

Lemma loadConfig_validates_witness :
  Config.githubToken MoreProps.sample_config <> EmptyString /\
  Config.owner MoreProps.sample_config <> EmptyString /\
  Config.repo MoreProps.sample_config <> EmptyString /\
  MoreProps.trimmed (Config.githubToken MoreProps.sample_config) /\
  MoreProps.trimmed (Config.owner MoreProps.sample_config) /\
  MoreProps.trimmed (Config.repo MoreProps.sample_config) /\
  1 <= Config.maxIssuesPerRun MoreProps.sample_config /\
  1 <= Config.maxPrsPerRun MoreProps.sample_config /\
  1 <= Orchestrator.iterations MoreProps.sample_config /\
  In (Config.logLevel MoreProps.sample_config)
     ["debug"; "info"; "warn"; "error"]%string.
Proof.
  apply (proj1 (loadConfig_validates MoreProps.sample_env "/data/analytics.json")
           MoreProps.sample_config).
  reflexivity.
Defined.

(* ===================================================================== *)
(** * Properties of [slugify]                                             *)
(* ===================================================================== *)

Import Slug MoreProps.

Lemma chars_length (s : string) : List.length (chars s) = String.length s.
Proof.
  unfold chars. induction s as [|c s IH]; simpl; [reflexivity | now rewrite IH].
Qed.

Lemma drop_while_suffix (p : ascii -> bool) (l : list ascii) :
  exists pre, l = pre ++ drop_while p l.
Proof.
  induction l as [|x l [pre IH]]; simpl.
  - exists []. reflexivity.
  - destruct (p x).
    + exists (x :: pre). simpl. now rewrite <- IH.
    + exists []. reflexivity.
Qed.

Lemma drop_while_end_prefix (p : ascii -> bool) (l : list ascii) :
  exists suf, l = drop_while_end p l ++ suf.
Proof.
  unfold drop_while_end.
  destruct (drop_while_suffix p (rev l)) as [pre H].
  exists (rev pre).
  rewrite <- rev_app_distr, <- H. now rewrite rev_involutive.
Qed.

Lemma no_double_dash_app (a b : list ascii) :
  no_double_dash (a ++ b) -> no_double_dash a /\ no_double_dash b.
Proof.
  induction a as [|x a IH]; simpl.
  - intros H. split; [exact I | exact H].
  - intros [Hx Hrest]. destruct (IH Hrest) as [Ha Hb].
    split; [|exact Hb]. split; [|exact Ha].
    destruct a as [|y a]; [exact I | exact Hx].
Qed.

Lemma is_slug_char_not_dash (c : ascii) : is_slug_char c = true -> c <> dash.
Proof. intros H ->. discriminate H. Qed.

Lemma is_dash_eq (c : ascii) : is_dash c = true <-> c = dash.
Proof. unfold is_dash. apply Ascii.eqb_eq. Qed.

Lemma replace_runs_safe (b : bool) (l : list ascii) :
  Forall branch_safe (replace_runs b l).
Proof.
  revert b. induction l as [|c l IH]; intros b; simpl; [constructor|].
  destruct (is_slug_char c) eqn:E.
  - constructor; [now left | apply IH].
  - destruct b; [apply IH|]. constructor; [now right | apply IH].
Qed.

Lemma replace_runs_in_run_head (l : list ascii) (rest : list ascii) :
  replace_runs true l <> dash :: rest.
Proof.
  induction l as [|c l IH]; simpl; [discriminate|].
  destruct (is_slug_char c) eqn:E; [|exact IH].
  intros H. injection H as -> _. discriminate E.
Qed.

Lemma replace_runs_no_double_dash (b : bool) (l : list ascii) :
  no_double_dash (replace_runs b l).
Proof.
  revert b. induction l as [|c l IH]; intros b; simpl; [exact I|].
  destruct (is_slug_char c) eqn:E.
  - simpl. split; [|apply IH].
    destruct (replace_runs false l); [exact I|].
    intros [-> _]. discriminate E.
  - destruct b; [apply IH|]. simpl. split; [|apply IH].
    destruct (replace_runs true l) as [|y r] eqn:Er; [exact I|].
    intros [_ ->]. exact (replace_runs_in_run_head l r Er).
Qed.


Lemma strip_dashes_sublist (l : list ascii) :
  exists pre suf, l = pre ++ strip_dashes l ++ suf.
Proof.
  unfold strip_dashes.
  destruct (drop_while_suffix is_dash l) as [pre Hpre].
  destruct (drop_while_end_prefix is_dash (drop_while is_dash l))
    as [suf Hsuf].
  exists pre, suf. now rewrite <- Hsuf.
Qed.

Lemma strip_dashes_head (l : list ascii) (rest : list ascii) :
  strip_dashes l <> dash :: rest.
Proof.
  unfold strip_dashes. intros H.
  destruct (drop_while is_dash l) as [|c r] eqn:E; [discriminate H|].
  pose proof (drop_while_head _ _ _ _ E) as Hc.
  rewrite (drop_while_end_cons is_dash c r Hc) in H.
  injection H as -> _. discriminate Hc.
Qed.


Lemma chars_toLowerCase (text : string) :
  chars (toLowerCase text) = map lower (chars text).
Proof. unfold toLowerCase. apply chars_of_chars. Qed.

Lemma slugify_chars (text : string) :
  chars (slugify text)
    = firstn 60 (strip_dashes (replace_runs false (map lower (chars text)))).
Proof. unfold slugify. apply chars_of_chars. Qed.

(** X4. Whatever the text, its slug has at most 60 characters, consists of
    lower-case letters, digits and dashes only, does not start with a dash
    and has no two dashes in a row. *)
Theorem slugify_is_branch_safe :
  forall text,
    (String.length (slugify text) <= 60)%nat /\
    Forall branch_safe (chars (slugify text)) /\
    (forall rest, chars (slugify text) <> dash :: rest) /\
    no_double_dash (chars (slugify text)).
Proof.
  intros text. rewrite <- chars_length, slugify_chars.
  set (l1 := replace_runs false (map lower (chars text))).
  destruct (strip_dashes_sublist l1) as [pre [suf Hsub]].
  assert (Hsafe : Forall branch_safe (strip_dashes l1)).
  { pose proof (replace_runs_safe false (map lower (chars text))) as H.
    fold l1 in H. rewrite Hsub in H.
    apply Forall_app in H. destruct H as [_ H].
    apply Forall_app in H. now destruct H. }
  assert (Hnd : no_double_dash (strip_dashes l1)).
  { pose proof (replace_runs_no_double_dash false (map lower (chars text)))
      as H.
    fold l1 in H. rewrite Hsub in H.
    apply no_double_dash_app in H. destruct H as [_ H].
    apply no_double_dash_app in H. now destruct H. }
  split; [apply firstn_le_length|].
  split; [|split].
  - rewrite <- (firstn_skipn 60 (strip_dashes l1)) in Hsafe.
    apply Forall_app in Hsafe. now destruct Hsafe.
  - intros rest H.
    destruct (strip_dashes l1) as [|c r] eqn:E; [discriminate H|].
    simpl in H. injection H as -> _.
    exact (strip_dashes_head l1 r E).
  - rewrite <- (firstn_skipn 60 (strip_dashes l1)) in Hnd.
    apply no_double_dash_app in Hnd. now destruct Hnd.
Qed.



(** A text cut right after a separator keeps the dash at its end. *)
Example slugify_truncated_trailing_dash :
  slugify
    "Review and tighten the TypeScript strict mode compiler flag settings"
  = "review-and-tighten-the-typescript-strict-mode-compiler-flag-"%string.
Proof. reflexivity. Qed.

Lemma lower_slug_char (c : ascii) : is_slug_char c = true -> lower c = c.
Proof.
  unfold is_slug_char, lower. intros H.
  destruct ((Nat.leb 65 (nat_of_ascii c) && Nat.leb (nat_of_ascii c) 90)
            || (Nat.leb 192 (nat_of_ascii c) && Nat.leb (nat_of_ascii c) 222
                && negb (Nat.eqb (nat_of_ascii c) 215))) eqn:E;
    [|reflexivity].
  exfalso.
  apply orb_true_iff in H. apply orb_true_iff in E.
  destruct E as [E|E]; apply andb_true_iff in E; destruct E as [E1 E2].
  - apply Nat.leb_le in E1, E2.
    destruct H as [H|H]; apply andb_true_iff in H; destruct H as [H1 H2];
      apply Nat.leb_le in H1, H2; lia.
  - apply andb_true_iff in E1. destruct E1 as [E1 _].
    apply Nat.leb_le in E1.
    destruct H as [H|H]; apply andb_true_iff in H; destruct H as [H1 H2];
      apply Nat.leb_le in H1, H2; lia.
Qed.

Lemma replace_runs_all_slug (l : list ascii) :
  Forall (fun c => is_slug_char c = true) l -> replace_runs false l = l.
Proof.
  induction 1 as [|c l Hc _ IH]; simpl; [reflexivity|].
  now rewrite Hc, IH.
Qed.

Lemma replace_runs_none_slug (b : bool) (l : list ascii) :
  Forall (fun c => is_slug_char c = false) l ->
  replace_runs b l = [] \/ replace_runs b l = [dash].
Proof.
  intros H. revert b. induction H as [|c l Hc _ IH]; intros b; simpl.
  - now left.
  - rewrite Hc. destruct b; [apply IH|].
    right. destruct (IH true) as [E|E]; [now rewrite E|].
    exfalso. exact (replace_runs_in_run_head l [] E).
Qed.

Lemma drop_while_none (p : ascii -> bool) (l : list ascii) :
  Forall (fun c => p c = false) l -> drop_while p l = l.
Proof. intros H. destruct H as [|c l Hc _]; simpl; [|rewrite Hc]; reflexivity. Qed.

Lemma drop_while_end_none (p : ascii -> bool) (l : list ascii) :
  Forall (fun c => p c = false) l -> drop_while_end p l = l.
Proof.
  intros H. unfold drop_while_end.
  rewrite drop_while_none; [apply rev_involutive | now apply Forall_rev].
Qed.

Lemma replace_runs_keeps_slug_char (b : bool) (l : list ascii) (c : ascii) :
  In c l -> is_slug_char c = true -> In c (replace_runs b l).
Proof.
  intros Hin Hc. revert b. induction l as [|x l IH]; intros b; [contradiction|].
  simpl. destruct Hin as [->|Hin].
  - rewrite Hc. now left.
  - destruct (is_slug_char x); [right; now apply IH|].
    destruct b; [now apply IH | right; now apply IH].
Qed.

Lemma drop_while_stops (p : ascii -> bool) (l : list ascii) (c : ascii) :
  In c l -> p c = false -> drop_while p l <> [].
Proof.
  intros Hin Hc. induction l as [|x l IH]; [contradiction|]. simpl.
  destruct (p x) eqn:E; [|discriminate].
  destruct Hin as [->|Hin]; [congruence | now apply IH].
Qed.

Lemma strip_dashes_nonempty (l : list ascii) (c : ascii) :
  In c l -> is_slug_char c = true -> strip_dashes l <> [].
Proof.
  intros Hin Hc Hnil. unfold strip_dashes, drop_while_end in Hnil.
  assert (Hd : is_dash c = false).
  { destruct (is_dash c) eqn:E; [|reflexivity].
    apply is_dash_eq in E. subst. discriminate Hc. }
  destruct (drop_while is_dash l) as [|y r] eqn:E.
  - exact (drop_while_stops is_dash l c Hin Hd E).
  - pose proof (drop_while_head _ _ _ _ E) as Hy.
    apply (f_equal (@rev ascii)) in Hnil. rewrite rev_involutive in Hnil.
    simpl in Hnil.
    refine (drop_while_stops is_dash (rev (y :: r)) y _ Hy Hnil).
    apply -> in_rev. now left.
Qed.

(** X6. A text made of lower-case letters and digits only, at most 60 of
    them, is its own slug; and the slug is empty exactly when the lowered
    text has no lower-case letter and no digit at all (an empty title, or
    one of ASCII punctuation only). *)
Theorem slugify_fixed_points_and_empty :
  forall text,
    (Forall (fun c => is_slug_char c = true) (chars text) ->
     (String.length text <= 60)%nat ->
     slugify text = text) /\
    (slugify text = EmptyString <->
     Forall (fun c => is_slug_char c = false) (chars (toLowerCase text))).
Proof.
  intros text. rewrite chars_toLowerCase. split.
  - intros Hall Hlen. unfold slugify.
    assert (Hmap : map lower (chars text) = chars text).
    { clear Hlen. induction Hall as [|c l Hc _ IH]; simpl; [reflexivity|].
      now rewrite (lower_slug_char c Hc), IH. }
    rewrite Hmap, (replace_runs_all_slug _ Hall).
    assert (Hnd : Forall (fun c => is_dash c = false) (chars text)).
    { eapply Forall_impl; [|exact Hall]. intros c Hc.
      destruct (is_dash c) eqn:E; [|reflexivity].
      apply is_dash_eq in E. subst. discriminate Hc. }
    unfold strip_dashes.
    rewrite (drop_while_none _ _ Hnd), (drop_while_end_none _ _ Hnd).
    rewrite firstn_all2 by (rewrite chars_length; exact Hlen).
    apply of_chars_chars.
  - split.
    + intros Hempty.
      apply Forall_forall. intros c Hin.
      destruct (is_slug_char c) eqn:E; [exfalso | reflexivity].
      apply (f_equal chars) in Hempty. rewrite slugify_chars in Hempty.
      assert (Hne : strip_dashes
                      (replace_runs false (map lower (chars text))) <> []).
      { apply (strip_dashes_nonempty _ c); [|exact E].
        apply replace_runs_keeps_slug_char; [exact Hin | exact E]. }
      destruct (strip_dashes (replace_runs false (map lower (chars text))));
        [now apply Hne | discriminate Hempty].
    + intros Hnone. unfold slugify.
      destruct (replace_runs_none_slug false _ Hnone) as [E|E]; rewrite E;
        reflexivity.
Qed.

Lemma slugify_fixed_points_witness :
  slugify "fix2024bug" = "fix2024bug"%string /\
  slugify "?! ... (#42)" = "42"%string /\
  slugify "?! ... (#)" = EmptyString.
Proof.
  split; [|split].
  - apply (proj1 (slugify_fixed_points_and_empty "fix2024bug")).
    + repeat constructor.
    + vm_compute. lia.
  - reflexivity.
  - apply (proj2 (slugify_fixed_points_and_empty "?! ... (#)")).
    repeat constructor.
Defined.

(* ===================================================================== *)
(** * Further properties of the client and the managers                   *)
(* ===================================================================== *)

Section MonadInversion.
Context {S A B : Type}.

Lemma bind_ok_inv (m : M S A) (k : A -> M S B) (s s2 : S) (b : B)
    (t : list Event) :
  bind m k s = (Ok b, s2, t) ->
  exists a s1 t1 t2,
    m s = (Ok a, s1, t1) /\ k a s1 = (Ok b, s2, t2) /\ t = t1 ++ t2.
Proof.
  unfold bind. destruct (m s) as [[[a|e] s1] t1]; [|discriminate].
  destruct (k a s1) as [[r s2'] t2] eqn:Ek. intros H. injection H as -> -> <-.
  exists a, s1, t1, t2. repeat split. exact Ek.
Qed.

Lemma bind_throw_inv (m : M S A) (k : A -> M S B) (s s2 : S) (e : JsValue)
    (t : list Event) :
  bind m k s = (Throw e, s2, t) ->
  m s = (Throw e, s2, t) \/
  exists a s1 t1 t2,
    m s = (Ok a, s1, t1) /\ k a s1 = (Throw e, s2, t2) /\ t = t1 ++ t2.
Proof.
  unfold bind. destruct (m s) as [[[a|e'] s1] t1].
  - destruct (k a s1) as [[r s2'] t2] eqn:Ek. intros H.
    injection H as -> -> <-. right.
    exists a, s1, t1, t2. repeat split. exact Ek.
  - intros H. injection H as -> -> ->. now left.
Qed.

End MonadInversion.

Section Client2.
Context {S : Type} (env : Env S).

(** A run of the wrapper is one run of the thunk, or two around one sleep. *)
Lemma withRateLimit_runs {T : Type} (label : string) (fn : M S T) (s : S) :
  withRateLimit env label fn s = fn s \/
  exists e s1 t1 w r s2 t2,
    fn s = (Throw e, s1, t1) /\ throttling e /\
    fn (elapse env w s1) = (r, s2, t2) /\
    withRateLimit env label fn s = (r, s2, t1 ++ EvSleep w :: t2).
Proof.
  destruct (fn s) as [[[v|e] s1] t1] eqn:E1.
  - left. now apply withRateLimit_first_try.
  - destruct (isRateLimited e) eqn:Er.
    + right. apply isRateLimited_throttling in Er.
      destruct (fn (elapse env (retryAfterMs e) s1)) as [[r s2] t2] eqn:E2.
      exists e, s1, t1, (retryAfterMs e), r, s2, t2.
      repeat split; try assumption.
      now apply (withRateLimit_retry env label fn s s1 s2 e t1 t2 r).
    + left. apply withRateLimit_other; [exact E1|].
      intros Hth. apply isRateLimited_throttling in Hth. congruence.
Qed.

(** For a thunk that is one request: the request once, or twice around one
    sleep. *)
Lemma withRateLimit_request_trace {T : Type} (label : string) (fn : M S T)
    (ev : Event) (s : S) :
  (forall s0, trace (fn s0) = [ev]) ->
  trace (withRateLimit env label fn s) = [ev] \/
  exists w, trace (withRateLimit env label fn s) = [ev; EvSleep w; ev].
Proof.
  intros Hev.
  destruct (withRateLimit_runs label fn s)
    as [-> | [e [s1 [t1 [w [r [s2 [t2 [H1 [_ [H2 ->]]]]]]]]]]].
  - left. apply Hev.
  - right. exists w.
    pose proof (Hev s) as Ha. pose proof (Hev (elapse env w s1)) as Hb.
    rewrite H1 in Ha. rewrite H2 in Hb. unfold trace in *. simpl in *.
    now rewrite Ha, Hb.
Qed.

End Client2.

(** X7. The wrapper is transparent for a thunk whose execution does not fail
    with a throttling signal: the outcome, the state and the events are
    those of that single execution, with no sleep and no second execution.
    In particular a success is never retried. *)
Theorem withRateLimit_transparent :
  forall (S : Type) (env : Env S) (T : Type) (label : string) (fn : M S T)
         (s : S),
    (forall e, outcome (fn s) = Throw e -> ~ throttling e) ->
    withRateLimit env label fn s = fn s.
Proof.
  intros S env T label fn s H.
  destruct (withRateLimit_runs env label fn s)
    as [E | [e [s1 [t1 [w [r [s2 [t2 [H1 [Hth _]]]]]]]]]]; [exact E|].
  exfalso. apply (H e); [|exact Hth]. now rewrite H1.
Qed.

Lemma withRateLimit_transparent_witness :
  withRateLimit Scripted.env "merge-pr"
      (octokit_pulls_merge Scripted.env 7 "squash" "merge: PR #7" "m")
      (Scripted.start [Scripted.Reject (Scripted.request_error 409 [])])
    = octokit_pulls_merge Scripted.env 7 "squash" "merge: PR #7" "m"
        (Scripted.start [Scripted.Reject (Scripted.request_error 409 [])]).
Proof.
  apply (withRateLimit_transparent _ Scripted.env).
  intros e He. injection He as <-.
  intros [H|H]; discriminate H.
Defined.

Lemma deleteBranch_run {S : Type} (env : Env S) (branchName : string)
    (s : S) :
  outcome (deleteBranch env branchName s) = Ok tt /\
  trace (deleteBranch env branchName s)
    = [EvRequest (GitDeleteRef ("heads/" ++ branchName))].
Proof.
  unfold deleteBranch, try_catch, octokit_git_deleteRef.
  destruct (git_deleteRef env ("heads/" ++ branchName) s) as [[[]|e] s1];
    split; reflexivity.
Qed.

(** X8. [deleteBranch] never fails: whatever the remote answers, it returns
    normally after exactly one delete request for [heads/<branch>], which is
    neither retried nor preceded by a sleep. *)
Theorem deleteBranch_never_throws :
  forall (S : Type) (env : Env S) (branchName : string) (s : S),
    outcome (deleteBranch env branchName s) = Ok tt /\
    trace (deleteBranch env branchName s)
      = [EvRequest (GitDeleteRef ("heads/" ++ branchName))].
Proof.
  intros S env b s. apply deleteBranch_run.
Qed.

(** X9. [pickRandom] throws on an empty list and otherwise returns a member
    of the list, causing no remote event; so [getRandomComment] always
    returns one of the phrases of the pool. [Math.random()] is below 1, which
    is the hypothesis on the index drawn. *)
Theorem pickRandom_member :
  forall (S : Type) (env : Env S) (items : list string) (s : S),
    (items = [] ->
     pickRandom env items s
       = (Throw (Error "pickRandom called with empty array"), s, [])) /\
    (items <> [] ->
     (fst (random_below env (List.length items) s) < List.length items)%nat ->
     exists x,
       pickRandom env items s
         = (Ok x, snd (random_below env (List.length items) s), []) /\
       In x items) /\
    ((fst (random_below env (List.length COMMENTS) s)
        < List.length COMMENTS)%nat ->
     exists x,
       outcome (getRandomComment env s) = Ok x /\ In x COMMENTS).
Proof.
  intros S env items s.
  assert (Hpick : forall l : list string,
             l <> [] ->
             (fst (random_below env (List.length l) s) < List.length l)%nat ->
             exists x,
               pickRandom env l s
                 = (Ok x, snd (random_below env (List.length l) s), []) /\
               In x l).
  { intros l Hne Hlt. unfold pickRandom.
    destruct l as [|y l']; [now contradiction Hne|].
    cbv beta iota.
    destruct (random_below env (List.length (y :: l')) s) as [i s1].
    cbn [fst snd] in *.
    exists (nth i (y :: l') ""%string). split; [reflexivity|].
    apply nth_In. exact Hlt. }
  split; [intros ->; reflexivity|]. split; [exact (Hpick items)|].
  intros Hlt. destruct (Hpick COMMENTS) as [x [Hx Hin]];
    [discriminate | exact Hlt |].
  exists x. unfold getRandomComment. now rewrite Hx.
Qed.

Lemma pickRandom_member_witness :
  (exists x,
      pickRandom Scripted.env ISSUE_TITLES (Scripted.start [])
        = (Ok x,
           snd (random_below Scripted.env (List.length ISSUE_TITLES)
                  (Scripted.start [])), []) /\
      In x ISSUE_TITLES) /\
  (exists x,
      outcome (getRandomComment Scripted.env (Scripted.start [])) = Ok x /\
      In x COMMENTS).
Proof.
  split.
  - apply (proj1 (proj2 (pickRandom_member _ Scripted.env ISSUE_TITLES
                           (Scripted.start [])))).
    + discriminate.
    + vm_compute. lia.
  - apply (proj2 (proj2 (pickRandom_member _ Scripted.env []
                           (Scripted.start [])))).
    vm_compute. lia.
Defined.

Section Comments2.
Context {S : Type} (env : Env S).




End Comments2.



Section Poller2.
Context {S : Type} (env : Env S).

(** One attempt on the recording remote is the attempt on [env], and the
    log grows by the polls made: the last of them is the poll whose answer
    the attempt ends with. *)
Lemma attempt_recorded (pr : Z) (s s1 : S) (log : Log S)
    (r : Outcome PullData) (t : list Event) :
  withRateLimit env "check-mergeable" (octokit_pulls_get env pr) s
    = (r, s1, t) ->
  exists front s0,
    withRateLimit (recording env) "check-mergeable"
      (octokit_pulls_get (recording env) pr) (s, log)
    = (r, (s1, log ++ front ++ [(pr, s0)]), t) /\
    pulls_get env pr s0 = (r, s1).
Proof.
  unfold withRateLimit, try_catch, octokit_pulls_get, recording.
  cbn [pulls_get fst snd].
  destruct (pulls_get env pr s) as [[d|e] s'] eqn:E1.
  - intros H. injection H as <- <- <-.
    exists [], s. split; [reflexivity | exact E1].
  - destruct (isRateLimited e).
    + unfold bind, sleep. cbn [elapse pulls_get fst snd].
      destruct (pulls_get env pr (elapse env (retryAfterMs e) s'))
        as [r2 s2] eqn:E2.
      intros H. injection H as <- <- <-.
      exists [(pr, s)], (elapse env (retryAfterMs e) s').
      split; [|exact E2].
      rewrite <- app_assoc. reflexivity.
    + unfold throw. intros H. injection H as <- <- <-.
      exists [], s. split; [now rewrite app_nil_r | exact E1].
Qed.

(** The loop on the recording remote is the loop on [env]; when the loop
    answers true or fails, the last poll of the log is the one that was
    answered so. *)
Lemma loop_recorded (n : nat) :
  forall (pr : Z) (s s2 : S) (log : Log S) (r : Outcome bool)
         (t : list Event),
    isMergeable_loop env n pr s = (r, s2, t) ->
    exists extra,
      isMergeable_loop (recording env) n pr (s, log)
      = (r, (s2, log ++ extra), t) /\
      (r = Ok true ->
       exists front s0 d,
         extra = front ++ [(pr, s0)] /\
         pulls_get env pr s0 = (Ok d, s2) /\
         data_mergeable d = Some true) /\
      (forall e,
          r = Throw e ->
          exists front s0,
            extra = front ++ [(pr, s0)] /\
            pulls_get env pr s0 = (Throw e, s2)).
Proof.
  induction n as [|n IH]; intros pr s s2 log r t H.
  - injection H as <- <- <-. exists []. rewrite app_nil_r.
    split; [reflexivity|]. split; [discriminate | intros e; discriminate].
  - cbn [isMergeable_loop] in H |- *. unfold bind at 1 in H.
    unfold bind at 1.
    destruct (withRateLimit env "check-mergeable" (octokit_pulls_get env pr) s)
      as [[r1 s1] t1] eqn:Ew.
    destruct (attempt_recorded pr s s1 log r1 t1 Ew)
      as [front [s0 [Hrec Hpoll]]].
    rewrite Hrec. clear Hrec.
    destruct r1 as [d|e1].
    + destruct (data_mergeable d) as [[|]|] eqn:Ed.
      * injection H as <- <- <-.
        exists (front ++ [(pr, s0)]).
        split; [reflexivity|]. split.
        -- intros _. now exists front, s0, d.
        -- intros e; discriminate.
      * injection H as <- <- <-.
        exists (front ++ [(pr, s0)]).
        split; [reflexivity|]. split; [discriminate | intros e; discriminate].
      * unfold bind, sleep in H |- *. cbn [elapse recording fst snd] in H |- *.
        destruct (isMergeable_loop env n pr (elapse env DELAY_MS s1))
          as [[r3 s3] t3] eqn:El.
        destruct (IH pr (elapse env DELAY_MS s1) s3
                    (log ++ front ++ [(pr, s0)]) r3 t3 El)
          as [extra [Hl [Ht Hf]]].
        match goal with
        | |- context [isMergeable_loop (recording env) n pr ?w] =>
            replace (isMergeable_loop (recording env) n pr w)
              with (r3, (s3, (log ++ front ++ [(pr, s0)]) ++ extra), t3)
              by (symmetry; exact Hl)
        end.
        clear Hl. injection H as <- <- <-.
        exists ((front ++ [(pr, s0)]) ++ extra).
        split; [now rewrite <- !app_assoc|]. split.
        -- intros Hr. destruct (Ht Hr) as [fr [s0' [d' [-> Hp]]]].
           exists ((front ++ [(pr, s0)]) ++ fr), s0', d'.
           split; [now rewrite <- !app_assoc | exact Hp].
        -- intros e Hr. destruct (Hf e Hr) as [fr [s0' [-> Hp]]].
           exists ((front ++ [(pr, s0)]) ++ fr), s0'.
           split; [now rewrite <- !app_assoc | exact Hp].
    + injection H as <- <- <-.
      exists (front ++ [(pr, s0)]).
      split; [reflexivity|]. split; [discriminate|].
      intros e' He. injection He as <-. now exists front, s0.
Qed.

Lemma poll_trace_cases (pr : Z) (s : S) :
  trace (withRateLimit env "check-mergeable" (octokit_pulls_get env pr) s)
    = [EvRequest (PullsGet pr)] \/
  exists w,
    trace (withRateLimit env "check-mergeable" (octokit_pulls_get env pr) s)
      = [EvRequest (PullsGet pr); EvSleep w; EvRequest (PullsGet pr)].
Proof.
  apply withRateLimit_request_trace.
  intros s0. unfold octokit_pulls_get.
  destruct (pulls_get env pr s0). reflexivity.
Qed.

Lemma loop_bounded (n : nat) :
  forall (pr : Z) (s : S),
    (count is_poll (trace (isMergeable_loop env n pr s)) <= 2 * n)%nat /\
    (count is_sleep (trace (isMergeable_loop env n pr s)) <= 2 * n)%nat /\
    (count is_poll (trace (isMergeable_loop env n pr s))
       + count is_sleep (trace (isMergeable_loop env n pr s))
     = List.length (trace (isMergeable_loop env n pr s)))%nat.
Proof.
  induction n as [|n IH]; intros pr s;
    [unfold count; repeat split; simpl; lia|].
  cbn [isMergeable_loop]. rewrite trace_bind.
  set (w := withRateLimit env "check-mergeable" (octokit_pulls_get env pr) s).
  assert (Hw : (count is_poll (trace w) <= 2)%nat /\
               (count is_sleep (trace w) <= 1)%nat /\
               (count is_poll (trace w) + count is_sleep (trace w)
                = List.length (trace w))%nat).
  { destruct (poll_trace_cases pr s) as [E | [ms E]]; fold w in E;
      rewrite E; unfold count; simpl; lia. }
  assert (Hk : forall tl,
             tl = match outcome w with
                  | Ok d =>
                      trace (match data_mergeable d with
                             | Some true => ret true
                             | Some false => ret false
                             | None =>
                                 bind (sleep env DELAY_MS)
                                   (fun _ => isMergeable_loop env n pr)
                             end (final w))
                  | Throw _ => []
                  end ->
             (count is_poll tl <= 2 * n)%nat /\
             (count is_sleep tl <= 1 + 2 * n)%nat /\
             (count is_poll tl + count is_sleep tl = List.length tl)%nat).
  { intros tl ->. destruct (outcome w) as [d|e];
      [|unfold count; simpl; lia].
    destruct (data_mergeable d) as [[|]|];
      try (unfold count; simpl; lia).
    rewrite trace_bind. cbn [sleep trace outcome final fst snd].
    destruct (IH pr (elapse env DELAY_MS (final w))) as [H1 [H2 H3]].
    unfold final in *.
    rewrite !count_app, length_app. unfold count in *. simpl. lia. }
  specialize (Hk _ eq_refl).
  rewrite !count_app, length_app. lia.
Qed.

End Poller2.

(** X11. [isMergeable] answers true only when the last poll it made was
    answered with [mergeable: true], and it fails only with the failure that
    its last poll produced; it never reports a pull request as mergeable on
    its own account. The polls of a call are those the recording remote
    logs: the call on the recording remote has the outcome, the final state
    and the events of the call on the remote itself, and its log ends with
    the state at which the deciding poll of this pull request was made. *)
Theorem isMergeable_true_only_if_confirmed :
  forall (S : Type) (env : Env S) (pr : Z) (s : S),
    isMergeable (recording env) pr (s, [])
    = (outcome (isMergeable env pr s),
       (final (isMergeable env pr s), polls_of_isMergeable env pr s),
       trace (isMergeable env pr s)) /\
    (outcome (isMergeable env pr s) = Ok true ->
     exists front s0 d,
       polls_of_isMergeable env pr s = front ++ [(pr, s0)] /\
       pulls_get env pr s0 = (Ok d, final (isMergeable env pr s)) /\
       data_mergeable d = Some true) /\
    (forall e,
        outcome (isMergeable env pr s) = Throw e ->
        exists front s0,
          polls_of_isMergeable env pr s = front ++ [(pr, s0)] /\
          pulls_get env pr s0 = (Throw e, final (isMergeable env pr s))).
Proof.
  intros S env pr s. unfold polls_of_isMergeable, isMergeable.
  destruct (isMergeable_loop env MAX_ATTEMPTS pr s) as [[r s2] t] eqn:E.
  destruct (loop_recorded env MAX_ATTEMPTS pr s s2 [] r t E)
    as [extra [Hl [Ht Hf]]].
  repeat match goal with
  | |- context [isMergeable_loop (recording env) MAX_ATTEMPTS pr ?w] =>
      replace (isMergeable_loop (recording env) MAX_ATTEMPTS pr w)
        with (r, (s2, extra), t) by (symmetry; exact Hl)
  end.
  unfold outcome, final, trace. cbn [fst snd].
  split; [reflexivity|]. split; [exact Ht | exact Hf].
Qed.

Lemma isMergeable_true_witness :
  exists front s0 d,
    polls_of_isMergeable Scripted.env 7
      (Scripted.start
         [Scripted.Accept None;
          Scripted.Reject (Scripted.request_error 429 []);
          Scripted.Accept (Some true)])
    = front ++ [(7, s0)] /\
    pulls_get Scripted.env 7 s0
    = (Ok d,
       final (isMergeable Scripted.env 7
                (Scripted.start
                   [Scripted.Accept None;
                    Scripted.Reject (Scripted.request_error 429 []);
                    Scripted.Accept (Some true)]))) /\
    data_mergeable d = Some true.
Proof.
  apply (proj1 (proj2 (isMergeable_true_only_if_confirmed _ Scripted.env 7
                  (Scripted.start
                     [Scripted.Accept None;
                      Scripted.Reject (Scripted.request_error 429 []);
                      Scripted.Accept (Some true)])))).
  reflexivity.
Defined.

(** X12. Whatever the remote answers, one call of [isMergeable] sends at
    most 10 poll requests (5 attempts, each retried at most once), sleeps at
    most 10 times, and causes no event of any other kind. *)
Theorem isMergeable_bounded :
  forall (S : Type) (env : Env S) (pr : Z) (s : S),
    (count is_poll (trace (isMergeable env pr s)) <= 10)%nat /\
    (count is_sleep (trace (isMergeable env pr s)) <= 10)%nat /\
    (count is_poll (trace (isMergeable env pr s))
       + count is_sleep (trace (isMergeable env pr s))
     = List.length (trace (isMergeable env pr s)))%nat.
Proof.
  intros S env pr s. unfold isMergeable, MAX_ATTEMPTS.
  exact (loop_bounded env 5 pr s).
Qed.

Section MergeResults.
Context {S : Type} (env : Env S) (config : OrchestratorConfig).

Lemma merge_request_trace (pr : Z) (title message : string) (s s1 : S)
    (r : Outcome MergeData) (t : list Event) :
  withRateLimit env "merge-pr"
    (octokit_pulls_merge env pr "squash" title message) s = (r, s1, t) ->
  t = [EvRequest (PullsMerge pr "squash" title message)] \/
  exists w,
    t = [EvRequest (PullsMerge pr "squash" title message); EvSleep w;
         EvRequest (PullsMerge pr "squash" title message)].
Proof.
  intros H.
  destruct (withRateLimit_request_trace env "merge-pr"
              (octokit_pulls_merge env pr "squash" title message)
              (EvRequest (PullsMerge pr "squash" title message)) s)
    as [E | [w E]].
  - intros s0. unfold octokit_pulls_merge.
    destruct (pulls_merge env pr _ _ _ s0). reflexivity.
  - left. rewrite H in E. exact E.
  - right. exists w. rewrite H in E. exact E.
Qed.

Lemma review_step_quiet (pr : Z) (useYolo : bool) :
  quiet is_delete_request
    (if negb useYolo
     then bind (sleep env 1500)
            (fun _ => bind (commentOnPR env pr) (fun _ => ret tt))
     else ret tt).
Proof.
  destruct useYolo; cbn [negb]; [apply quiet_ret|].
  apply quiet_bind; [now apply quiet_sleep | intros _].
  apply quiet_bind; [|intros _; apply quiet_ret].
  intros s. unfold commentOnPR. rewrite bracket_trace.
  change (EvEnter "commentOnPR" pr :: ?t ++ [EvExit "commentOnPR" pr])
    with ([EvEnter "commentOnPR" pr] ++ t ++ [EvExit "commentOnPR" pr]).
  apply absent_app; [reflexivity|]. apply absent_app; [|reflexivity].
  revert s.
  match goal with
  | |- forall s, absent ?p (trace (?m s)) => change (quiet p m)
  end.
  apply quiet_bind; [apply quiet_getRandomComment | intros body].
  apply quiet_bind.
  - apply quiet_withRateLimit; [reflexivity|]. now apply quiet_createComment.
  - intros data. apply quiet_bind.
    + destruct (data_created_at data); [apply quiet_ret | apply quiet_nowISO].
    + intros created. apply quiet_ret.
Qed.

Lemma mergePullRequest_throw_no_delete (pr : Z) (branch : string)
    (yolo_arg : option bool) (s s2 : S) (e : JsValue) (t : list Event) :
  mergePullRequest env config pr branch yolo_arg s = (Throw e, s2, t) ->
  absent is_delete_request t.
Proof.
  intros E. unfold mergePullRequest in E.
  change (match yolo_arg with Some b => b | None => yoloMode config end)
    with (effective_yolo yolo_arg config) in E.
  set (useYolo := effective_yolo yolo_arg config) in *.
  apply bind_throw_inv in E.
  pose proof (review_step_quiet pr useYolo s) as Hq.
  destruct E as [E | [[] [s3 [t1 [t2 [E1 [E ->]]]]]]].
  { rewrite E in Hq. exact Hq. }
  rewrite E1 in Hq. unfold trace in Hq; cbn [snd] in Hq.
  apply absent_app; [exact Hq|].
  apply bind_throw_inv in E.
  destruct E as [E | [[] [s4 [t3 [t4 [E2 [E ->]]]]]]]; [discriminate E|].
  injection E2 as _ <-.
  apply absent_app; [reflexivity|].
  apply bind_throw_inv in E.
  destruct E as [E | [d [s5 [t5 [t6 [E3 [E ->]]]]]]].
  { destruct (merge_request_trace pr _ _ _ _ _ _ E) as [H | [w H]];
      subst t4; reflexivity. }
  exfalso.
  apply bind_throw_inv in E.
  destruct E as [E | [[] [s6 [t7 [t8 [_ [E _]]]]]]].
  { pose proof (deleteBranch_run env branch s5) as [Ho _].
    rewrite E in Ho. discriminate Ho. }
  apply bind_throw_inv in E.
  destruct E as [E | [now [s7 [t9 [t10 [_ [E _]]]]]]]; discriminate E.
Qed.

End MergeResults.

(** X13. When [mergePullRequest] returns, its result names the pull request,
    the branch and the policy that was in force, the merge request it sent
    was a squash merge titled "merge: PR #<n>" with the commit message of
    that policy, and the last thing it did was to ask once for the deletion
    of [heads/<branch>], right after the accepted merge request. When it
    fails, no deletion was asked for: the branch is left alone. *)
Theorem mergePullRequest_result_and_cleanup :
  forall (S : Type) (env : Env S) (config : OrchestratorConfig)
         (pr : Z) (branch : string) (yolo_arg : option bool) (s : S),
    (forall r,
        outcome (mergePullRequest env config pr branch yolo_arg s) = Ok r ->
        prNumber r = pr /\
        deletedBranch r = branch /\
        yolo r = effective_yolo yolo_arg config /\
        exists front,
          trace (mergePullRequest env config pr branch yolo_arg s)
            = front ++
              [EvRequest
                 (PullsMerge pr "squash" ("merge: PR #" ++ string_of_Z pr)
                    (if effective_yolo yolo_arg config
                     then "Merged without review (YOLO)."
                     else "Merged after review."));
               EvRequest (GitDeleteRef ("heads/" ++ branch))]) /\
    (forall e,
        outcome (mergePullRequest env config pr branch yolo_arg s) = Throw e ->
        absent is_delete_request
          (trace (mergePullRequest env config pr branch yolo_arg s))).
Proof.
  intros S env config pr branch yolo_arg s.
  destruct (mergePullRequest env config pr branch yolo_arg s)
    as [[r0 s2] t] eqn:E.
  unfold outcome, trace; cbn [fst snd].
  unfold mergePullRequest in E.
  change (match yolo_arg with Some b => b | None => yoloMode config end)
    with (effective_yolo yolo_arg config) in E.
  set (useYolo := effective_yolo yolo_arg config) in *.
  split.
  - intros r ->.
    apply bind_ok_inv in E. destruct E as [[] [s3 [t1 [t2 [_ [E ->]]]]]].
    apply bind_ok_inv in E. destruct E as [[] [s4 [t3 [t4 [_ [E ->]]]]]].
    apply bind_ok_inv in E. destruct E as [d [s5 [t5 [t6 [Hm [E ->]]]]]].
    apply bind_ok_inv in E. destruct E as [[] [s6 [t7 [t8 [Hd [E ->]]]]]].
    apply bind_ok_inv in E. destruct E as [now [s7 [t9 [t10 [Hn [E ->]]]]]].
    injection E as <- _ <-. injection Hn as _ _ <-.
    repeat split.
    pose proof (deleteBranch_run env branch s5) as [_ Hdt].
    rewrite Hd in Hdt. unfold trace in Hdt; cbn [snd] in Hdt. subst t7.
    assert (Hlast : exists pre,
               t5 = pre ++ [EvRequest
                              (PullsMerge pr "squash"
                                 ("merge: PR #" ++ string_of_Z pr)
                                 (if useYolo
                                  then "Merged without review (YOLO)."
                                  else "Merged after review."))]).
    { destruct (merge_request_trace env pr _ _ _ _ _ _ Hm) as [H | [w H]];
        subst t5.
      - now exists [].
      - eexists [_; _]. reflexivity. }
    destruct Hlast as [pre ->].
    exists (t1 ++ t3 ++ pre).
    rewrite !app_nil_r, <- !app_assoc. reflexivity.
  - intros e ->.
    exact (mergePullRequest_throw_no_delete env config pr branch yolo_arg
             s s2 e t E).
Qed.

Lemma mergePullRequest_result_witness :
  (prNumber MoreProps.sample_merge_result = 7 /\
   deletedBranch MoreProps.sample_merge_result = "orchestrator/fix"%string /\
   yolo MoreProps.sample_merge_result
     = effective_yolo (Some true) {| autoMerge := true; yoloMode := false |} /\
   exists front,
     trace (mergePullRequest Scripted.env
              {| autoMerge := true; yoloMode := false |}
              7 "orchestrator/fix" (Some true) (Scripted.start []))
       = front ++
         [EvRequest
            (PullsMerge 7 "squash" ("merge: PR #" ++ string_of_Z 7)
               (if effective_yolo (Some true)
                     {| autoMerge := true; yoloMode := false |}
                then "Merged without review (YOLO)."
                else "Merged after review."));
          EvRequest (GitDeleteRef ("heads/" ++ "orchestrator/fix"))]) /\
  absent is_delete_request
    (trace (mergePullRequest Scripted.env
              {| autoMerge := true; yoloMode := false |}
              7 "orchestrator/fix" (Some true)
              (Scripted.start
                 [Scripted.Reject (Scripted.request_error 405 [])]))).
Proof.
  split.
  - apply (proj1 (mergePullRequest_result_and_cleanup _ Scripted.env
                    {| autoMerge := true; yoloMode := false |}
                    7 "orchestrator/fix"%string (Some true)
                    (Scripted.start []))).
    reflexivity.
  - apply (proj2 (mergePullRequest_result_and_cleanup _ Scripted.env
                    {| autoMerge := true; yoloMode := false |}
                    7 "orchestrator/fix"%string (Some true)
                    (Scripted.start
                       [Scripted.Reject (Scripted.request_error 405 [])]))
             (Scripted.request_error 405 [])).
    reflexivity.
Defined.

(** X14. Under the reviewed policy a failure of the review comment stops the
    merge: [mergePullRequest] fails with that failure, and it has sent no
    merge request and no deletion request. *)
Theorem reviewed_merge_needs_comment :
  forall (S : Type) (env : Env S) (config : OrchestratorConfig)
         (pr : Z) (branch : string) (yolo_arg : option bool) (s : S)
         (e : JsValue),
    effective_yolo yolo_arg config = false ->
    outcome (commentOnPR env pr (elapse env 1500 s)) = Throw e ->
    outcome (mergePullRequest env config pr branch yolo_arg s) = Throw e /\
    absent is_merge_request
      (trace (mergePullRequest env config pr branch yolo_arg s)) /\
    absent is_delete_request
      (trace (mergePullRequest env config pr branch yolo_arg s)).
Proof.
  intros S env config pr branch yolo_arg s e Hpolicy Hcomment.
  assert (Hrun : exists s1 t1,
             mergePullRequest env config pr branch yolo_arg s
               = (Throw e, s1, EvSleep 1500 :: t1) /\
             trace (commentOnPR env pr (elapse env 1500 s)) = t1).
  { unfold mergePullRequest.
    change (match yolo_arg with Some b => b | None => yoloMode config end)
      with (effective_yolo yolo_arg config).
    rewrite Hpolicy. cbn [negb]. unfold bind at 1. unfold bind at 1.
    unfold sleep at 1. unfold bind at 1.
    destruct (commentOnPR env pr (elapse env 1500 s)) as [[r s1] t1].
    unfold outcome in Hcomment; cbn [fst] in Hcomment. subst r.
    exists s1, t1. split; reflexivity. }
  destruct Hrun as [s1 [t1 [Hrun Ht1]]].
  split; [now rewrite Hrun|].
  split.
  - rewrite Hrun. unfold trace; cbn [snd].
    destruct (commentOnPR_trace env pr (elapse env 1500 s))
      as [body [Hbody [Hbm _]]].
    rewrite Ht1 in Hbody. rewrite Hbody.
    change (absent is_merge_request
              ([EvSleep 1500; EvEnter "commentOnPR" pr]
                 ++ body ++ [EvExit "commentOnPR" pr])).
    apply absent_app; [reflexivity|]. apply absent_app; [exact Hbm|].
    reflexivity.
  - rewrite Hrun.
    exact (mergePullRequest_throw_no_delete env config pr branch yolo_arg
             s s1 e _ Hrun).
Qed.

Lemma reviewed_merge_needs_comment_witness :
  outcome (mergePullRequest Scripted.env
             {| autoMerge := true; yoloMode := false |}
             7 "orchestrator/fix" None
             (Scripted.start
                [Scripted.Reject (Scripted.request_error 404 [])]))
    = Throw (Scripted.request_error 404 []) /\
  absent is_merge_request
    (trace (mergePullRequest Scripted.env
              {| autoMerge := true; yoloMode := false |}
              7 "orchestrator/fix" None
              (Scripted.start
                 [Scripted.Reject (Scripted.request_error 404 [])]))) /\
  absent is_delete_request
    (trace (mergePullRequest Scripted.env
              {| autoMerge := true; yoloMode := false |}
              7 "orchestrator/fix" None
              (Scripted.start
                 [Scripted.Reject (Scripted.request_error 404 [])]))).
Proof.
  apply (reviewed_merge_needs_comment _ Scripted.env
           {| autoMerge := true; yoloMode := false |}
           7 "orchestrator/fix"%string None
           (Scripted.start [Scripted.Reject (Scripted.request_error 404 [])])
           (Scripted.request_error 404 [])).
  - reflexivity.
  - reflexivity.
Defined.

(* ===================================================================== *)
(** * Further properties of the analytics accumulator                     *)
(* ===================================================================== *)

Lemma record_all_app (ops1 ops2 : list RecordOp) (st : State) :
  record_all (ops1 ++ ops2) st = record_all ops2 (record_all ops1 st).
Proof. unfold record_all. apply fold_left_app. Qed.

Lemma record_all_tally (ops : list RecordOp) :
  forall (st : State) (a : RunAccumulator.t),
    current st = Some a ->
    exists b,
      record_all ops st = {| current := Some b; file := file st |} /\
      RunAccumulator.startedAt b = RunAccumulator.startedAt a /\
      RunAccumulator.issuesCreated b
        = RunAccumulator.issuesCreated a + tally is_IssueCreated ops /\
      RunAccumulator.issuesClosed b
        = RunAccumulator.issuesClosed a + tally is_IssueClosed ops /\
      RunAccumulator.prsOpened b
        = RunAccumulator.prsOpened a + tally is_PROpened ops /\
      RunAccumulator.prsMerged b
        = RunAccumulator.prsMerged a + tally is_PRMerged ops /\
      RunAccumulator.yoloMerges b
        = RunAccumulator.yoloMerges a + tally is_YoloMerged ops /\
      RunAccumulator.commentsPosted b
        = RunAccumulator.commentsPosted a + tally is_CommentPosted ops /\
      RunAccumulator.coAuthoredCommits b
        = RunAccumulator.coAuthoredCommits a + tally is_CoAuthoredCommit ops /\
      RunAccumulator.issueToFirstCommentMs b
        = RunAccumulator.issueToFirstCommentMs a ++ issue_latencies ops /\
      RunAccumulator.prOpenToMergeMs b
        = RunAccumulator.prOpenToMergeMs a ++ merge_latencies ops.
Proof.
  induction ops as [|op ops IH]; intros st a Hc.
  - exists a. unfold tally; simpl. rewrite !Z.add_0_r, !app_nil_r.
    split; [destruct st; simpl in *; now subst | repeat split].
  - destruct (record_running op st a Hc) as [b [Hr _]].
    destruct (IH {| current := Some b; file := file st |} b eq_refl)
      as [c [Hrun Hc']].
    exists c. split.
    + unfold record_all in *. simpl. rewrite Hr. exact Hrun.
    + clear Hrun IH.
      destruct Hc' as (H0 & H1 & H2 & H3 & H4 & H5 & H6 & H7 & H8 & H9).
      rewrite H0, H1, H2, H3, H4, H5, H6, H7, H8, H9. clear - Hr Hc.
      assert (Hb : snd (record op st)
                   = {| current := Some b; file := file st |})
        by now rewrite Hr.
      clear Hr.
      unfold tally, issue_latencies, merge_latencies.
      destruct op as [| | |[|]| | |t1 t2|t1 t2]; simpl in Hb;
        unfold recordIssueCreated, recordIssueClosed, recordPROpened,
          recordPRMerged, recordCommentPosted, recordCoAuthoredCommit,
          recordIssueToComment, recordPRToMerge in Hb;
        rewrite (on_current_running _ st a Hc) in Hb; simpl in Hb;
        injection Hb as <-; simpl;
        rewrite <- ?app_assoc; simpl;
        repeat split; try lia; try reflexivity.
Qed.

Lemma tally_yolo_le (ops : list RecordOp) :
  0 <= tally is_YoloMerged ops <= tally is_PRMerged ops.
Proof.
  unfold tally. induction ops as [|op ops IH]; simpl; [lia|].
  destruct op as [| | |[|]| | |? ?|? ?]; simpl; lia.
Qed.

(** X15. The record that [endRun] returns for a run is the tally of what was
    recorded since [startRun]: each counter is the number of calls of its
    [record*] operation ([yoloMerges] the number of [recordPRMerged(true)],
    so it never exceeds [prsMerged]), each latency sequence holds the
    clamped differences in the order they were recorded, and the two
    timestamps are the clock readings of [startRun] and [endRun]. Whatever
    was in flight before [startRun] leaves no mark. *)
Theorem finalised_record_is_tally :
  forall (started finished : ISOTimestamp) (st : State) (ops : list RecordOp),
    exists record st',
      endRun finished (record_all ops (snd (startRun started st)))
        = (Ok record, st') /\
      RunRecord.startedAt record = started /\
      RunRecord.finishedAt record = finished /\
      RunRecord.issuesCreated record = tally is_IssueCreated ops /\
      RunRecord.issuesClosed record = tally is_IssueClosed ops /\
      RunRecord.prsOpened record = tally is_PROpened ops /\
      RunRecord.prsMerged record = tally is_PRMerged ops /\
      RunRecord.yoloMerges record = tally is_YoloMerged ops /\
      RunRecord.commentsPosted record = tally is_CommentPosted ops /\
      RunRecord.coAuthoredCommits record = tally is_CoAuthoredCommit ops /\
      RunRecord.issueToFirstCommentMs record = issue_latencies ops /\
      RunRecord.prOpenToMergeMs record = merge_latencies ops /\
      RunRecord.yoloMerges record <= RunRecord.prsMerged record.
Proof.
  intros started finished st ops.
  destruct (record_all_tally ops (snd (startRun started st))
              (RunAccumulator.mk started 0 0 0 0 0 0 0 [] []) eq_refl)
    as [b [Hrun (H0 & H1 & H2 & H3 & H4 & H5 & H6 & H7 & H8 & H9)]].
  rewrite Hrun. unfold endRun. cbn [current].
  eexists; eexists. split; [reflexivity|]. cbn.
  cbn in H0, H1, H2, H3, H4, H5, H6, H7, H8, H9.
  rewrite H0, H1, H2, H3, H4, H5, H6, H7, H8, H9.
  repeat split. apply tally_yolo_le.
Qed.

Lemma total_app (f : RunRecord.t -> Z) (rs1 rs2 : list RunRecord.t) :
  total f (rs1 ++ rs2) = total f rs1 + total f rs2.
Proof. induction rs1 as [|r rs1 IH]; simpl; [reflexivity | rewrite IH; lia]. Qed.

Lemma endRun_running (now : ISOTimestamp) (st : State) (c : RunAccumulator.t) :
  current st = Some c ->
  exists record,
    endRun now st
      = (Ok record,
         {| current := None;
            file := Some (Json {| version := version (loadPersistedData st);
                                  runs := runs (loadPersistedData st)
                                            ++ [record] |}) |}) /\
    finalises c record /\ RunRecord.finishedAt record = now.
Proof.
  intros Hc. unfold endRun. rewrite Hc.
  eexists. split; [reflexivity|]. split; [repeat split | reflexivity].
Qed.

(** X16. Finalising a run adds its counters to the aggregate totals and 1
    to the number of runs: every total reported after [endRun] is the total
    reported before plus the counter of the run that ended. *)
Theorem endRun_adds_to_totals :
  forall (now : ISOTimestamp) (st : State) (c : RunAccumulator.t),
    current st = Some c ->
    let before := getAggregateStats st in
    let after := getAggregateStats (snd (endRun now st)) in
    totalRuns after = totalRuns before + 1 /\
    totalIssuesCreated after
      = totalIssuesCreated before + RunAccumulator.issuesCreated c /\
    totalIssuesClosed after
      = totalIssuesClosed before + RunAccumulator.issuesClosed c /\
    totalPRsOpened after
      = totalPRsOpened before + RunAccumulator.prsOpened c /\
    totalPRsMerged after
      = totalPRsMerged before + RunAccumulator.prsMerged c /\
    totalYoloMerges after
      = totalYoloMerges before + RunAccumulator.yoloMerges c /\
    totalComments after
      = totalComments before + RunAccumulator.commentsPosted c /\
    totalCoAuthoredCommits after
      = totalCoAuthoredCommits before + RunAccumulator.coAuthoredCommits c.
Proof.
  intros now st c Hc before after.
  destruct (endRun_running now st c Hc) as [record [Hend [Hfin _]]].
  pose proof (stats_of_loaded st) as Hb. fold before in Hb.
  assert (Ha : stats_of (runs (loadPersistedData st) ++ [record]) after).
  { unfold after. rewrite Hend. cbn [snd].
    apply (stats_of_valid_file _
             {| version := version (loadPersistedData st);
                runs := runs (loadPersistedData st) ++ [record] |});
      [reflexivity | apply load_version]. }
  destruct Hb as (B0 & B1 & B2 & B3 & B4 & B5 & B6 & B7 & _).
  destruct Ha as (A0 & A1 & A2 & A3 & A4 & A5 & A6 & A7 & _).
  destruct Hfin as (_ & F1 & F2 & F3 & F4 & F5 & F6 & F7 & _).
  rewrite A0, A1, A2, A3, A4, A5, A6, A7, B0, B1, B2, B3, B4, B5, B6, B7.
  rewrite !total_app, length_app. simpl.
  rewrite F1, F2, F3, F4, F5, F6, F7.
  repeat split; lia.
Qed.

Lemma endRun_adds_to_totals_witness :
  totalRuns (getAggregateStats (snd (endRun 2000 one_issue_in_flight)))
    = totalRuns (getAggregateStats one_issue_in_flight) + 1 /\
  totalIssuesCreated
      (getAggregateStats (snd (endRun 2000 one_issue_in_flight)))
    = totalIssuesCreated (getAggregateStats one_issue_in_flight) + 1.
Proof.
  pose proof (endRun_adds_to_totals 2000 one_issue_in_flight
                (RunAccumulator.mk 1000 1 0 0 0 0 0 0 [] []) eq_refl) as H.
  split; [exact (proj1 H) | exact (proj1 (proj2 H))].
Defined.

(** X17. What [endRun] leaves on disk. When the analytics file holds a store
    the loader accepts, the new file has the same version and the same runs
    in the same order, with the new record added at the end. When the file
    is missing, unreadable, or carries version 0, the new file is a
    version-1 store holding the new record alone: whatever the file held is
    overwritten. *)
Theorem endRun_store_contents :
  forall (now : ISOTimestamp) (st : State) (c : RunAccumulator.t),
    current st = Some c ->
    exists record,
      fst (endRun now st) = Ok record /\
      (forall d,
          file st = Some (Json d) -> version d <> 0 ->
          file (snd (endRun now st))
            = Some (Json {| version := version d;
                            runs := runs d ++ [record] |})) /\
      ((file st = None \/ file st = Some Garbage \/
        exists d, file st = Some (Json d) /\ version d = 0) ->
       file (snd (endRun now st))
         = Some (Json {| version := 1; runs := [record] |})).
Proof.
  intros now st c Hc.
  destruct (endRun_running now st c Hc) as [record [Hend _]].
  exists record. rewrite Hend. cbn [fst snd file].
  split; [reflexivity|]. split.
  - intros d Hf Hv. now rewrite (load_valid st d Hf Hv).
  - intros [Hf | [Hf | [d [Hf Hv]]]]; unfold loadPersistedData; rewrite Hf;
      [reflexivity | reflexivity |].
    rewrite Hv. reflexivity.
Qed.

Lemma endRun_store_contents_witness :
  exists record,
    fst (endRun 2000 {| current := current one_issue_in_flight;
                        file := Some Garbage |}) = Ok record /\
    (forall d,
        Some Garbage = Some (Json d) -> version d <> 0 ->
        file (snd (endRun 2000 {| current := current one_issue_in_flight;
                                  file := Some Garbage |}))
          = Some (Json {| version := version d;
                          runs := runs d ++ [record] |})) /\
    ((Some Garbage = None \/ Some Garbage = Some Garbage \/
      exists d, Some Garbage = Some (Json d) /\ version d = 0) ->
     file (snd (endRun 2000 {| current := current one_issue_in_flight;
                               file := Some Garbage |}))
       = Some (Json {| version := 1; runs := [record] |})).
Proof.
  apply (endRun_store_contents 2000
           {| current := current one_issue_in_flight; file := Some Garbage |}
           (RunAccumulator.mk 1000 1 0 0 0 0 0 0 [] [])).
  reflexivity.
Defined.

Lemma record_all_not_running (ops : list RecordOp) (st : State) :
  current st = None -> record_all ops st = st.
Proof.
  intros Hc. induction ops as [|op ops IH]; [reflexivity|].
  unfold record_all in *. simpl.
  assert (Hop : snd (record op st) = st).
  { destruct op; simpl;
      unfold recordIssueCreated, recordIssueClosed, recordPROpened,
        recordPRMerged, recordCommentPosted, recordCoAuthoredCommit,
        recordIssueToComment, recordPRToMerge, on_current, ensureRunning;
      rewrite Hc; reflexivity. }
  rewrite Hop. exact IH.
Qed.

(** X18. A finalised run is closed: once [endRun] has returned, no sequence
    of [record*] calls changes the in-flight slot or the persisted store,
    and a second [endRun] throws without writing anything. Only a new
    [startRun] opens the accumulator again. *)
Theorem finalised_run_is_closed :
  forall (now : ISOTimestamp) (st : State) (c : RunAccumulator.t),
    current st = Some c ->
    current (snd (endRun now st)) = None /\
    (forall ops, record_all ops (snd (endRun now st)) = snd (endRun now st)) /\
    (forall later,
        endRun later (snd (endRun now st))
          = (Throw (Error "endRun called before startRun"),
             snd (endRun now st))).
Proof.
  intros now st c Hc.
  destruct (endRun_running now st c Hc) as [record [Hend _]].
  rewrite Hend. cbn [snd]. split; [reflexivity|]. split.
  - intros ops. now apply record_all_not_running.
  - intros later. reflexivity.
Qed.

Lemma finalised_run_is_closed_witness :
  current (snd (endRun 2000 one_issue_in_flight)) = None /\
  (forall ops,
      record_all ops (snd (endRun 2000 one_issue_in_flight))
        = snd (endRun 2000 one_issue_in_flight)) /\
  (forall later,
      endRun later (snd (endRun 2000 one_issue_in_flight))
        = (Throw (Error "endRun called before startRun"),
           snd (endRun 2000 one_issue_in_flight))).
Proof.
  apply (finalised_run_is_closed 2000 one_issue_in_flight
           (RunAccumulator.mk 1000 1 0 0 0 0 0 0 [] [])).
  reflexivity.
Defined.

Lemma sigma_bounds (l : list Z) (lo hi : Z) :
  Forall (fun x => lo <= x <= hi) l ->
  lo * Z.of_nat (List.length l) <= sigma l <= hi * Z.of_nat (List.length l).
Proof.
  induction 1 as [|x l Hx _ IH]; [simpl; lia|].
  cbn [sigma List.length]. rewrite Nat2Z.inj_succ. lia.
Qed.

(** X19. The average of a non-empty latency sequence lies between its
    smallest and its largest entry: bounds that hold for every entry hold
    for the average. In particular the average of latencies, which are
    never negative, is never negative. *)
Theorem avg_within_bounds :
  forall (l : list Z) (lo hi : Z),
    l <> [] ->
    Forall (fun x => lo <= x <= hi) l ->
    (inject_Z lo <= avg l)%Q /\ (avg l <= inject_Z hi)%Q.
Proof.
  intros l lo hi Hne Hall.
  pose proof (sigma_bounds l lo hi Hall) as [Hlo Hhi].
  unfold avg. destruct l as [|x l']; [now contradiction Hne|].
  set (l := x :: l') in *.
  assert (Hlen : Nat.eqb (List.length l) 0 = false) by reflexivity.
  rewrite Hlen, sum_sigma.
  assert (Hpos : (0 < inject_Z (Z.of_nat (List.length l)))%Q).
  { unfold Qlt. simpl. lia. }
  split.
  - apply Qle_shift_div_l; [exact Hpos|].
    rewrite <- inject_Z_mult, <- Zle_Qle. exact Hlo.
  - apply Qle_shift_div_r; [exact Hpos|].
    rewrite <- inject_Z_mult, <- Zle_Qle. exact Hhi.
Qed.

Lemma avg_within_bounds_witness :
  (inject_Z 800 <= avg [1200; 800; 3000]%Z)%Q /\
  (avg [1200; 800; 3000]%Z <= inject_Z 3000)%Q.
Proof.
  apply (avg_within_bounds [1200; 800; 3000] 800 3000).
  - discriminate.
  - repeat constructor; lia.
Defined.

(** X20. The report cannot tell "no data" from "no delay": when every
    recorded latency is 0, as after clamping negative differences, the
    average is 0 and [formatMs] shows it as "n/a", exactly as for an empty
    sequence. *)
Theorem all_zero_latencies_show_na :
  forall (l : list Z),
    Forall (fun x => x = 0) l ->
    formatMs (avg l) = "n/a"%string.
Proof.
  intros l Hall. apply formatMs_zero.
  destruct l as [|x l']; [reflexivity|].
  set (l0 := x :: l') in *.
  assert (Hs : sigma l0 = 0).
  { clearbody l0. induction Hall as [|y l Hy _ IH]; [reflexivity|].
    simpl. lia. }
  unfold avg.
  assert (Hlen : Nat.eqb (List.length l0) 0 = false) by reflexivity.
  rewrite Hlen, sum_sigma, Hs.
  unfold Qdiv. apply Qmult_0_l.
Qed.

Lemma all_zero_latencies_witness :
  formatMs (avg [Z.max (4000 - 5000) 0; 0]) = "n/a"%string.
Proof.
  apply (all_zero_latencies_show_na [Z.max (4000 - 5000) 0; 0]).
  repeat constructor.
Defined.

(* ===================================================================== *)
(** * Properties of the orchestrator                                      *)
(* ===================================================================== *)

Import IssueComments Orchestrator.

Section OrchestratorRun.
Context {S : Type} (env : Env S) (config : Config.OrchestratorConfig).
Variable createIssue : M S CreatedIssue.
Variable createPullRequest : Z -> string -> M S CreatedPR.

Lemma lands_ret {A : Type} (P : State -> Prop) (x : A) (st : State) :
  P st -> lands (S := S) P (ret x) st.
Proof. intros H s. exact H. Qed.

Lemma lands_remote {A B : Type} (P : State -> Prop) (m : M S A)
    (k : A -> M (RunState (S := S)) B) (st : State) :
  P st ->
  (forall a, (exists s0 s1 t, m s0 = (Ok a, s1, t)) -> lands P (k a) st) ->
  lands P (bind (remote m) k) st.
Proof.
  intros HP Hk s. unfold bind, remote. cbn [fst snd].
  destruct (m s) as [[[a|e] s1] t1] eqn:E.
  - assert (Hl : lands P (k a) st) by (apply Hk; now exists s, s1, t1).
    specialize (Hl s1). destruct (k a (s1, st)) as [[r w2] t2].
    exact Hl.
  - exact HP.
Qed.

Lemma lands_record {B : Type} (P : State -> Prop) (op : RecordOp)
    (k : unit -> M (RunState (S := S)) B) (st : State) :
  (exists a, current st = Some a) ->
  lands P (k tt) (snd (record op st)) ->
  lands P (bind (analytics (record op)) k) st.
Proof.
  intros [a Ha] Hk s. unfold bind, analytics. cbn [fst snd].
  destruct (record_running op st a Ha) as [b [Hr _]].
  rewrite Hr. cbn [snd] in *. rewrite Hr in Hk. cbn [snd] in Hk.
  specialize (Hk s).
  destruct (k tt (s, {| current := Some b; file := file st |}))
    as [[r w2] t2].
  exact Hk.
Qed.

Lemma lands_record_last (P : State -> Prop) (op : RecordOp) (st : State) :
  P (snd (record op st)) -> lands (S := S) P (analytics (record op)) st.
Proof.
  intros HP s. unfold analytics. cbn [fst snd].
  destruct (record op st) as [r st1]. exact HP.
Qed.

Lemma running_record (op : RecordOp) (st : State) :
  (exists a, current st = Some a) ->
  exists b, current (snd (record op st)) = Some b.
Proof.
  intros [a Ha]. destruct (record_running op st a Ha) as [b [Hr _]].
  exists b. now rewrite Hr.
Qed.

Lemma mergePullRequest_yolo (cfg : OrchestratorConfig) (pr : Z)
    (branch : string) (flag : bool) (s s1 : S) (r : MergeResult)
    (t : list Event) :
  mergePullRequest env cfg pr branch (Some flag) s = (Ok r, s1, t) ->
  yolo r = flag.
Proof.
  intros E. unfold mergePullRequest in E.
  apply bind_ok_inv in E. destruct E as [[] [s3 [t1 [t2 [_ [E _]]]]]].
  apply bind_ok_inv in E. destruct E as [[] [s4 [t3 [t4 [_ [E _]]]]]].
  apply bind_ok_inv in E. destruct E as [d [s5 [t5 [t6 [_ [E _]]]]]].
  apply bind_ok_inv in E. destruct E as [[] [s6 [t7 [t8 [_ [E _]]]]]].
  apply bind_ok_inv in E. destruct E as [now [s7 [t9 [t10 [_ [E _]]]]]].
  injection E as <- _ _. reflexivity.
Qed.

Lemma lands_ret_bind {A B : Type} (P : State -> Prop) (x : A)
    (k : A -> M (RunState (S := S)) B) (st : State) :
  lands P (k x) st -> lands P (bind (ret x) k) st.
Proof.
  intros Hk s. unfold bind, ret. specialize (Hk s).
  destruct (k x (s, st)) as [[r w2] t2]. exact Hk.
Qed.

(** The workflow from the comment on the pull request on. *)
Lemma workflow_tail (P : State -> Prop) (pr : CreatedPR) (st : State) :
  (exists a, current st = Some a) ->
  P st ->
  P (snd (record CommentPosted st)) ->
  (Config.autoMerge config = true ->
   forall t,
     P (snd (record (PRToMerge (pr_createdAt pr) t)
          (snd (record IssueClosed
             (snd (record (PRMerged (Config.yoloMode config))
                (snd (record CommentPosted st))))))))) ->
  lands P
    (remote (sleep env 1500) ;;
     _ <- remote (commentOnPR env (pr_number pr)) ;;
     analytics recordCommentPosted ;;
     if Config.autoMerge config then
       remote (sleep env 3000) ;;
       canMerge <- remote (isMergeable env (pr_number pr)) ;;
       if (canMerge : bool) then
         mergeResult <- remote (mergePullRequest env (Config.merge_view config)
                                  (pr_number pr) (pr_branch pr)
                                  (Some (Config.yoloMode config))) ;;
         analytics (recordPRMerged (yolo mergeResult)) ;;
         analytics recordIssueClosed ;;
         analytics (recordPRToMerge (pr_createdAt pr) (mergedAt mergeResult))
       else ret tt
     else ret tt)%async st.
Proof.
  intros Hrun H3 H4 H5.
  apply lands_remote; [exact H3|]. intros [] _.
  apply lands_remote; [exact H3|]. intros posted _.
  apply (lands_record _ CommentPosted); [exact Hrun|].
  pose proof (running_record CommentPosted _ Hrun) as Hrun1.
  destruct (Config.autoMerge config) eqn:Eam; [|now apply lands_ret].
  apply lands_remote; [exact H4|]. intros [] _.
  apply lands_remote; [exact H4|]. intros canMerge _.
  destruct canMerge; [|now apply lands_ret].
  apply lands_remote; [exact H4|]. intros mergeResult [s0 [s1 [t Hm]]].
  rewrite (mergePullRequest_yolo _ _ _ _ _ _ _ _ Hm).
  apply (lands_record _ (PRMerged (Config.yoloMode config))); [exact Hrun1|].
  pose proof (running_record (PRMerged (Config.yoloMode config)) _ Hrun1)
    as Hrun2.
  apply (lands_record _ IssueClosed); [exact Hrun2|].
  pose proof (running_record IssueClosed _ Hrun2) as Hrun3.
  apply (lands_record_last _
           (PRToMerge (pr_createdAt pr) (mergedAt mergeResult))).
  apply H5. reflexivity.
Qed.

(** One workflow leaves the analytics state as some number of completed
    stages leaves it. *)
Lemma workflow_stages (st : State) :
  (exists a, current st = Some a) ->
  lands (fun st' =>
           exists k t1 t2 t3 t4,
             (k <= 5)%nat /\
             (k = 5%nat -> Config.autoMerge config = true) /\
             st' = record_all
                     (stage_ops (coauthor_configured config)
                        (Config.yoloMode config) k t1 t2 t3 t4) st)
        (runSingleWorkflow env config createIssue createPullRequest) st.
Proof.
  intros Hrun. unfold runSingleWorkflow.
  apply lands_remote.
  { exists 0%nat, 0, 0, 0, 0. repeat split; [lia | discriminate]. }
  intros issue _.
  apply (lands_record _ IssueCreated); [exact Hrun|].
  pose proof (running_record IssueCreated st Hrun) as Hrun1.
  apply lands_remote.
  { exists 1%nat, 0, 0, 0, 0. repeat split; [lia | discriminate]. }
  intros comment _.
  apply (lands_record _ CommentPosted); [exact Hrun1|].
  pose proof (running_record CommentPosted _ Hrun1) as Hrun2.
  apply (lands_record _ (IssueToComment (issue_createdAt issue)
                                         (createdAt comment)));
    [exact Hrun2|].
  pose proof (running_record (IssueToComment (issue_createdAt issue)
                                (createdAt comment)) _ Hrun2) as Hrun3.
  assert (Hstage2 :
    exists k t1 t2 t3 t4,
      (k <= 5)%nat /\
      (k = 5%nat -> Config.autoMerge config = true) /\
      snd (record (IssueToComment (issue_createdAt issue) (createdAt comment))
             (snd (record CommentPosted (snd (record IssueCreated st)))))
      = record_all
          (stage_ops (coauthor_configured config) (Config.yoloMode config)
             k t1 t2 t3 t4) st).
  { exists 2%nat, (issue_createdAt issue), (createdAt comment), 0, 0.
    repeat split; [lia | discriminate]. }
  apply lands_remote; [exact Hstage2|]. intros [] _.
  apply lands_remote; [exact Hstage2|]. intros pr _.
  clear Hstage2.
  apply (lands_record _ PROpened); [exact Hrun3|].
  pose proof (running_record PROpened _ Hrun3) as Hrun4.
  unfold coauthor_configured.
  destruct (negb (String.eqb (Config.coAuthorName config) "")
            && negb (String.eqb (Config.coAuthorEmail config) "")) eqn:Eco.
  - apply (lands_record _ CoAuthoredCommit); [exact Hrun4|].
    pose proof (running_record CoAuthoredCommit _ Hrun4) as Hrun5.
    apply workflow_tail; [exact Hrun5 | | |].
    + exists 3%nat, (issue_createdAt issue), (createdAt comment), 0, 0.
      repeat split; [lia | discriminate].
    + exists 4%nat, (issue_createdAt issue), (createdAt comment), 0, 0.
      repeat split; [lia | discriminate].
    + intros Ham t.
      exists 5%nat, (issue_createdAt issue), (createdAt comment),
        (pr_createdAt pr), t.
      repeat split; [lia | intros _; exact Ham].
  - apply lands_ret_bind.
    apply workflow_tail; [exact Hrun4 | | |].
    + exists 3%nat, (issue_createdAt issue), (createdAt comment), 0, 0.
      repeat split; [lia | discriminate].
    + exists 4%nat, (issue_createdAt issue), (createdAt comment), 0, 0.
      repeat split; [lia | discriminate].
    + intros Ham t.
      exists 5%nat, (issue_createdAt issue), (createdAt comment),
        (pr_createdAt pr), t.
      repeat split; [lia | intros _; exact Ham].
Qed.

Lemma stage_keeps_bounds (n : Z) (st : State) (a : RunAccumulator.t)
    (k : nat) (t1 t2 t3 t4 : Z) :
  current st = Some a -> bounds_at config n a ->
  (k <= 5)%nat -> (k = 5%nat -> Config.autoMerge config = true) ->
  exists b,
    record_all (stage_ops (coauthor_configured config)
                  (Config.yoloMode config) k t1 t2 t3 t4) st
      = {| current := Some b; file := file st |} /\
    RunAccumulator.startedAt b = RunAccumulator.startedAt a /\
    bounds_at config (n + 1) b.
Proof.
  intros Hc Hb Hk Ham.
  destruct (record_all_tally
              (stage_ops (coauthor_configured config)
                 (Config.yoloMode config) k t1 t2 t3 t4) st a Hc)
    as [b [Hrun (H0 & H1 & H2 & H3 & H4 & H5 & H6 & H7 & H8 & H9)]].
  exists b. split; [exact Hrun|]. split; [exact H0|].
  unfold bounds_at, run_bounds in *.
  rewrite H1, H2, H3, H4, H5, H6, H7, H8, H9. clear H0 H1 H2 H3 H4 H5 H6 H7 H8 H9 Hrun.
  rewrite !length_app, !Nat2Z.inj_add.
  destruct Hb as (B0 & B1 & B2 & B3 & B4 & B5 & B6 & B7 & B8 & B9 & B10 & B11).
  assert (Hk5 : k = 5%nat -> Config.autoMerge config = false -> False)
    by (intros E1 E2; rewrite (Ham E1) in E2; discriminate).
  destruct (coauthor_configured config), (Config.yoloMode config);
    do 6 (destruct k as [|k]; [
      unfold tally, issue_latencies, merge_latencies; simpl;
      repeat split; try lia;
      try (intros Hf; try (exfalso; now apply Hk5); specialize (B11 Hf); lia)
      |]); lia.
Qed.

Lemma iteration_run (s : S) (st : State) :
  exists s1 st1 tr,
    try_catch (runSingleWorkflow env config createIssue createPullRequest)
      (fun _ => ret tt) (s, st) = (Ok tt, (s1, st1), tr) /\
    st1 = snd (final (runSingleWorkflow env config createIssue
                        createPullRequest (s, st))).
Proof.
  unfold try_catch.
  destruct (runSingleWorkflow env config createIssue createPullRequest (s, st))
    as [[[[]|e] [s1 st1]] t1]; cbn; do 3 eexists; split; reflexivity.
Qed.

(** The loop and [main] under an invariant [I] of the accumulator that one
    workflow carries from [m] iterations done to [m + 1]. *)
Section Invariant.
Variable I : Z -> RunAccumulator.t -> Prop.
Hypothesis step :
  forall m st a,
    current st = Some a -> I m a ->
    lands (fun st' =>
             exists b,
               st' = {| current := Some b; file := file st |} /\
               RunAccumulator.startedAt b = RunAccumulator.startedAt a /\
               I (m + 1) b)
          (runSingleWorkflow env config createIssue createPullRequest) st.

Lemma main_loop_inv (n : nat) :
  forall (m : Z) (s : S) (st : State) (a : RunAccumulator.t),
    current st = Some a -> I m a ->
    exists s' b tr,
      main_loop env config createIssue createPullRequest n (s, st)
        = (Ok tt, (s', {| current := Some b; file := file st |}), tr) /\
      RunAccumulator.startedAt b = RunAccumulator.startedAt a /\
      I (m + Z.of_nat n) b.
Proof.
  induction n as [|n IH]; intros m s st a Hc Hb.
  - exists s, a, []. rewrite Z.add_0_r. split; [|split; [reflexivity|exact Hb]].
    destruct st; simpl in *. now subst.
  - cbn [main_loop].
    destruct (iteration_run s st) as [s1 [st1 [tr1 [Hit Hst1]]]].
    destruct (step m st a Hc Hb s) as [b [Hst [Hstart Hb1]]].
    assert (Hst1' : st1 = {| current := Some b; file := file st |}).
    { rewrite Hst1. exact Hst. }
    clear Hst1 Hst. subst st1.
    set (st1 := {| current := Some b; file := file st |}) in *.
    assert (Hpause : exists s2 tr2,
               (if Nat.ltb 0 n then remote (sleep env 3000) else ret tt)
                 (s1, st1) = (Ok tt, (s2, st1), tr2)).
    { destruct (Nat.ltb 0 n); eexists; eexists; reflexivity. }
    destruct Hpause as [s2 [tr2 Hpause]].
    destruct (IH (m + 1) s2 st1 b eq_refl Hb1) as [s' [c [tr3 [Hloop [Hs Hc']]]]].
    exists s', c, (tr1 ++ tr2 ++ tr3).
    split; [|split].
    + unfold bind at 1. rewrite Hit. unfold bind at 1. rewrite Hpause.
      rewrite Hloop. reflexivity.
    + now rewrite Hs.
    + replace (m + Z.of_nat (Datatypes.S n)) with (m + 1 + Z.of_nat n) by lia.
      exact Hc'.
Qed.

Lemma main_inv (s : S) (st : State) :
  (forall t, I 0 (RunAccumulator.mk t 0 0 0 0 0 0 0 [] [])) ->
  exists s' record b tr,
    main env config createIssue createPullRequest (s, st)
      = (Ok tt,
         (s', {| current := None;
                 file := Some (Json
                   {| version := version (loadPersistedData st);
                      runs := runs (loadPersistedData st) ++ [record] |}) |}),
         tr) /\
    finalises b record /\
    RunRecord.startedAt record = clock env s /\
    RunRecord.finishedAt record = clock env s' /\
    I (Z.of_nat (Z.to_nat (iterations config))) b.
Proof.
  intros H0. unfold main.
  set (fresh := RunAccumulator.mk (clock env s) 0 0 0 0 0 0 0 [] []).
  set (st0 := {| current := Some fresh; file := file st |}).
  destruct (main_loop_inv (Z.to_nat (iterations config)) 0 s st0 fresh
              eq_refl (H0 _)) as [s' [b [tr [Hloop [Hstart Hb]]]]].
  destruct (endRun_running (clock env s')
              {| current := Some b; file := file st0 |} b eq_refl)
    as [record [Hend [Hfin Hstamp]]].
  exists s', record, b, tr.
  split; [|split; [|split; [|split]]].
  - unfold bind at 1. unfold analytics_now at 1. cbn [fst snd startRun].
    fold fresh. fold st0. unfold bind at 1. rewrite Hloop.
    unfold bind at 1. unfold analytics_now at 1. cbn [fst snd].
    rewrite Hend. cbn. rewrite app_nil_r. reflexivity.
  - exact Hfin.
  - destruct Hfin as [-> _]. exact Hstart.
  - exact Hstamp.
  - rewrite Z.add_0_l in Hb. exact Hb.
Qed.

End Invariant.

(** The whole of [main], for every remote and both creation pipelines. *)
Lemma main_run (s : S) (st : State) :
  exists s' record tr,
    main env config createIssue createPullRequest (s, st)
      = (Ok tt,
         (s', {| current := None;
                 file := Some (Json
                   {| version := version (loadPersistedData st);
                      runs := runs (loadPersistedData st) ++ [record] |}) |}),
         tr) /\
    RunRecord.startedAt record = clock env s /\
    RunRecord.finishedAt record = clock env s' /\
    run_bounds (coauthor_configured config) (Config.autoMerge config)
      (Config.yoloMode config)
      (Z.of_nat (Z.to_nat (iterations config)))
      (RunRecord.issuesCreated record) (RunRecord.issuesClosed record)
      (RunRecord.prsOpened record) (RunRecord.prsMerged record)
      (RunRecord.yoloMerges record) (RunRecord.commentsPosted record)
      (RunRecord.coAuthoredCommits record)
      (RunRecord.issueToFirstCommentMs record)
      (RunRecord.prOpenToMergeMs record).
Proof.
  destruct (main_inv (bounds_at config)) with (s := s) (st := st)
    as [s' [record [b [tr [Hmain [Hfin [Hstart [Hfinish Hb]]]]]]]].
  - intros m st0 a Hc Hb s0.
    destruct (workflow_stages st0 (ex_intro _ a Hc) s0)
      as [k [t1 [t2 [t3 [t4 [Hk [Ham Hst]]]]]]].
    destruct (stage_keeps_bounds m st0 a k t1 t2 t3 t4 Hc Hb Hk Ham)
      as [b [Hrec [Hstart Hb1]]].
    exists b. split; [|split; assumption].
    rewrite <- Hrec. exact Hst.
  - intros t. unfold bounds_at, run_bounds; simpl.
    destruct (Config.yoloMode config), (coauthor_configured config);
      repeat split; lia.
  - exists s', record, tr.
    split; [exact Hmain|]. split; [exact Hstart|]. split; [exact Hfinish|].
    destruct Hfin as (_ & F1 & F2 & F3 & F4 & F5 & F6 & F7 & F8 & F9).
    rewrite F1, F2, F3, F4, F5, F6, F7, F8, F9. exact Hb.
Qed.

(** *** When nothing fails *)

Lemma ao_ret {A : Type} (x : A) : always_ok (ret (S := S) x).
Proof. intros s. now exists x, s, []. Qed.

Lemma ao_bind {A B : Type} (m : M S A) (k : A -> M S B) :
  always_ok m -> (forall a, always_ok (k a)) -> always_ok (bind m k).
Proof.
  intros Hm Hk s. destruct (Hm s) as [a [s1 [t1 Ha]]].
  destruct (Hk a s1) as [b [s2 [t2 Hb]]].
  exists b, s2, (t1 ++ t2). unfold bind. now rewrite Ha, Hb.
Qed.

Lemma ao_sleep (ms : Z) : always_ok (sleep env ms).
Proof. intros s. now exists tt, (elapse env ms s), [EvSleep ms]. Qed.

Lemma ao_nowISO : always_ok (nowISO env).
Proof. intros s. now exists (clock env s), s, []. Qed.

Lemma ao_getRandomComment : always_ok (getRandomComment env).
Proof.
  intros s. unfold getRandomComment, pickRandom, COMMENTS. cbv beta iota.
  destruct (random_below env _ s) as [i s1]. do 3 eexists. reflexivity.
Qed.

Lemma ao_withRateLimit {T : Type} (label : string) (fn : M S T) :
  always_ok fn -> always_ok (withRateLimit env label fn).
Proof.
  intros Hfn s. destruct (Hfn s) as [a [s1 [t1 Ha]]].
  exists a, s1, t1. now apply withRateLimit_first_try.
Qed.

Lemma ao_bracket {A : Type} (callee : string) (arg : Z) (body : M S A) :
  always_ok body -> always_ok (bracket callee arg body).
Proof.
  intros Hb s. destruct (Hb s) as [a [s1 [t1 Ha]]].
  exists a, s1, (EvEnter callee arg :: t1 ++ [EvExit callee arg]).
  unfold bracket. now rewrite Ha.
Qed.

Lemma ao_deleteBranch (b : string) : always_ok (deleteBranch env b).
Proof.
  intros s. pose proof (deleteBranch_run env b s) as [Ho _].
  destruct (deleteBranch env b s) as [[r s1] t]. unfold outcome in Ho.
  cbn [fst] in Ho. subst r. now exists tt, s1, t.
Qed.

Section AllSucceed.
Hypothesis issue_ok : always_ok createIssue.
Hypothesis pr_ok : forall n title, always_ok (createPullRequest n title).
Hypothesis comment_ok :
  forall n body s, exists d s1, issues_createComment env n body s = (Ok d, s1).
Hypothesis poll_ok :
  forall n s, exists d s1,
    pulls_get env n s = (Ok d, s1) /\ data_mergeable d = Some true.
Hypothesis merge_ok :
  forall n a b c s, exists d s1, pulls_merge env n a b c s = (Ok d, s1).

Lemma ao_createComment (n : Z) (body : string) :
  always_ok (octokit_issues_createComment env n body).
Proof.
  intros s. destruct (comment_ok n body s) as [d [s1 H]].
  exists d, s1, [EvRequest (IssuesCreateComment n body)].
  unfold octokit_issues_createComment. now rewrite H.
Qed.

Lemma ao_commentOnPR (n : Z) : always_ok (commentOnPR env n).
Proof.
  unfold commentOnPR. apply ao_bracket.
  apply ao_bind; [apply ao_getRandomComment | intros body].
  apply ao_bind; [apply ao_withRateLimit, ao_createComment | intros data].
  apply ao_bind; [|intros created; apply ao_ret].
  destruct (data_created_at data); [apply ao_ret | apply ao_nowISO].
Qed.

Lemma ao_quickResponseComment (n : Z) :
  always_ok (quickResponseComment env n None).
Proof.
  unfold quickResponseComment. cbn [Z.ltb Z.compare].
  apply ao_bind; [apply ao_ret | intros _].
  unfold commentOnIssue. apply ao_bracket.
  apply ao_bind; [apply ao_getRandomComment | intros body].
  apply ao_bind; [apply ao_withRateLimit, ao_createComment | intros data].
  apply ao_bind; [|intros created; apply ao_ret].
  destruct (data_created_at data); [apply ao_ret | apply ao_nowISO].
Qed.

Lemma ao_mergePullRequest (cfg : OrchestratorConfig) (pr : Z)
    (branch : string) (yolo_arg : option bool) :
  always_ok (mergePullRequest env cfg pr branch yolo_arg).
Proof.
  unfold mergePullRequest.
  apply ao_bind.
  { destruct (negb _); [|apply ao_ret].
    apply ao_bind; [apply ao_sleep | intros _].
    apply ao_bind; [apply ao_commentOnPR | intros _; apply ao_ret]. }
  intros _. apply ao_bind; [apply ao_sleep | intros _].
  apply ao_bind.
  { apply ao_withRateLimit. intros s.
    destruct (merge_ok pr "squash"%string
                ("merge: PR #" ++ string_of_Z pr)%string
                (if match yolo_arg with
                    | Some b => b
                    | None => yoloMode cfg
                    end
                 then "Merged without review (YOLO)."%string
                 else "Merged after review."%string) s) as [d [s1 H]].
    exists d, s1. eexists. unfold octokit_pulls_merge. now rewrite H. }
  intros data. apply ao_bind; [apply ao_deleteBranch | intros _].
  apply ao_bind; [apply ao_nowISO | intros now; apply ao_ret].
Qed.

Lemma isMergeable_confirms (pr : Z) (s : S) :
  exists s1 t, isMergeable env pr s = (Ok true, s1, t).
Proof.
  destruct (poll_ok pr s) as [d [s1 [Hp Hd]]].
  exists s1, [EvRequest (PullsGet pr)].
  unfold isMergeable, MAX_ATTEMPTS.
  pose proof (loop_step_decisive env 4 pr s s1 d Hp) as H.
  unfold mergeability_of, decisive in H. rewrite Hd in H.
  apply H. discriminate.
Qed.

Lemma lands_remote_ok {A B : Type} (P : State -> Prop) (m : M S A)
    (k : A -> M (RunState (S := S)) B) (st : State) :
  always_ok m ->
  (forall a, (exists s0 s1 t, m s0 = (Ok a, s1, t)) -> lands P (k a) st) ->
  lands P (bind (remote m) k) st.
Proof.
  intros Hm Hk s. unfold bind, remote. cbn [fst snd].
  destruct (Hm s) as [a [s1 [t1 E]]]. rewrite E.
  assert (Hl : lands P (k a) st) by (apply Hk; now exists s, s1, t1).
  specialize (Hl s1). destruct (k a (s1, st)) as [[r w2] t2].
  exact Hl.
Qed.

Lemma workflow_tail_ok (P : State -> Prop) (pr : CreatedPR) (st : State) :
  (exists a, current st = Some a) ->
  (Config.autoMerge config = false -> P (snd (record CommentPosted st))) ->
  (Config.autoMerge config = true ->
   forall t,
     P (snd (record (PRToMerge (pr_createdAt pr) t)
          (snd (record IssueClosed
             (snd (record (PRMerged (Config.yoloMode config))
                (snd (record CommentPosted st))))))))) ->
  lands P
    (remote (sleep env 1500) ;;
     _ <- remote (commentOnPR env (pr_number pr)) ;;
     analytics recordCommentPosted ;;
     if Config.autoMerge config then
       remote (sleep env 3000) ;;
       canMerge <- remote (isMergeable env (pr_number pr)) ;;
       if (canMerge : bool) then
         mergeResult <- remote (mergePullRequest env (Config.merge_view config)
                                  (pr_number pr) (pr_branch pr)
                                  (Some (Config.yoloMode config))) ;;
         analytics (recordPRMerged (yolo mergeResult)) ;;
         analytics recordIssueClosed ;;
         analytics (recordPRToMerge (pr_createdAt pr) (mergedAt mergeResult))
       else ret tt
     else ret tt)%async st.
Proof.
  intros Hrun H4 H5.
  apply lands_remote_ok; [apply ao_sleep|]. intros [] _.
  apply lands_remote_ok; [apply ao_commentOnPR|]. intros posted _.
  apply (lands_record _ CommentPosted); [exact Hrun|].
  pose proof (running_record CommentPosted _ Hrun) as Hrun1.
  destruct (Config.autoMerge config) eqn:Eam;
    [|apply lands_ret; now apply H4].
  apply lands_remote_ok; [apply ao_sleep|]. intros [] _.
  apply lands_remote_ok.
  { intros s. destruct (isMergeable_confirms (pr_number pr) s) as [s1 [t H]].
    now exists true, s1, t. }
  intros canMerge [s0 [s1 [t Hcm]]].
  destruct (isMergeable_confirms (pr_number pr) s0) as [s1' [t' Hcm']].
  rewrite Hcm' in Hcm. injection Hcm as <- _ _.
  apply lands_remote_ok; [apply ao_mergePullRequest|].
  intros mergeResult [s2 [s3 [t2 Hm]]].
  rewrite (mergePullRequest_yolo _ _ _ _ _ _ _ _ Hm).
  apply (lands_record _ (PRMerged (Config.yoloMode config))); [exact Hrun1|].
  pose proof (running_record (PRMerged (Config.yoloMode config)) _ Hrun1)
    as Hrun2.
  apply (lands_record _ IssueClosed); [exact Hrun2|].
  apply (lands_record_last _
           (PRToMerge (pr_createdAt pr) (mergedAt mergeResult))).
  apply H5. reflexivity.
Qed.

(** With nothing failing, one workflow goes through all of its stages. *)
Lemma workflow_all_stages (st : State) :
  (exists a, current st = Some a) ->
  lands (fun st' =>
           exists t1 t2 t3 t4,
             st' = record_all
                     (stage_ops (coauthor_configured config)
                        (Config.yoloMode config)
                        (if Config.autoMerge config then 5 else 4)
                        t1 t2 t3 t4) st)
        (runSingleWorkflow env config createIssue createPullRequest) st.
Proof.
  intros Hrun. unfold runSingleWorkflow.
  apply lands_remote_ok; [exact issue_ok|]. intros issue _.
  apply (lands_record _ IssueCreated); [exact Hrun|].
  pose proof (running_record IssueCreated st Hrun) as Hrun1.
  apply lands_remote_ok; [apply ao_quickResponseComment|]. intros comment _.
  apply (lands_record _ CommentPosted); [exact Hrun1|].
  pose proof (running_record CommentPosted _ Hrun1) as Hrun2.
  apply (lands_record _ (IssueToComment (issue_createdAt issue)
                                         (createdAt comment)));
    [exact Hrun2|].
  pose proof (running_record (IssueToComment (issue_createdAt issue)
                                (createdAt comment)) _ Hrun2) as Hrun3.
  apply lands_remote_ok; [apply ao_sleep|]. intros [] _.
  apply lands_remote_ok; [apply pr_ok|]. intros pr _.
  apply (lands_record _ PROpened); [exact Hrun3|].
  pose proof (running_record PROpened _ Hrun3) as Hrun4.
  unfold coauthor_configured.
  destruct (negb (String.eqb (Config.coAuthorName config) "")
            && negb (String.eqb (Config.coAuthorEmail config) "")) eqn:Eco.
  - apply (lands_record _ CoAuthoredCommit); [exact Hrun4|].
    pose proof (running_record CoAuthoredCommit _ Hrun4) as Hrun5.
    apply workflow_tail_ok; [exact Hrun5 | |].
    + intros ->.
      now exists (issue_createdAt issue), (createdAt comment), 0, 0.
    + intros -> t.
      now exists (issue_createdAt issue), (createdAt comment),
        (pr_createdAt pr), t.
  - apply lands_ret_bind.
    apply workflow_tail_ok; [exact Hrun4 | |].
    + intros ->.
      now exists (issue_createdAt issue), (createdAt comment), 0, 0.
    + intros -> t.
      now exists (issue_createdAt issue), (createdAt comment),
        (pr_createdAt pr), t.
Qed.

Lemma stage_exact (n : Z) (st : State) (a : RunAccumulator.t)
    (t1 t2 t3 t4 : Z) :
  current st = Some a -> exact_at config n a ->
  exists b,
    record_all (stage_ops (coauthor_configured config)
                  (Config.yoloMode config)
                  (if Config.autoMerge config then 5 else 4)
                  t1 t2 t3 t4) st
      = {| current := Some b; file := file st |} /\
    RunAccumulator.startedAt b = RunAccumulator.startedAt a /\
    exact_at config (n + 1) b.
Proof.
  intros Hc Hb.
  destruct (record_all_tally
              (stage_ops (coauthor_configured config)
                 (Config.yoloMode config)
                 (if Config.autoMerge config then 5 else 4)
                 t1 t2 t3 t4) st a Hc)
    as [b [Hrun (H0 & H1 & H2 & H3 & H4 & H5 & H6 & H7 & H8 & H9)]].
  exists b. split; [exact Hrun|]. split; [exact H0|].
  unfold exact_at, run_exact in *.
  rewrite H1, H2, H3, H4, H5, H6, H7, H8, H9.
  clear H0 H1 H2 H3 H4 H5 H6 H7 H8 H9 Hrun.
  rewrite !length_app, !Nat2Z.inj_add.
  destruct Hb as (B0 & B1 & B2 & B3 & B4 & B5 & B6 & B7 & B8).
  destruct (coauthor_configured config), (Config.yoloMode config),
    (Config.autoMerge config);
    unfold tally, issue_latencies, merge_latencies; cbn -[Z.mul Z.add];
    repeat split; lia.
Qed.

Lemma main_all_ok (s : S) (st : State) :
  exists s' record tr,
    main env config createIssue createPullRequest (s, st)
      = (Ok tt,
         (s', {| current := None;
                 file := Some (Json
                   {| version := version (loadPersistedData st);
                      runs := runs (loadPersistedData st) ++ [record] |}) |}),
         tr) /\
    run_exact (coauthor_configured config) (Config.autoMerge config)
      (Config.yoloMode config)
      (Z.of_nat (Z.to_nat (iterations config)))
      (RunRecord.issuesCreated record) (RunRecord.issuesClosed record)
      (RunRecord.prsOpened record) (RunRecord.prsMerged record)
      (RunRecord.yoloMerges record) (RunRecord.commentsPosted record)
      (RunRecord.coAuthoredCommits record)
      (RunRecord.issueToFirstCommentMs record)
      (RunRecord.prOpenToMergeMs record).
Proof.
  destruct (main_inv (exact_at config)) with (s := s) (st := st)
    as [s' [record [b [tr [Hmain [Hfin [_ [_ Hb]]]]]]]].
  - intros m st0 a Hc Hb s0.
    destruct (workflow_all_stages st0 (ex_intro _ a Hc) s0)
      as [t1 [t2 [t3 [t4 Hst]]]].
    destruct (stage_exact m st0 a t1 t2 t3 t4 Hc Hb)
      as [b [Hrec [Hstart Hb1]]].
    exists b. split; [|split; assumption].
    rewrite <- Hrec. exact Hst.
  - intros t. unfold exact_at, run_exact; simpl.
    destruct (Config.yoloMode config), (coauthor_configured config),
      (Config.autoMerge config); repeat split; lia.
  - exists s', record, tr. split; [exact Hmain|].
    destruct Hfin as (_ & F1 & F2 & F3 & F4 & F5 & F6 & F7 & F8 & F9).
    rewrite F1, F2, F3, F4, F5, F6, F7, F8, F9. exact Hb.
Qed.

End AllSucceed.

End OrchestratorRun.

Lemma coauthor_trailer (config : Config.OrchestratorConfig) :
  coauthor_configured config
    = negb (String.eqb (coAuthorTrailer config) "").
Proof.
  unfold coauthor_configured, coAuthorTrailer.
  destruct (String.eqb (Config.coAuthorName config) "");
    destruct (String.eqb (Config.coAuthorEmail config) ""); reflexivity.
Qed.

(** X21. No failure of an iteration aborts the run. Whatever the remote
    answers and whatever the two creation pipelines do, [main] gets through
    its loop and [endRun]: it returns normally, no run is left in flight, and
    the analytics file holds the runs it held before (none if it was missing
    or unreadable) followed by exactly one new record, stamped with the clock
    readings at the start and at the end of the run. The store is the one of
    [Analytics]: its runs are well-formed records and writing it succeeds. *)
Theorem main_always_finalises :
  forall (S : Type) (env : Env S) (config : Config.OrchestratorConfig)
         (createIssue : M S CreatedIssue)
         (createPullRequest : Z -> string -> M S CreatedPR)
         (s : S) (st : State),
    outcome (main env config createIssue createPullRequest (s, st)) = Ok tt /\
    exists record,
      snd (final (main env config createIssue createPullRequest (s, st)))
        = {| current := None;
             file := Some (Json
               {| version := version (loadPersistedData st);
                  runs := runs (loadPersistedData st) ++ [record] |}) |} /\
      RunRecord.startedAt record = clock env s /\
      RunRecord.finishedAt record
        = clock env
            (fst (final (main env config createIssue createPullRequest
                           (s, st)))).
Proof.
  intros S env config createIssue createPullRequest s st.
  destruct (main_run env config createIssue createPullRequest s st)
    as [s' [record [tr [Hmain [Hstart [Hfinish _]]]]]].
  rewrite Hmain. split; [reflexivity|].
  exists record. split; [reflexivity|]. split; [exact Hstart | exact Hfinish].
Qed.

(** X22. The record of a run is consistent, whatever happened during the
    run. With [n] the number of iterations (the smaller of the two caps, 0
    if that is negative): merged pull requests equal closed issues and
    open-to-merge latencies in number; they are at most the pull requests
    opened, which are at most the issue-to-comment latencies, which are at
    most the issues created, which are at most [n]; the comments counted are
    at least one per issue-to-comment latency plus one per merge, and at most
    one per issue-to-comment latency plus one per pull request opened;
    YOLO merges are all of the merges in YOLO mode and none otherwise;
    co-authored commits are counted for every pull request opened exactly
    when commits carry the co-author trailer; and nothing is merged when
    auto-merge is off. *)
Theorem run_record_is_consistent :
  forall (S : Type) (env : Env S) (config : Config.OrchestratorConfig)
         (createIssue : M S CreatedIssue)
         (createPullRequest : Z -> string -> M S CreatedPR)
         (s : S) (st : State),
    exists record,
      file (snd (final (main env config createIssue createPullRequest
                          (s, st))))
        = Some (Json
            {| version := version (loadPersistedData st);
               runs := runs (loadPersistedData st) ++ [record] |}) /\
      run_bounds
        (negb (String.eqb (coAuthorTrailer config) ""))
        (Config.autoMerge config) (Config.yoloMode config)
        (Z.max 0 (Z.min (Config.maxIssuesPerRun config)
                        (Config.maxPrsPerRun config)))
        (RunRecord.issuesCreated record) (RunRecord.issuesClosed record)
        (RunRecord.prsOpened record) (RunRecord.prsMerged record)
        (RunRecord.yoloMerges record) (RunRecord.commentsPosted record)
        (RunRecord.coAuthoredCommits record)
        (RunRecord.issueToFirstCommentMs record)
        (RunRecord.prOpenToMergeMs record).
Proof.
  intros S env config createIssue createPullRequest s st.
  destruct (main_run env config createIssue createPullRequest s st)
    as [s' [record [tr [Hmain [_ [_ Hb]]]]]].
  rewrite Hmain. exists record. split; [reflexivity|].
  rewrite <- coauthor_trailer.
  replace (Z.max 0 (Z.min (Config.maxIssuesPerRun config)
                          (Config.maxPrsPerRun config)))
    with (Z.of_nat (Z.to_nat (iterations config)))
    by (unfold iterations; lia).
  exact Hb.
Qed.

(** X23. When nothing fails (both creation pipelines, every comment request
    and every merge request succeed, and every poll answers mergeable), a run
    of [n] iterations records exactly [n] issues created, [n] pull requests
    opened, [2 n] comments and [n] issue-to-comment latencies; with
    auto-merge it records [n] merges, [n] issues closed and [n] open-to-merge
    latencies, all of the merges as YOLO merges in YOLO mode and none
    otherwise; without auto-merge it records no merge. Comments posted by
    the reviewed merge path are not among the comments counted. *)
Theorem run_record_when_nothing_fails :
  forall (S : Type) (env : Env S) (config : Config.OrchestratorConfig)
         (createIssue : M S CreatedIssue)
         (createPullRequest : Z -> string -> M S CreatedPR),
    always_ok createIssue ->
    (forall n title, always_ok (createPullRequest n title)) ->
    (forall n body s,
        exists d s1, issues_createComment env n body s = (Ok d, s1)) ->
    (forall n s,
        exists d s1,
          pulls_get env n s = (Ok d, s1) /\ data_mergeable d = Some true) ->
    (forall n a b c s,
        exists d s1, pulls_merge env n a b c s = (Ok d, s1)) ->
    forall (s : S) (st : State),
    exists record,
      file (snd (final (main env config createIssue createPullRequest
                          (s, st))))
        = Some (Json
            {| version := version (loadPersistedData st);
               runs := runs (loadPersistedData st) ++ [record] |}) /\
      run_exact
        (negb (String.eqb (coAuthorTrailer config) ""))
        (Config.autoMerge config) (Config.yoloMode config)
        (Z.max 0 (Z.min (Config.maxIssuesPerRun config)
                        (Config.maxPrsPerRun config)))
        (RunRecord.issuesCreated record) (RunRecord.issuesClosed record)
        (RunRecord.prsOpened record) (RunRecord.prsMerged record)
        (RunRecord.yoloMerges record) (RunRecord.commentsPosted record)
        (RunRecord.coAuthoredCommits record)
        (RunRecord.issueToFirstCommentMs record)
        (RunRecord.prOpenToMergeMs record).
Proof.
  intros S env config createIssue createPullRequest Hi Hp Hc Hg Hm s st.
  destruct (main_all_ok env config createIssue createPullRequest
              Hi Hp Hc Hg Hm s st) as [s' [record [tr [Hmain Hb]]]].
  rewrite Hmain. exists record. split; [reflexivity|].
  rewrite <- coauthor_trailer.
  replace (Z.max 0 (Z.min (Config.maxIssuesPerRun config)
                          (Config.maxPrsPerRun config)))
    with (Z.of_nat (Z.to_nat (iterations config)))
    by (unfold iterations; lia).
  exact Hb.
Qed.

Lemma run_record_when_nothing_fails_witness :
  exists record,
    file (snd (final (main agreeable two_reviewed_iterations
                        agreeable_createIssue agreeable_createPullRequest
                        (0, {| current := None; file := None |}))))
      = Some (Json
          {| version :=
               version (loadPersistedData
                          {| current := None; file := None |});
             runs :=
               runs (loadPersistedData {| current := None; file := None |})
                 ++ [record] |}) /\
    run_exact
      (negb (String.eqb (coAuthorTrailer two_reviewed_iterations) ""))
      (Config.autoMerge two_reviewed_iterations)
      (Config.yoloMode two_reviewed_iterations)
      (Z.max 0 (Z.min (Config.maxIssuesPerRun two_reviewed_iterations)
                      (Config.maxPrsPerRun two_reviewed_iterations)))
      (RunRecord.issuesCreated record) (RunRecord.issuesClosed record)
      (RunRecord.prsOpened record) (RunRecord.prsMerged record)
      (RunRecord.yoloMerges record) (RunRecord.commentsPosted record)
      (RunRecord.coAuthoredCommits record)
      (RunRecord.issueToFirstCommentMs record)
      (RunRecord.prOpenToMergeMs record).
Proof.
  apply (run_record_when_nothing_fails Z agreeable two_reviewed_iterations
           agreeable_createIssue agreeable_createPullRequest).
  - intros s. do 3 eexists. reflexivity.
  - intros n title s. do 3 eexists. reflexivity.
  - intros n body s. do 2 eexists. reflexivity.
  - intros n s. do 2 eexists. split; reflexivity.
  - intros n a b c s. do 2 eexists. reflexivity.
Defined.

(** Two reviewed iterations on the agreeable remote, in full: two issues,
    two pull requests, two merges none of them YOLO, four comments counted,
    two latencies of each kind. *)
Example two_reviewed_iterations_run :
  file (snd (final (main agreeable two_reviewed_iterations
                      agreeable_createIssue agreeable_createPullRequest
                      (0, {| current := None; file := None |}))))
  = Some (Json
      {| version := 1;
         runs := [RunRecord.mk 0 21000 2 2 2 2 0 4 0 [40; 40] [7000; 7000]]
      |}).
Proof. vm_compute. reflexivity. Qed.

(* ===================================================================== *)
(** * Logging levels, random integers, decimal numbers                    *)
(* ===================================================================== *)

(** X24. With a validated log level, a method of [log] prints exactly when
    its severity is at least the configured level: [error] always prints,
    and lowering the level never silences a method that printed before. *)
Theorem log_prints_from_level :
  forall (config : Config.OrchestratorConfig) (m : Logging.Method),
    In (Config.logLevel config) ["debug"; "info"; "warn"; "error"]%string ->
    (Logging.prints config m = true <->
     Logging.currentLevel config <= Logging.severity m) /\
    Logging.prints config Logging.error = true /\
    0 <= Logging.currentLevel config <= 3.
Proof.
  intros config m Hin.
  assert (Hr : 0 <= Logging.currentLevel config <= 3).
  { unfold Logging.currentLevel.
    destruct Hin as [<-|[<-|[<-|[<-|[]]]]]; simpl; lia. }
  split; [|split; [|exact Hr]].
  - destruct m; unfold Logging.prints, Logging.severity;
      apply Z.leb_le.
  - unfold Logging.prints. apply Z.leb_le. lia.
Qed.

Lemma log_prints_witness :
  (Logging.prints MoreProps.sample_config Logging.debug = true <->
   Logging.currentLevel MoreProps.sample_config
     <= Logging.severity Logging.debug) /\
  Logging.prints MoreProps.sample_config Logging.error = true /\
  0 <= Logging.currentLevel MoreProps.sample_config <= 3.
Proof.
  apply (log_prints_from_level MoreProps.sample_config Logging.debug).
  right. left. reflexivity.
Defined.

(** X25. [randomInt(min, max)] stays within its bounds, both included, for
    integers [min <= max] and any value of [Math.random()], which is at
    least 0 and below 1. *)
Theorem randomInt_within_bounds :
  forall (r : Q) (min max : Z),
    (0 <= r)%Q -> (r < 1)%Q -> min <= max ->
    min <= Logging.randomInt r min max <= max.
Proof.
  intros r lo hi H0 H1 Hle. unfold Logging.randomInt.
  set (n := hi - lo + 1).
  assert (Hn : (0 < inject_Z n)%Q).
  { change 0%Q with (inject_Z 0). rewrite <- Zlt_Qlt. unfold n. lia. }
  assert (Hlow : 0 <= Qfloor (r * inject_Z n)).
  { change 0 with (Qfloor (inject_Z 0)). apply Qfloor_resp_le.
    change (inject_Z 0) with 0%Q.
    apply Qmult_le_0_compat; [exact H0 | now apply Qlt_le_weak]. }
  assert (Hhigh : Qfloor (r * inject_Z n) < n).
  { rewrite Zlt_Qlt.
    apply Qle_lt_trans with (y := (r * inject_Z n)%Q); [apply Qfloor_le|].
    setoid_replace (inject_Z n) with (1 * inject_Z n)%Q at 2 by ring.
    apply Qmult_lt_compat_r; assumption. }
  unfold n in *. lia.
Qed.

Lemma randomInt_within_bounds_witness :
  3 <= Logging.randomInt (99 # 100) 3 8 <= 8.
Proof.
  apply (randomInt_within_bounds (99 # 100) 3 8).
  - discriminate.
  - reflexivity.
  - lia.
Defined.

Lemma digits_step (c : ascii) (k : Z) (rest : string) (acc : option Z) :
  digit_of c = Some k ->
  digits_prefix (String c rest) acc
    = digits_prefix rest
        (Some (10 * match acc with Some a => a | None => 0 end + k)).
Proof. intros H. cbn [digits_prefix]. now rewrite H. Qed.

Lemma digits_acc (d : Decimal.uint) :
  forall acc : positive,
    digits_prefix (NilEmpty.string_of_uint d) (Some (Z.pos acc))
      = Some (Z.pos (Pos.of_uint_acc d acc)).
Proof.
  induction d as [|d IH|d IH|d IH|d IH|d IH|d IH|d IH|d IH|d IH|d IH];
    intros acc; cbn [NilEmpty.string_of_uint Pos.of_uint_acc];
    [reflexivity|..].
  - rewrite (digits_step "0" 0) by reflexivity.
    replace (10 * Z.pos acc + 0) with (Z.pos (10 * acc)) by lia. apply IH.
  - rewrite (digits_step "1" 1) by reflexivity.
    replace (10 * Z.pos acc + 1) with (Z.pos (1 + 10 * acc)) by lia. apply IH.
  - rewrite (digits_step "2" 2) by reflexivity.
    replace (10 * Z.pos acc + 2) with (Z.pos (2 + 10 * acc)) by lia. apply IH.
  - rewrite (digits_step "3" 3) by reflexivity.
    replace (10 * Z.pos acc + 3) with (Z.pos (3 + 10 * acc)) by lia. apply IH.
  - rewrite (digits_step "4" 4) by reflexivity.
    replace (10 * Z.pos acc + 4) with (Z.pos (4 + 10 * acc)) by lia. apply IH.
  - rewrite (digits_step "5" 5) by reflexivity.
    replace (10 * Z.pos acc + 5) with (Z.pos (5 + 10 * acc)) by lia. apply IH.
  - rewrite (digits_step "6" 6) by reflexivity.
    replace (10 * Z.pos acc + 6) with (Z.pos (6 + 10 * acc)) by lia. apply IH.
  - rewrite (digits_step "7" 7) by reflexivity.
    replace (10 * Z.pos acc + 7) with (Z.pos (7 + 10 * acc)) by lia. apply IH.
  - rewrite (digits_step "8" 8) by reflexivity.
    replace (10 * Z.pos acc + 8) with (Z.pos (8 + 10 * acc)) by lia. apply IH.
  - rewrite (digits_step "9" 9) by reflexivity.
    replace (10 * Z.pos acc + 9) with (Z.pos (9 + 10 * acc)) by lia. apply IH.
Qed.

Lemma digits_from (d : Decimal.uint) (acc : option Z) :
  match acc with Some a => a | None => 0 end = 0 ->
  d <> Decimal.Nil \/ acc = Some 0 ->
  digits_prefix (NilEmpty.string_of_uint d) acc
    = Some (Z.of_N (Pos.of_uint d)).
Proof.
  revert acc.
  induction d as [|d IH|d IH|d IH|d IH|d IH|d IH|d IH|d IH|d IH|d IH];
    intros acc Hz Hne; cbn [NilEmpty.string_of_uint Pos.of_uint].
  - destruct Hne as [Hne | ->]; [now contradiction Hne | reflexivity].
  - rewrite (digits_step "0" 0) by reflexivity. rewrite Hz.
    apply IH; [reflexivity | now right].
  - rewrite (digits_step "1" 1) by reflexivity. rewrite Hz. apply digits_acc.
  - rewrite (digits_step "2" 2) by reflexivity. rewrite Hz. apply digits_acc.
  - rewrite (digits_step "3" 3) by reflexivity. rewrite Hz. apply digits_acc.
  - rewrite (digits_step "4" 4) by reflexivity. rewrite Hz. apply digits_acc.
  - rewrite (digits_step "5" 5) by reflexivity. rewrite Hz. apply digits_acc.
  - rewrite (digits_step "6" 6) by reflexivity. rewrite Hz. apply digits_acc.
  - rewrite (digits_step "7" 7) by reflexivity. rewrite Hz. apply digits_acc.
  - rewrite (digits_step "8" 8) by reflexivity. rewrite Hz. apply digits_acc.
  - rewrite (digits_step "9" 9) by reflexivity. rewrite Hz. apply digits_acc.
Qed.

Lemma digits_of_positive (p : positive) :
  digits_prefix (NilEmpty.string_of_uint (Pos.to_uint p)) None
    = Some (Z.pos p).
Proof.
  rewrite digits_from;
    [| reflexivity | left; apply DecimalPos.Unsigned.to_uint_nonnil].
  now rewrite DecimalPos.Unsigned.of_to.
Qed.

Lemma digit_led (d : Decimal.uint) :
  d <> Decimal.Nil ->
  exists c rest,
    NilEmpty.string_of_uint d = String c rest /\
    is_white c = false /\ c <> "-"%char /\ c <> "+"%char.
Proof.
  intros Hne. destruct d; [now contradiction Hne|..];
    cbn [NilEmpty.string_of_uint]; do 2 eexists;
    (split; [reflexivity|]); repeat split; discriminate.
Qed.

Lemma mathInt_unsigned (c : ascii) (rest : string) :
  is_white c = false -> c <> "-"%char -> c <> "+"%char ->
  mathInt (String c rest)
    = match digits_prefix (String c rest) None with
      | Some n => Some n
      | None => None
      end.
Proof.
  intros Hw Hm Hp. unfold mathInt. cbn [trimStart]. rewrite Hw.
  destruct c as [[] [] [] [] [] [] [] []]; try reflexivity;
    solve [now contradiction Hm | now contradiction Hp].
Qed.

Lemma mathInt_string_of_Z (z : Z) : mathInt (string_of_Z z) = Some z.
Proof.
  unfold string_of_Z. destruct z as [|p|p]; [reflexivity|..];
    cbn [Z.to_int NilZero.string_of_int]; unfold NilZero.string_of_uint;
    pose proof (DecimalPos.Unsigned.to_uint_nonnil p) as Hne;
    pose proof (digits_of_positive p) as Hd;
    destruct (digit_led (Pos.to_uint p) Hne) as [c [rest [Hs [Hw [Hm Hp]]]]].
  - destruct (Pos.to_uint p) eqn:E; [now contradiction Hne|..];
      rewrite <- E in *; rewrite Hs, (mathInt_unsigned c rest Hw Hm Hp);
      rewrite <- Hs, Hd; reflexivity.
  - destruct (Pos.to_uint p) eqn:E; [now contradiction Hne|..];
      rewrite <- E in *; unfold mathInt; cbn [trimStart];
      change (is_white "-") with false; cbv iota; rewrite Hd; reflexivity.
Qed.

Lemma to_Number_exact (z : Z) : Z.abs z <= 2 ^ 53 -> to_Number z = z.
Proof.
  intros H. unfold to_Number.
  apply Z.leb_le in H. now rewrite H.
Qed.

Lemma parseInt_string_of_Z (z : Z) :
  Z.abs z <= 2 ^ 53 -> parseInt (string_of_Z z) = Some z.
Proof.
  intros H. unfold parseInt.
  now rewrite mathInt_string_of_Z, (to_Number_exact z H).
Qed.

Lemma digits_not_white (d : Decimal.uint) :
  Forall (fun c => is_white c = false) (chars (NilEmpty.string_of_uint d)).
Proof.
  unfold chars.
  induction d; cbn [NilEmpty.string_of_uint list_ascii_of_string];
    constructor; try reflexivity; assumption.
Qed.

Lemma trim_positive (p : positive) :
  trim (string_of_Z (Z.pos p)) = string_of_Z (Z.pos p) /\
  string_of_Z (Z.pos p) <> EmptyString.
Proof.
  unfold string_of_Z. cbn [Z.to_int NilZero.string_of_int].
  unfold NilZero.string_of_uint.
  pose proof (DecimalPos.Unsigned.to_uint_nonnil p) as Hne.
  pose proof (digits_not_white (Pos.to_uint p)) as Hw.
  destruct (digit_led (Pos.to_uint p) Hne) as [c [rest [Hs _]]].
  destruct (Pos.to_uint p) eqn:E; [now contradiction Hne|..];
    rewrite <- E in *;
    (split; [|rewrite Hs; discriminate]);
    unfold trim;
    rewrite (drop_while_none _ _ Hw), (drop_while_end_none _ _ Hw);
    apply of_chars_chars.
Qed.

(** X26. Reading back what was written: [parseInt] applied to the decimal
    rendering of an integer of magnitude at most [2 ^ 53] returns that
    integer, and [envInt] returns [n] for a variable whose value is the
    decimal rendering of a positive [n] up to [2 ^ 53]. Beyond, the digits
    denote an integer that need not be a Number value, and [parseInt]
    returns the nearest one. *)
Theorem decimal_round_trip :
  (forall z, Z.abs z <= 2 ^ 53 -> parseInt (string_of_Z z) = Some z) /\
  (forall (process_env : Config.ProcessEnv) (key : string) (n fallback : Z),
      process_env key = Some (string_of_Z n) ->
      0 < n <= 2 ^ 53 ->
      Config.envInt process_env key fallback = n).
Proof.
  split; [exact parseInt_string_of_Z|].
  intros penv key n fallback Hv [Hpos Hfin].
  destruct n as [|p|p]; try lia.
  destruct (trim_positive p) as [Htrim Hne].
  unfold Config.envInt.
  rewrite (env_set penv key "" _ Hv), Htrim.
  apply eqb_not_empty in Hne. rewrite Hne.
  rewrite (parseInt_string_of_Z (Z.pos p) Hfin). unfold Number_isFinite.
  assert (H1 : (Z.abs (Z.pos p) <? overflow_threshold) = true).
  { apply Z.ltb_lt. change (Z.abs (Z.pos p)) with (Z.pos p).
    apply (Z.le_lt_trans _ (2 ^ 53)); [exact Hfin | reflexivity]. }
  assert (H2 : (0 <? Z.pos p) = true) by reflexivity.
  cbv beta iota zeta.
  rewrite Hne, H1, H2. reflexivity.
Qed.

Lemma decimal_round_trip_witness :
  Config.envInt (fun _ => Some (string_of_Z 12)) "MAX_ISSUES_PER_RUN" 1 = 12.
Proof.
  apply (proj2 decimal_round_trip (fun _ => Some (string_of_Z 12))
           "MAX_ISSUES_PER_RUN"%string 12 1).
  - reflexivity.
  - split; [lia | discriminate].
Defined.

(** Beyond [2 ^ 53] the value read is the nearest Number value: a cap
    written as 9007199254740993 is read as 9007199254740992. *)
Example envInt_rounds_beyond_2_53 :
  parseInt "9007199254740993" = Some 9007199254740992 /\
  parseInt "9007199254740995" = Some 9007199254740996 /\
  Config.envInt (fun _ => Some "9007199254740993"%string)
    "MAX_ISSUES_PER_RUN" 1 = 9007199254740992.
Proof. repeat split; vm_compute; reflexivity. Qed.
